(** * Claude HUD: stdin context percentage, usage cache and fetcher,
      transcript accumulator

    A shallow embedding of [src/stdin.ts], [dist/usage-api.js] and
    the transcript parser, with the properties of the specification that
    concern them. *)

From Stdlib Require Import ZArith QArith Qround String Ascii List Bool Lia.
From Stdlib Require Import DecimalString Lqa.
Import ListNotations.
Local Open Scope Z_scope.

(* ===================================================================== *)
(** * JavaScript values used by the sources *)
(* ===================================================================== *)

Module Js.

(** An optional property: absent ([undefined]), [null], or a value. *)
Inductive nullable (A : Type) : Type :=
| Undefined
| Null
| Val (a : A).
Arguments Undefined {A}.
Arguments Null {A}.
Arguments Val {A} a.

(** [x == null] *)
Definition nullish {A} (x : nullable A) : bool :=
  match x with Val _ => false | _ => true end.

(** [x ?? y] *)
Definition coalesce {A} (x y : nullable A) : nullable A :=
  match x with Val _ => x | _ => y end.

(** [x ?? d] with a default that is a plain value *)
Definition orDefault {A} (x : nullable A) (d : A) : A :=
  match x with Val a => a | _ => d end.

(** [x?.f] *)
Definition chain {A B} (x : nullable A) (f : A -> nullable B) : nullable B :=
  match x with Val a => f a | _ => Undefined end.

(** [x ?? null] for a result typed [T | null] *)
Definition orNull {A} (x : nullable A) : option A :=
  match x with Val a => Some a | _ => None end.

(** A JavaScript [number]: the finite doubles are rationals; the sign of
    zero is not tracked. *)
Inductive number : Type :=
| NaN
| PosInf
| NegInf
| Fin (q : Q).

Definition ofZ (z : Z) : number := Fin (inject_Z z).

(** [Number.isFinite] on a value already known to be a number *)
Definition isFinite (n : number) : bool :=
  match n with Fin _ => true | _ => false end.

(** [a <= b] *)
Definition le (a b : number) : bool :=
  match a, b with
  | NaN, _ | _, NaN => false
  | NegInf, _ => true
  | _, PosInf => true
  | Fin p, Fin q => Qle_bool p q
  | _, _ => false
  end.

(** [a < b] *)
Definition lt (a b : number) : bool :=
  match a, b with
  | NaN, _ | _, NaN => false
  | PosInf, _ => false
  | _, NegInf => false
  | Fin p, Fin q => negb (Qle_bool q p)
  | _, _ => true
  end.

(** Truthiness of a number: [0] and [NaN] are falsy. *)
Definition truthy (n : number) : bool :=
  match n with
  | NaN => false
  | Fin q => negb (Qeq_bool q 0)
  | _ => true
  end.

Definition Math_floor (n : number) : number :=
  match n with Fin q => ofZ (Qfloor q) | _ => n end.

(** [Math.round]: nearest integer, ties towards +infinity *)
Definition Math_round (n : number) : number :=
  match n with Fin q => ofZ (Qfloor (q + (1 # 2))) | _ => n end.

Definition Math_min (a b : number) : number :=
  match a, b with
  | NaN, _ | _, NaN => NaN
  | NegInf, _ | _, NegInf => NegInf
  | PosInf, x | x, PosInf => x
  | Fin p, Fin q => if Qle_bool p q then Fin p else Fin q
  end.

Definition Math_max (a b : number) : number :=
  match a, b with
  | NaN, _ | _, NaN => NaN
  | PosInf, _ | _, PosInf => PosInf
  | NegInf, x | x, NegInf => x
  | Fin p, Fin q => if Qle_bool p q then Fin q else Fin p
  end.

Definition signOf (q : Q) : comparison := (Qnum q ?= 0)%Z.

Section Arith.
(** Rounding of an exact finite result to a double; it may overflow to
    an infinity.  Nothing is assumed about it. *)
Variable fl : Q -> number.

Definition add (a b : number) : number :=
  match a, b with
  | NaN, _ | _, NaN => NaN
  | PosInf, NegInf | NegInf, PosInf => NaN
  | PosInf, _ | _, PosInf => PosInf
  | NegInf, _ | _, NegInf => NegInf
  | Fin p, Fin q => fl (p + q)
  end.

Definition signedInf (c : comparison) : number :=
  match c with Gt => PosInf | Lt => NegInf | Eq => NaN end.

Definition flipSign (n : number) : number :=
  match n with PosInf => NegInf | NegInf => PosInf | _ => n end.

Definition mul (a b : number) : number :=
  match a, b with
  | NaN, _ | _, NaN => NaN
  | Fin p, Fin q => fl (p * q)
  | Fin p, PosInf | PosInf, Fin p => signedInf (signOf p)
  | Fin p, NegInf | NegInf, Fin p => flipSign (signedInf (signOf p))
  | PosInf, PosInf | NegInf, NegInf => PosInf
  | PosInf, NegInf | NegInf, PosInf => NegInf
  end.

(** [a / b]; a zero divisor is taken as [+0]. *)
Definition div (a b : number) : number :=
  match a, b with
  | NaN, _ | _, NaN => NaN
  | Fin p, Fin q =>
      if Qeq_bool q 0 then signedInf (signOf p) else fl (p / q)
  | Fin _, _ => ofZ 0
  | PosInf, Fin q => match signOf q with Lt => NegInf | _ => PosInf end
  | NegInf, Fin q => match signOf q with Lt => PosInf | _ => NegInf end
  | _, _ => NaN
  end.
End Arith.

(** Truthiness of a string: the empty string is falsy. *)
Definition truthyStr (s : string) : bool :=
  match s with EmptyString => false | _ => true end.

Definition truthyNStr (s : nullable string) : bool :=
  match s with Val s => truthyStr s | _ => false end.

End Js.

(* ===================================================================== *)
(** * [src/stdin.ts] *)
(* ===================================================================== *)

Module Stdin.
Import Js.

Record CurrentUsage := {
  input_tokens : nullable number;
  cache_creation_input_tokens : nullable number;
  cache_read_input_tokens : nullable number;
}.

Record ContextWindow := {
  context_window_size : nullable number;
  used_percentage : nullable number;
  current_usage : nullable CurrentUsage;
}.

Record StdinData := {
  context_window : nullable ContextWindow;
}.

Section WithRounding.
Variable fl : Q -> number.

Definition getTotalTokens (stdin : StdinData) : number :=
  let usage := chain (context_window stdin) current_usage in
  add fl
    (add fl (orDefault (chain usage input_tokens) (ofZ 0))
            (orDefault (chain usage cache_creation_input_tokens) (ofZ 0)))
    (orDefault (chain usage cache_read_input_tokens) (ofZ 0)).

Definition getContextPercent (stdin : StdinData) : number :=
  let usedPct := chain (context_window stdin) used_percentage in
  match usedPct with
  | Val p => Math_min (ofZ 100) (Math_floor p)
  | _ =>
      let size := chain (context_window stdin) context_window_size in
      match size with
      | Val sz =>
          if negb (truthy sz) || le sz (ofZ 0) then ofZ 0
          else
            let totalTokens := getTotalTokens stdin in
            Math_min (ofZ 100)
                     (Math_floor (mul fl (div fl totalTokens sz) (ofZ 100)))
      | _ => ofZ 0
      end
  end.
End WithRounding.

(** Payload builders for the examples. *)
Definition noUsage : nullable CurrentUsage := Undefined.

Definition tokens (i c r : number) : nullable CurrentUsage :=
  Val {| input_tokens := Val i;
         cache_creation_input_tokens := Val c;
         cache_read_input_tokens := Val r |}.

Definition payload (size pct : nullable number) (u : nullable CurrentUsage)
  : StdinData :=
  {| context_window :=
       Val {| context_window_size := size;
              used_percentage := pct;
              current_usage := u |} |}.

End Stdin.

(* ===================================================================== *)
(** * [dist/usage-api.js] *)
(* ===================================================================== *)

Module UsageApi.
Import Js.
Local Open Scope string_scope.
Local Open Scope Z_scope.

Definition CACHE_TTL_MS : Z := 60000.
Definition CACHE_FAILURE_TTL_MS : Z := 15000.

(** ** String helpers (ASCII) *)

Definition lowerChar (c : ascii) : ascii :=
  let n := N_of_ascii c in
  if ((65 <=? n) && (n <=? 90))%N then ascii_of_N (n + 32) else c.

Definition upperChar (c : ascii) : ascii :=
  let n := N_of_ascii c in
  if ((97 <=? n) && (n <=? 122))%N then ascii_of_N (n - 32) else c.

Fixpoint toLowerCase (s : string) : string :=
  match s with
  | EmptyString => EmptyString
  | String c r => String (lowerChar c) (toLowerCase r)
  end.

Fixpoint includes (s sub : string) : bool :=
  String.prefix sub s
  || match s with
     | EmptyString => false
     | String _ r => includes r sub
     end.

(** [s.charAt(0).toUpperCase() + s.slice(1)] *)
Definition capitalize (s : string) : string :=
  match s with
  | EmptyString => EmptyString
  | String c r => String (upperChar c) r
  end.

(** Decimal text of an integer, as a template literal prints it. *)
Definition showZ (z : Z) : string := NilEmpty.string_of_int (Z.to_int z).

(** ** Paths *)

Definition path_join (parts : list string) : string := String.concat "/" parts.

Definition cacheDirOf (homeDir : string) : string :=
  path_join [homeDir; ".claude"; "plugins"; "claude-hud"].

Definition getCachePath (homeDir : string) : string :=
  path_join [homeDir; ".claude"; "plugins"; "claude-hud"; ".usage-cache.json"].

(** ** Shapes of the two endpoints' responses *)

Record RawWindow := {
  utilization : nullable number;
  resets_at : nullable string;
}.

Record RawQuota := {
  model_id : nullable string;
  display_name : nullable string;
  weekly_hours_used : nullable number;
  weekly_hours_limit : nullable number;
  tokens_used : nullable number;
  tokens_limit : nullable number;
  q_utilization : nullable number;
  q_resets_at : nullable string;
}.

Record ApiResponse := {
  five_hour : nullable RawWindow;
  seven_day : nullable RawWindow;
  model_quotas : nullable (list RawQuota);
  max_plan_type : nullable string;
  compaction_buffer : nullable number;
  tokens_per_window : nullable number;
}.

(** ** The parsed result *)

(** A quota's reset date: the [Date] that [parseDate] makes, or the ISO
    text that [JSON.stringify] writes for it and that [readCache] hands
    back as text; either is given by its epoch milliseconds. *)
Inductive QuotaDate :=
| DateObject (ms : Z)
| IsoText (ms : Z).

Record ModelQuota := {
  modelId : string;
  displayName : string;
  weeklyHoursUsed : option number;
  weeklyHoursLimit : option number;
  tokensUsed : option number;
  tokensLimit : option number;
  mq_utilization : option number;
  resetsAt : option QuotaDate;
}.

Inductive Tier := Max5 | Max20.

Record MaxPlanInfo := {
  tier : option Tier;
  tokensPerWindow : option number;
  isActive : bool;
}.

Record CompactionInfo := {
  bufferPercent : number;
  isEnabled : bool;
}.

(** Dates are their epoch milliseconds; [None] is [null] or an absent
    property; [apiUnavailable] absent reads as [false]. *)
Record UsageData := {
  planName : option string;
  fiveHour : option number;
  sevenDay : option number;
  fiveHourResetAt : option Z;
  sevenDayResetAt : option Z;
  apiUnavailable : bool;
  modelQuotas : option (list ModelQuota);
  maxPlanInfo : option MaxPlanInfo;
  compactionInfo : option CompactionInfo;
  organizationUuid : nullable string;
  fiveHourResetIn : option string;
  sevenDayResetIn : option string;
}.

(** ** Pure helpers *)

(** Merge responses from both API endpoints *)
Definition mergeApiResponses (primary secondary : option ApiResponse)
  : option ApiResponse :=
  match primary, secondary with
  | None, None => None
  | None, Some s => Some s
  | Some p, None => Some p
  | Some p, Some s =>
      Some {| five_hour := coalesce (five_hour p) (five_hour s);
              seven_day := coalesce (seven_day p) (seven_day s);
              model_quotas := coalesce (model_quotas p) (model_quotas s);
              max_plan_type := coalesce (max_plan_type p) (max_plan_type s);
              compaction_buffer :=
                coalesce (compaction_buffer p) (compaction_buffer s);
              tokens_per_window :=
                coalesce (tokens_per_window p) (tokens_per_window s) |}
  end.

(** Parse utilization value, clamping to 0-100 and handling NaN/Infinity *)
Definition parseUtilization (value : nullable number) : option number :=
  match value with
  | Val v =>
      if negb (isFinite v) then None
      else Some (Math_round (Math_max (ofZ 0) (Math_min (ofZ 100) v)))
  | _ => None
  end.

Definition getPlanName (subscriptionType : string) (hasOAuthToken : bool)
  : option string :=
  let lower := toLowerCase subscriptionType in
  if includes lower "max" then Some "Max"
  else if includes lower "pro" then Some "Pro"
  else if includes lower "team" then Some "Team"
  else if includes lower "api" then None
  else if negb (truthyStr subscriptionType) && hasOAuthToken then Some "Pro"
  else if negb (truthyStr subscriptionType) then None
  else Some (capitalize subscriptionType).

(** Format time remaining until reset as human-readable string *)
Definition formatTimeToReset (resetAt now : Z) : string :=
  let diffMs := resetAt - now in
  if diffMs <=? 0 then "now"
  else
    (* Math.ceil(diffMs / 60000) on a positive integral count *)
    let totalMins := (diffMs + 59999) / 60000 in
    if totalMins <? 60 then showZ totalMins ++ "m"
    else
      let hours := totalMins / 60 in
      let mins := totalMins mod 60 in
      if hours <? 24 then
        if 0 <? mins then showZ hours ++ "h " ++ showZ mins ++ "m"
        else showZ hours ++ "h"
      else
        let days := hours / 24 in
        let remainingHours := hours mod 24 in
        if 0 <? remainingHours
        then showZ days ++ "d " ++ showZ remainingHours ++ "h"
        else showZ days ++ "d".

(** Parse Max plan tier information *)
Definition parseMaxPlanInfo (maxPlanType : nullable string)
           (tokensPerWindow_ : nullable number)
           (rateLimitTier_ : nullable string) : MaxPlanInfo :=
  let first : option Tier * option number :=
    match maxPlanType with
    | Val m =>
        if truthyStr m then
          let lower := toLowerCase m in
          if includes lower "max20" || String.eqb lower "20"
          then (Some Max20, Some (orDefault tokensPerWindow_ (ofZ 220000)))
          else if includes lower "max5" || String.eqb lower "5"
          then (Some Max5, Some (orDefault tokensPerWindow_ (ofZ 88000)))
          else (None, None)
        else (None, None)
    | _ => (None, None)
    end in
  let second : option Tier * option number :=
    match fst first, rateLimitTier_ with
    | None, Val r =>
        if truthyStr r then
          let lower := toLowerCase r in
          if includes lower "max20" || includes lower "tier_20"
          then (Some Max20, Some (ofZ 220000))
          else if includes lower "max5" || includes lower "tier_5"
          then (Some Max5, Some (ofZ 88000))
          else first
        else first
    | _, _ => first
    end in
  {| tier := fst second;
     tokensPerWindow := snd second;
     isActive := match fst second with Some _ => true | None => false end |}.

(** Parse compaction buffer settings *)
Definition parseCompactionInfo (bufferPercent_ : nullable number)
  : CompactionInfo :=
  match bufferPercent_ with
  | Val b =>
      if negb (isFinite b)
      then {| bufferPercent := ofZ 80; isEnabled := false |}
      else {| bufferPercent :=
                Math_round (Math_max (ofZ 50) (Math_min (ofZ 100) b));
              isEnabled := true |}
  | _ => {| bufferPercent := ofZ 80; isEnabled := false |}
  end.

(** ** Credentials *)

Record OAuth := {
  accessToken : nullable string;
  subscriptionType : nullable string;
  rateLimitTier : nullable string;
  expiresAt : nullable Z;
}.

Record Account := {
  acc_organizationUuid : nullable string;
}.

Record CredentialData := {
  claudeAiOauth : nullable OAuth;
  oauthAccount : nullable Account;
}.

Record Credentials := {
  cred_accessToken : string;
  cred_subscriptionType : string;
  cred_organizationUuid : nullable string;
  cred_rateLimitTier : nullable string;
}.

(** ** The world [getUsage] acts on *)

(** What the cache file holds: nothing, text that does not parse to a
    record (an empty or partial file included), or a record. *)
Inductive CacheSlot :=
| NoFile
| Unreadable
| Stored (data : UsageData) (timestamp : Z).

Inductive FsOp :=
| ExistsSync (p : string)
| MkdirSync (p : string)
| WriteFileSync (p : string) (data : UsageData) (timestamp : Z)
| RenameSync (src dst : string).

Inductive FetchCall :=
| CallFetchApi (token : string) (org : nullable string)
| CallFetchUsageLimits (token : string) (org : nullable string).

(** A fetch promise settles: it rejects, or resolves to a response or
    to [null]. *)
Inductive Settled :=
| Rejects
| Resolves (r : option ApiResponse).

(** Which call of a cache write throws, if any.  [mkdirSync] is called,
    and so can throw, only when the directory is missing.
    [writeFileSync] can throw before it has opened the file, which then
    stays as it was, or after it has opened and truncated it, which
    leaves an empty or partial file. *)
Inductive WriteFailure :=
| NoFailure
| MkdirThrows
| OpenThrows
| WriteThrows.

(** The files under the one home directory the calls run with, the
    keychain, and two logs: the fetch calls made, and the file-system
    calls of [writeCache].  The reads of [readCache] and
    [readCredentials] change nothing and are not logged. *)
Record World := {
  cacheSlot : CacheSlot;
  cacheDirExists : bool;
  writeFailure : WriteFailure;
  credentialsFile : option CredentialData;
  keychain : option CredentialData;
  fetchLog : list FetchCall;
  fsLog : list FsOp;
}.

Record Deps := {
  homeDir : string;
  now : Z;
  fetchApi : string -> nullable string -> Settled;
  fetchUsageLimits : string -> nullable string -> Settled;
}.

Definition readCache (w : World) (now_ : Z) : option UsageData :=
  match cacheSlot w with
  | NoFile => None
  | Unreadable => None
  | Stored data timestamp =>
      let ttl := if apiUnavailable data
                 then CACHE_FAILURE_TTL_MS else CACHE_TTL_MS in
      if ttl <=? now_ - timestamp then None else Some data
  end.

(** What [JSON.stringify] keeps of a number: non-finite ones become
    [null]. *)
Definition jsonNumber (n : option number) : option number :=
  match n with
  | Some v => if isFinite v then Some v else None
  | None => None
  end.

(** [JSON.stringify] writes a [Date] as its [toISOString]; text stays
    text. *)
Definition stringified (d : QuotaDate) : QuotaDate :=
  match d with
  | DateObject ms => IsoText ms
  | IsoText ms => IsoText ms
  end.

(** A quota as it comes back: [readCache] restores no date inside the
    quota list. *)
Definition jsonQuota (q : ModelQuota) : ModelQuota :=
  {| modelId := modelId q;
     displayName := displayName q;
     weeklyHoursUsed := jsonNumber (weeklyHoursUsed q);
     weeklyHoursLimit := jsonNumber (weeklyHoursLimit q);
     tokensUsed := jsonNumber (tokensUsed q);
     tokensLimit := jsonNumber (tokensLimit q);
     mq_utilization := jsonNumber (mq_utilization q);
     resetsAt := option_map stringified (resetsAt q) |}.

Definition jsonPlan (m : MaxPlanInfo) : MaxPlanInfo :=
  {| tier := tier m;
     tokensPerWindow := jsonNumber (tokensPerWindow m);
     isActive := isActive m |}.

(** The payload as it comes back from the file. *)
Definition jsonRoundTrip (d : UsageData) : UsageData :=
  {| planName := planName d;
     fiveHour := jsonNumber (fiveHour d);
     sevenDay := jsonNumber (sevenDay d);
     fiveHourResetAt := fiveHourResetAt d;
     sevenDayResetAt := sevenDayResetAt d;
     apiUnavailable := apiUnavailable d;
     modelQuotas := option_map (map jsonQuota) (modelQuotas d);
     maxPlanInfo := option_map jsonPlan (maxPlanInfo d);
     compactionInfo := compactionInfo d;
     organizationUuid := organizationUuid d;
     fiveHourResetIn := fiveHourResetIn d;
     sevenDayResetIn := sevenDayResetIn d |}.

Definition logFs (w : World) (ops : list FsOp) (slot : CacheSlot)
           (dirExists : bool) : World :=
  {| cacheSlot := slot;
     cacheDirExists := dirExists;
     writeFailure := writeFailure w;
     credentialsFile := credentialsFile w;
     keychain := keychain w;
     fetchLog := fetchLog w;
     fsLog := (fsLog w ++ ops)%list |}.

(** The file-system calls one [writeCache] makes, in order. *)
Definition writeCacheOps (dirExists : bool) (homeDir_ : string)
           (data : UsageData) (timestamp : Z) : list FsOp :=
  let cachePath := getCachePath homeDir_ in
  let cacheDir := cacheDirOf homeDir_ in
  ([ExistsSync cacheDir]
     ++ (if dirExists then [] else [MkdirSync cacheDir])
     ++ [WriteFileSync cachePath data timestamp])%list.

(** A throwing [mkdirSync] or [writeFileSync] is swallowed by the
    [catch].  The log holds the calls made, the throwing one included. *)
Definition writeCache (w : World) (homeDir_ : string) (data : UsageData)
           (timestamp : Z) : World :=
  let ops := writeCacheOps (cacheDirExists w) homeDir_ data timestamp in
  let written := logFs w ops (Stored (jsonRoundTrip data) timestamp) true in
  match writeFailure w with
  | NoFailure => written
  | MkdirThrows =>
      if cacheDirExists w then written
      else logFs w [ExistsSync (cacheDirOf homeDir_);
                    MkdirSync (cacheDirOf homeDir_)]
                 (cacheSlot w) false
  | OpenThrows => logFs w ops (cacheSlot w) true
  | WriteThrows => logFs w ops Unreadable true
  end.

Definition hasToken (d : CredentialData) : bool :=
  truthyNStr (chain (claudeAiOauth d) accessToken).

(** The credential data [readCredentials] settles on: the file's, or
    the keychain's when the file gives none or carries no token. *)
Definition resolveCredentialData (w : World) : option CredentialData :=
  match credentialsFile w with
  | Some d => if hasToken d then Some d else keychain w
  | None => keychain w
  end.

Definition readCredentials (w : World) (now_ : Z) : option Credentials :=
  match resolveCredentialData w with
  | None => None
  | Some d =>
      let accessToken_ := chain (claudeAiOauth d) accessToken in
      let subscriptionType_ :=
        orDefault (chain (claudeAiOauth d) subscriptionType) EmptyString in
      let organizationUuid_ := chain (oauthAccount d) acc_organizationUuid in
      let rateLimitTier_ := chain (claudeAiOauth d) rateLimitTier in
      let credentials :=
        {| cred_accessToken := orDefault accessToken_ EmptyString;
           cred_subscriptionType := subscriptionType_;
           cred_organizationUuid := organizationUuid_;
           cred_rateLimitTier := rateLimitTier_ |} in
      if negb (truthyNStr accessToken_) then None
      else
        match chain (claudeAiOauth d) expiresAt with
        | Val e => if e <=? now_ then None else Some credentials
        | _ => Some credentials
        end
  end.

(** Update time-to-reset countdowns (these change every render) *)
Definition refreshCountdowns (cached : UsageData) (now_ : Z) : UsageData :=
  {| planName := planName cached;
     fiveHour := fiveHour cached;
     sevenDay := sevenDay cached;
     fiveHourResetAt := fiveHourResetAt cached;
     sevenDayResetAt := sevenDayResetAt cached;
     apiUnavailable := apiUnavailable cached;
     modelQuotas := modelQuotas cached;
     maxPlanInfo := maxPlanInfo cached;
     compactionInfo := compactionInfo cached;
     organizationUuid := organizationUuid cached;
     fiveHourResetIn :=
       match fiveHourResetAt cached with
       | Some t => Some (formatTimeToReset t now_)
       | None => fiveHourResetIn cached
       end;
     sevenDayResetIn :=
       match sevenDayResetAt cached with
       | Some t => Some (formatTimeToReset t now_)
       | None => sevenDayResetIn cached
       end |}.

Definition failureResult (planName_ : string) : UsageData :=
  {| planName := Some planName_;
     fiveHour := None;
     sevenDay := None;
     fiveHourResetAt := None;
     sevenDayResetAt := None;
     apiUnavailable := true;
     modelQuotas := None;
     maxPlanInfo := None;
     compactionInfo := None;
     organizationUuid := Undefined;
     fiveHourResetIn := None;
     sevenDayResetIn := None |}.

Section WithDateParser.
(** [new Date(text).getTime()]: epoch milliseconds, or [None] for an
    Invalid Date. *)
Variable Date_parse : string -> option Z.

(** Parse ISO date string safely, returning null for invalid dates *)
Definition parseDate (dateStr : nullable string) : option Z :=
  match dateStr with
  | Val s => if truthyStr s then Date_parse s else None
  | _ => None
  end.

(** Parse model quotas from API response *)
Definition parseModelQuotas (quotas : nullable (list RawQuota))
  : list ModelQuota :=
  match quotas with
  | Val qs =>
      map (fun q =>
             {| modelId := orDefault (model_id q) "unknown";
                displayName :=
                  orDefault (coalesce (display_name q) (model_id q))
                            "Unknown Model";
                weeklyHoursUsed := orNull (weekly_hours_used q);
                weeklyHoursLimit := orNull (weekly_hours_limit q);
                tokensUsed := orNull (tokens_used q);
                tokensLimit := orNull (tokens_limit q);
                mq_utilization := parseUtilization (q_utilization q);
                resetsAt :=
                  option_map DateObject (parseDate (q_resets_at q)) |}) qs
  | _ => []
  end.

Definition parseResponse (planName_ : string) (cred : Credentials)
           (mergedResponse : ApiResponse) (now_ : Z) : UsageData :=
  let fiveHour_ :=
    parseUtilization (chain (five_hour mergedResponse) utilization) in
  let sevenDay_ :=
    parseUtilization (chain (seven_day mergedResponse) utilization) in
  let fiveHourResetAt_ :=
    parseDate (chain (five_hour mergedResponse) resets_at) in
  let sevenDayResetAt_ :=
    parseDate (chain (seven_day mergedResponse) resets_at) in
  let modelQuotas_ := parseModelQuotas (model_quotas mergedResponse) in
  let maxPlanInfo_ :=
    parseMaxPlanInfo (max_plan_type mergedResponse)
                     (tokens_per_window mergedResponse)
                     (cred_rateLimitTier cred) in
  let compactionInfo_ :=
    parseCompactionInfo (compaction_buffer mergedResponse) in
  {| planName := Some planName_;
     fiveHour := fiveHour_;
     sevenDay := sevenDay_;
     fiveHourResetAt := fiveHourResetAt_;
     sevenDayResetAt := sevenDayResetAt_;
     apiUnavailable := false;
     modelQuotas :=
       match modelQuotas_ with [] => None | _ => Some modelQuotas_ end;
     maxPlanInfo :=
       match tier maxPlanInfo_ with
       | Some _ => Some maxPlanInfo_
       | None => None
       end;
     compactionInfo :=
       if isEnabled compactionInfo_ then Some compactionInfo_ else None;
     organizationUuid := cred_organizationUuid cred;
     fiveHourResetIn :=
       option_map (fun t => formatTimeToReset t now_) fiveHourResetAt_;
     sevenDayResetIn :=
       option_map (fun t => formatTimeToReset t now_) sevenDayResetAt_ |}.

Definition logFetch (w : World) (calls : list FetchCall) : World :=
  {| cacheSlot := cacheSlot w;
     cacheDirExists := cacheDirExists w;
     writeFailure := writeFailure w;
     credentialsFile := credentialsFile w;
     keychain := keychain w;
     fetchLog := (fetchLog w ++ calls)%list;
     fsLog := fsLog w |}.

Definition getUsage (deps : Deps) (w : World) : option UsageData * World :=
  let now_ := now deps in
  let homeDir_ := homeDir deps in
  match readCache w now_ with
  | Some cached => (Some (refreshCountdowns cached now_), w)
  | None =>
      match readCredentials w now_ with
      | None => (None, w)
      | Some cred =>
          let tok := cred_accessToken cred in
          let org := cred_organizationUuid cred in
          match getPlanName (cred_subscriptionType cred) true with
          | None => (None, w)
          | Some planName_ =>
              if negb (truthyStr planName_) then (None, w)
              else
                let apiResponse := fetchApi deps tok org in
                let usageLimitsResponse := fetchUsageLimits deps tok org in
                let w1 := logFetch w [CallFetchApi tok org;
                                      CallFetchUsageLimits tok org] in
                match apiResponse, usageLimitsResponse with
                | Resolves a, Resolves b =>
                    match mergeApiResponses a b with
                    | None =>
                        let failure := failureResult planName_ in
                        (Some failure, writeCache w1 homeDir_ failure now_)
                    | Some mergedResponse =>
                        let result :=
                          parseResponse planName_ cred mergedResponse now_ in
                        (Some result, writeCache w1 homeDir_ result now_)
                    end
                | _, _ => (None, w1)
                end
          end
      end
  end.
End WithDateParser.

End UsageApi.

(* ===================================================================== *)
(** * The transcript parser ([parseTranscript]) *)
(* ===================================================================== *)

Module Transcript.
Import Js.
Local Open Scope string_scope.

(** A [Date] object: an instant in epoch milliseconds, or Invalid Date. *)
Inductive Date :=
| InvalidDate
| DateOf (ms : Z).

(** ** Transcript lines, as the interfaces declare them *)

Record TodoItem := {
  todo_content : string;
  todo_status : string;
}.

(** [Record<string, unknown>], read through the casts the source applies
    to each key. *)
Record ToolInput := {
  file_path : nullable string;
  path : nullable string;
  pattern : nullable string;
  command : nullable string;
  subagent_type : nullable string;
  model : nullable string;
  description : nullable string;
  todos : nullable (list TodoItem);
}.

Record ContentBlock := {
  block_type : string;
  block_id : nullable string;
  block_name : nullable string;
  block_text : nullable string;
  block_input : nullable ToolInput;
  tool_use_id : nullable string;
  is_error : nullable bool;
}.

Inductive Content :=
| Blocks (blocks : list ContentBlock)
| Text (s : string).

Record Message := {
  content : nullable Content;
}.

Record TranscriptLine := {
  line_type : nullable string;
  timestamp : nullable string;
  message : nullable Message;
}.

(** ** The accumulated records *)

Inductive ToolStatus := running | completed | error.

Record ToolEntry := {
  id : string;
  name : string;
  target : nullable string;
  status : ToolStatus;
  startTime : Date;
  endTime : option Date;
}.

Inductive AgentStatus := agent_running | agent_completed.

Record AgentEntry := {
  agent_id : string;
  agent_type : string;
  agent_model : nullable string;
  agent_description : nullable string;
  agent_status : AgentStatus;
  agent_startTime : Date;
  agent_endTime : option Date;
}.

Record TranscriptData := {
  tools : list ToolEntry;
  agents : list AgentEntry;
  result_todos : list TodoItem;
  sessionStart : option Date;
  lastUserMessage : option string;
}.

(** ** [Map<string, V>]: insertion-ordered *)

Section OrderedMap.
Context {V : Type}.

Definition omap := list (string * V).

Fixpoint mapGet (k : string) (m : omap) : option V :=
  match m with
  | [] => None
  | (k', v) :: rest => if String.eqb k k' then Some v else mapGet k rest
  end.

(** [m.set(k, v)]: a known key keeps its place, a new one goes last. *)
Fixpoint mapSet (k : string) (v : V) (m : omap) : omap :=
  match m with
  | [] => [(k, v)]
  | (k', v') :: rest =>
      if String.eqb k k' then (k', v) :: rest
      else (k', v') :: mapSet k v rest
  end.

(** Mutation of the object stored under [k], when there is one. *)
Fixpoint mapUpdate (k : string) (f : V -> V) (m : omap) : omap :=
  match m with
  | [] => []
  | (k', v') :: rest =>
      if String.eqb k k' then (k', f v') :: rest
      else (k', v') :: mapUpdate k f rest
  end.

Definition mapValues (m : omap) : list V := map snd m.
Definition mapKeys (m : omap) : list string := map fst m.
End OrderedMap.
Arguments omap V : clear implicits.

(** [xs.slice(-n)] *)
Definition sliceLast {A} (n : nat) (xs : list A) : list A :=
  skipn (length xs - n) xs.

(** ** Text helpers (ASCII) *)

Definition isSpace (c : ascii) : bool :=
  let n := N_of_ascii c in
  ((n =? 32) || ((9 <=? n) && (n <=? 13)))%N.

Fixpoint trimStart (s : string) : string :=
  match s with
  | EmptyString => EmptyString
  | String c r => if isSpace c then trimStart r else s
  end.

Definition reverse (s : string) : string :=
  string_of_list_ascii (rev (list_ascii_of_string s)).

Definition trim (s : string) : string :=
  reverse (trimStart (reverse (trimStart s))).

(** [s.replace(/\n/g, ' ')] *)
Fixpoint replaceNewlines (s : string) : string :=
  match s with
  | EmptyString => EmptyString
  | String c r =>
      String (if (N_of_ascii c =? 10)%N then " "%char else c)
             (replaceNewlines r)
  end.

(** [s.replace(/\s+/g, ' ')]; [inRun] tells that the previous character
    was white space. *)
Fixpoint collapseSpaces (inRun : bool) (s : string) : string :=
  match s with
  | EmptyString => EmptyString
  | String c r =>
      if isSpace c then
        if inRun then collapseSpaces true r
        else String " "%char (collapseSpaces true r)
      else String c (collapseSpaces false r)
  end.

Definition normalizeText (s : string) : string :=
  trim (collapseSpaces false (replaceNewlines s)).

Definition extractUserText (c : Content) : string :=
  match c with
  | Text s => normalizeText s
  | Blocks blocks =>
      let textParts :=
        flat_map (fun block =>
                    if String.eqb (block_type block) "text"
                       && truthyNStr (block_text block)
                    then [orDefault (block_text block) EmptyString] else [])
                 blocks in
      normalizeText (String.concat " " textParts)
  end.

Definition isUnhelpfulMessage (msg : string) : bool :=
  String.prefix "[Request interrupted" msg
  || String.prefix "[Request cancelled" msg
  || String.eqb msg EmptyString.

Definition extractTarget (toolName : string) (input : nullable ToolInput)
  : nullable string :=
  match input with
  | Val input =>
      if String.eqb toolName "Read" || String.eqb toolName "Write"
         || String.eqb toolName "Edit"
      then coalesce (file_path input) (path input)
      else if String.eqb toolName "Glob" then pattern input
      else if String.eqb toolName "Grep" then pattern input
      else if String.eqb toolName "Bash" then
        match command input with
        | Val cmd =>
            Val (String.substring 0 30 cmd
                 ++ (if (30 <? String.length cmd)%nat
                     then "..." else EmptyString))
        | _ => Val "undefined"
        end
      else Undefined
  | _ => Undefined
  end.

(** ** The pass *)

(** What [parseTranscript] holds while it reads: the two maps, the todo
    array, [result.sessionStart], the qualifying user messages, and how
    many times the wall clock has been read. *)
Record Acc := {
  toolMap : omap ToolEntry;
  agentMap : omap AgentEntry;
  latestTodos : list TodoItem;
  acc_sessionStart : option Date;
  userMessages : list string;
  clockReads : nat;
}.

Definition emptyAcc : Acc :=
  {| toolMap := []; agentMap := []; latestTodos := [];
     acc_sessionStart := None; userMessages := []; clockReads := 0 |}.

Definition withTools (a : Acc) (m : omap ToolEntry) : Acc :=
  {| toolMap := m; agentMap := agentMap a; latestTodos := latestTodos a;
     acc_sessionStart := acc_sessionStart a;
     userMessages := userMessages a; clockReads := clockReads a |}.

Definition withAgents (a : Acc) (m : omap AgentEntry) : Acc :=
  {| toolMap := toolMap a; agentMap := m; latestTodos := latestTodos a;
     acc_sessionStart := acc_sessionStart a;
     userMessages := userMessages a; clockReads := clockReads a |}.

Definition withTodos (a : Acc) (t : list TodoItem) : Acc :=
  {| toolMap := toolMap a; agentMap := agentMap a; latestTodos := t;
     acc_sessionStart := acc_sessionStart a;
     userMessages := userMessages a; clockReads := clockReads a |}.

Definition finishTool (isErr : bool) (ts : Date) (tool : ToolEntry)
  : ToolEntry :=
  {| id := id tool; name := name tool; target := target tool;
     status := if isErr then error else completed;
     startTime := startTime tool;
     endTime := Some ts |}.

Definition finishAgent (ts : Date) (agent : AgentEntry) : AgentEntry :=
  {| agent_id := agent_id agent; agent_type := agent_type agent;
     agent_model := agent_model agent;
     agent_description := agent_description agent;
     agent_status := agent_completed;
     agent_startTime := agent_startTime agent;
     agent_endTime := Some ts |}.

Definition truthyBool (b : nullable bool) : bool :=
  match b with Val true => true | _ => false end.

(** The [tool_use] arm of the loop body. *)
Definition processToolUse (ts : Date) (block : ContentBlock) (a : Acc) : Acc :=
  match block_id block, block_name block with
  | Val bid, Val bname =>
      if String.eqb (block_type block) "tool_use"
         && truthyStr bid && truthyStr bname
      then
        let toolEntry :=
          {| id := bid; name := bname;
             target := extractTarget bname (block_input block);
             status := running; startTime := ts; endTime := None |} in
        if String.eqb bname "Task" then
          let input := block_input block in
          let agentEntry :=
            {| agent_id := bid;
               agent_type := orDefault (chain input subagent_type) "unknown";
               agent_model := coalesce (chain input model) Undefined;
               agent_description :=
                 coalesce (chain input description) Undefined;
               agent_status := agent_running;
               agent_startTime := ts;
               agent_endTime := None |} in
          withAgents a (mapSet bid agentEntry (agentMap a))
        else if String.eqb bname "TodoWrite" then
          match chain (block_input block) todos with
          | Val ts' => withTodos a ts'
          | _ => a
          end
        else withTools a (mapSet bid toolEntry (toolMap a))
      else a
  | _, _ => a
  end.

(** The [tool_result] arm of the loop body. *)
Definition processToolResult (ts : Date) (block : ContentBlock) (a : Acc)
  : Acc :=
  match tool_use_id block with
  | Val tid =>
      if String.eqb (block_type block) "tool_result" && truthyStr tid
      then
        let a1 :=
          withTools a
            (mapUpdate tid (finishTool (truthyBool (is_error block)) ts)
                       (toolMap a)) in
        withAgents a1 (mapUpdate tid (finishAgent ts) (agentMap a1))
      else a
  | _ => a
  end.

Definition processBlock (ts : Date) (a : Acc) (block : ContentBlock) : Acc :=
  processToolResult ts block (processToolUse ts block a).

Section WithEnvironment.
(** [new Date(text)] *)
Variable Date_parse : string -> Date.
(** [new Date()]: the instant returned by the n-th reading of the
    clock during the pass. *)
Variable clock : nat -> Z.
(** [JSON.parse(line) as TranscriptLine]: [None] when it throws; a line
    that parses is taken to have the declared shape. *)
Variable JSON_parse : string -> option TranscriptLine.

Definition processEntry (entry : TranscriptLine) (a : Acc) : Acc :=
  let hasTimestamp := truthyNStr (timestamp entry) in
  let ts :=
    if hasTimestamp then Date_parse (orDefault (timestamp entry) EmptyString)
    else DateOf (clock (clockReads a)) in
  let a1 :=
    {| toolMap := toolMap a; agentMap := agentMap a;
       latestTodos := latestTodos a;
       acc_sessionStart :=
         match acc_sessionStart a with
         | None => if hasTimestamp then Some ts else None
         | Some s => Some s
         end;
       userMessages := userMessages a;
       clockReads := if hasTimestamp then clockReads a
                     else S (clockReads a) |} in
  match chain (message entry) content with
  | Val (Blocks blocks) => fold_left (processBlock ts) blocks a1
  | _ => a1
  end.

Definition truthyContent (c : nullable Content) : bool :=
  match c with
  | Val (Text s) => truthyStr s
  | Val (Blocks _) => true
  | _ => false
  end.

(** Extract user messages *)
Definition collectUserMessage (entry : TranscriptLine) (a : Acc) : Acc :=
  match line_type entry, chain (message entry) content with
  | Val t, Val c =>
      if String.eqb t "user" && truthyContent (Val c) then
        let msgText := extractUserText c in
        if truthyStr msgText && negb (isUnhelpfulMessage msgText) then
          {| toolMap := toolMap a; agentMap := agentMap a;
             latestTodos := latestTodos a;
             acc_sessionStart := acc_sessionStart a;
             userMessages := (userMessages a ++ [msgText])%list;
             clockReads := clockReads a |}
        else a
      else a
  | _, _ => a
  end.

(** One iteration of the [for await] loop. *)
Definition processLine (a : Acc) (line : string) : Acc :=
  if negb (truthyStr (trim line)) then a
  else
    match JSON_parse line with
    | None => a
    | Some entry => collectUserMessage entry (processEntry entry a)
    end.

Definition accumulate (lines : list string) : Acc :=
  fold_left processLine lines emptyAcc.

Definition finish (a : Acc) : TranscriptData :=
  {| tools := sliceLast 20 (mapValues (toolMap a));
     agents := sliceLast 10 (mapValues (agentMap a));
     result_todos := latestTodos a;
     sessionStart := acc_sessionStart a;
     lastUserMessage := last (map Some (userMessages a)) None |}.

(** [file] is [None] when the path does not exist, and otherwise the
    lines the stream delivers. *)
Definition parseTranscript (transcriptPath : string)
           (file : option (list string)) : TranscriptData :=
  match file with
  | Some lines =>
      if truthyStr transcriptPath then finish (accumulate lines)
      else finish emptyAcc
  | None => finish emptyAcc
  end.
End WithEnvironment.

End Transcript.

(* ===================================================================== *)
(** * The cache file under concurrent readers *)
(* ===================================================================== *)

Module CacheFile.
Import Js UsageApi.
Local Open Scope string_scope.

(** One indivisible change of the file system.  [writeFileSync(p, text)]
    opens [p] with flag ['w'], which empties the file, and then writes the
    text; [renameSync] puts its source in place of its target in a single
    step. *)
Inductive FsStep :=
| MakeDir (p : string)
| Truncate (p : string)
| Fill (p : string) (data : UsageData) (timestamp : Z)
| Replace (src dst : string).

Definition stepsOf (op : FsOp) : list FsStep :=
  match op with
  | ExistsSync _ => []
  | MkdirSync p => [MakeDir p]
  | WriteFileSync p data timestamp => [Truncate p; Fill p data timestamp]
  | RenameSync src dst => [Replace src dst]
  end.

Definition Files := string -> CacheSlot.

Definition setFile (fs : Files) (p : string) (c : CacheSlot) : Files :=
  fun q => if String.eqb q p then c else fs q.

Definition applyStep (fs : Files) (s : FsStep) : Files :=
  match s with
  | MakeDir _ => fs
  | Truncate p => setFile fs p Unreadable
  | Fill p data timestamp =>
      setFile fs p (Stored (jsonRoundTrip data) timestamp)
  | Replace src dst => setFile (setFile fs dst (fs src)) src NoFile
  end.

Definition run (fs : Files) (steps : list FsStep) : Files :=
  fold_left applyStep steps fs.

(** What a reader of [p] can find while [steps] run: the content of [p]
    after each step. *)
Fixpoint observe (fs : Files) (steps : list FsStep) (p : string)
  : list CacheSlot :=
  match steps with
  | [] => []
  | s :: rest =>
      let fs' := applyStep fs s in
      fs' p :: observe fs' rest p
  end.

(** The calls replace [p] atomically: every content a reader can find is
    the one from before or the one from after. *)
Definition atomicReplace (fs : Files) (ops : list FsOp) (p : string) : Prop :=
  let steps := flat_map stepsOf ops in
  Forall (fun c => c = fs p \/ c = run fs steps p) (observe fs steps p).

(** The write the specification asks for: the record goes to a temporary
    file, which is then renamed over the cache file. *)
Definition specWriteCacheOps (dirExists : bool) (homeDir_ : string)
           (data : UsageData) (timestamp : Z) : list FsOp :=
  let cachePath := getCachePath homeDir_ in
  let cacheDir := cacheDirOf homeDir_ in
  ([ExistsSync cacheDir]
     ++ (if dirExists then [] else [MkdirSync cacheDir])
     ++ [WriteFileSync (cachePath ++ ".tmp") data timestamp;
         RenameSync (cachePath ++ ".tmp") cachePath])%list.

Definition isDirectWrite (p : string) (op : FsOp) : bool :=
  match op with
  | WriteFileSync q _ _ => String.eqb q p
  | _ => false
  end.

Definition isRename (op : FsOp) : bool :=
  match op with
  | RenameSync _ _ => true
  | _ => false
  end.

End CacheFile.

(* ===================================================================== *)
(** * [src/stdin.ts]: the buffered percentage and the used tokens *)
(* ===================================================================== *)

Module StdinMore.
Import Js Stdin.

Section WithRounding.
Variable fl : Q -> number.
(** The constant of [constants.ts], a file that is not at hand. *)
Variable AUTOCOMPACT_BUFFER_PERCENT : number.

Definition getUsedTokens (stdin : StdinData) : number :=
  let size :=
    orDefault (chain (context_window stdin) context_window_size)
              (ofZ 200000) in
  let usedPct := chain (context_window stdin) used_percentage in
  match usedPct with
  | Val p => Math_floor (div fl (mul fl size p) (ofZ 100))
  | _ => getTotalTokens fl stdin
  end.

Definition getBufferedPercent (stdin : StdinData) : number :=
  let size := chain (context_window stdin) context_window_size in
  match size with
  | Val sz =>
      if negb (truthy sz) || le sz (ofZ 0) then ofZ 0
      else
        let totalTokens := getTotalTokens fl stdin in
        let buffer := mul fl sz AUTOCOMPACT_BUFFER_PERCENT in
        Math_min (ofZ 100)
                 (Math_round
                    (mul fl (div fl (add fl totalTokens buffer) sz)
                         (ofZ 100)))
  | _ => ofZ 0
  end.
End WithRounding.

End StdinMore.

(* ===================================================================== *)
(** * What the renderers read of the usage data and the transcript *)
(* ===================================================================== *)

Module Render.
Import Js UsageApi.
Local Open Scope string_scope.
Local Open Scope Z_scope.

(** ** [src/types.ts] *)

(** [x === 100] *)
Definition is100 (x : option number) : bool :=
  match x with
  | Some (Fin q) => Qeq_bool q (inject_Z 100)
  | _ => false
  end.

(** Check if usage limit is reached (either window at 100%) *)
Definition isLimitReached (data : UsageData) : bool :=
  is100 (fiveHour data) || is100 (sevenDay data).

(** Check if a specific model quota is exhausted *)
Definition isModelQuotaExhausted (data : UsageData) (modelId_ : string)
  : bool :=
  match modelQuotas data with
  | Some quotas =>
      match find (fun q => String.eqb (modelId q) modelId_) quotas with
      | Some quota => is100 (mq_utilization quota)
      | None => false
      end
  | None => false
  end.

(** [q.utilization ?? 0] *)
Definition utilizationOr0 (q : ModelQuota) : number :=
  match mq_utilization q with
  | Some n => n
  | None => ofZ 0
  end.

(** Get the most restrictive model quota *)
Definition getMostRestrictiveQuota (data : UsageData) : option ModelQuota :=
  match modelQuotas data with
  | Some (first :: rest) =>
      Some (fold_left
              (fun max q =>
                 if lt (utilizationOr0 max) (utilizationOr0 q) then q else max)
              rest first)
  | _ => None
  end.

(** ** [src/render/session-line.ts]: the reset times *)

(** [now] is what [new Date()] reads. *)
Definition formatResetTime (resetAt : option Z) (now_ : Z) : string :=
  match resetAt with
  | None => EmptyString
  | Some r =>
      let diffMs := r - now_ in
      if diffMs <=? 0 then EmptyString
      else
        (* Math.ceil(diffMs / 60000) on a positive integral count *)
        let diffMins := (diffMs + 59999) / 60000 in
        if diffMins <? 60 then showZ diffMins ++ "m"
        else
          let hours := diffMins / 60 in
          let mins := diffMins mod 60 in
          if 24 <=? hours then
            let days := hours / 24 in
            let remainingHours := hours mod 24 in
            if 0 <? remainingHours
            then showZ days ++ "d " ++ showZ remainingHours ++ "h"
            else showZ days ++ "d"
          else if 0 <? mins then showZ hours ++ "h " ++ showZ mins ++ "m"
          else showZ hours ++ "h"
  end.

Definition dayNames : list string :=
  ["Sun"; "Mon"; "Tue"; "Wed"; "Thu"; "Fri"; "Sat"].

Section WithLocalTime.
(** [getDay], [getHours] and [getMinutes] of the date at an instant, in
    the local time zone. *)
Variable getDay : Z -> Z.
Variable getHours : Z -> Z.
Variable getMinutes : Z -> Z.

(** [hours % 12], then [hours ? hours : 12] *)
Definition twelveHour (hours : Z) : Z :=
  let h := Z.rem hours 12 in
  if h =? 0 then 12 else h.

Definition minsStr (mins : Z) : string :=
  if mins <? 10 then "0" ++ showZ mins else showZ mins.

Definition ampm (hours : Z) : string :=
  if 12 <=? hours then "PM" else "AM".

(** Format reset time as just time: "2:30 PM" *)
Definition formatResetTimeOnly (resetAt : option Z) (now_ : Z) : string :=
  match resetAt with
  | None => EmptyString
  | Some r =>
      if r <=? now_ then EmptyString
      else
        let hours := getHours r in
        let mins := getMinutes r in
        showZ (twelveHour hours) ++ ":" ++ minsStr mins ++ " " ++ ampm hours
  end.

(** Format reset time as readable date/time: "Resets Fri 12:29 PM" *)
Definition formatResetDateTime (resetAt : option Z) (now_ : Z) : string :=
  match resetAt with
  | None => EmptyString
  | Some r =>
      if r <=? now_ then EmptyString
      else
        let d := getDay r in
        let dayName :=
          if (0 <=? d) && (d <? 7)
          then nth (Z.to_nat d) dayNames "undefined"
          else "undefined" in
        let hours := getHours r in
        let mins := getMinutes r in
        "Resets " ++ dayName ++ " " ++ showZ (twelveHour hours) ++ ":"
          ++ minsStr mins ++ " " ++ ampm hours
  end.
End WithLocalTime.

(** ** [src/render/last-message-line.ts] *)

Section WithColors.
(** [dim] of [colors.ts], a file that is not at hand. *)
Variable dim : string -> string.
(** The speech-balloon sign the line starts with. *)
Variable balloon : string.

Definition renderLastMessageLine (transcript : Transcript.TranscriptData)
  : option string :=
  match Transcript.lastUserMessage transcript with
  | None => None
  | Some msg =>
      if negb (truthyStr msg) then None
      else
        let maxLen := 80%nat in
        let displayMsg :=
          if (maxLen <? String.length msg)%nat
          then String.substring 0 (maxLen - 3) msg ++ "..."
          else msg in
        Some (dim balloon ++ " " ++ dim displayMsg)
  end.
End WithColors.

End Render.

(* ===================================================================== *)
(** * [src/config.ts] *)
(* ===================================================================== *)

Module Config.
Import Js.
Local Open Scope string_scope.

(** What [JSON.parse] returns.  An object is its own keys with their
    values, each key once. *)
#[warnings="-register-all"]
Inductive Json :=
| JNull
| JBool (b : bool)
| JNum (n : number)
| JStr (s : string)
| JArr (items : list Json)
| JObj (fields : list (string * Json)).

Fixpoint lookup (k : string) (fields : list (string * Json)) : option Json :=
  match fields with
  | [] => None
  | (k', v) :: rest => if String.eqb k k' then Some v else lookup k rest
  end.

(** [v.k] on a value that is not null, for a key that no prototype
    defines; [None] is [undefined]. *)
Definition prop (v : Json) (k : string) : option Json :=
  match v with
  | JObj fields => lookup k fields
  | _ => None
  end.

(** [v?.k] *)
Definition propOpt (v : option Json) (k : string) : option Json :=
  match v with
  | None | Some JNull => None
  | Some v => prop v k
  end.

Record GitStatusConfig := {
  enabled : bool;
  showDirty : bool;
  showAheadBehind : bool;
  showFileStats : bool;
}.

Record DisplayConfig := {
  showModel : bool;
  showContextBar : bool;
  showConfigCounts : bool;
  showDuration : bool;
  showTokenBreakdown : bool;
  showUsage : bool;
  showTools : bool;
  showAgents : bool;
  showTodos : bool;
  showLastMessage : bool;
  showSpeed : bool;
  contextValue : string;
  usageBarEnabled : bool;
  usageThreshold : number;
  sevenDayThreshold : number;
  environmentThreshold : number;
  autocompactBuffer : string;
}.

Record HudConfig := {
  layout : string;
  pathLevels : number;
  colorTheme : string;
  gitStatus : GitStatusConfig;
  display : DisplayConfig;
}.

Definition DEFAULT_CONFIG : HudConfig :=
  {| layout := "default";
     pathLevels := ofZ 1;
     colorTheme := "blue";
     gitStatus :=
       {| enabled := true; showDirty := true; showAheadBehind := false;
          showFileStats := false |};
     display :=
       {| showModel := true; showContextBar := true;
          showConfigCounts := true; showDuration := true;
          showTokenBreakdown := true; showUsage := true; showTools := true;
          showAgents := true; showTodos := true; showLastMessage := false;
          showSpeed := false; contextValue := "percent";
          usageBarEnabled := true; usageThreshold := ofZ 0;
          sevenDayThreshold := ofZ 80; environmentThreshold := ofZ 0;
          autocompactBuffer := "enabled" |} |}.

(** [value === n] for a whole number [n] *)
Definition isNumber (value : option Json) (n : Z) : bool :=
  match value with
  | Some (JNum (Fin q)) => Qeq_bool q (inject_Z n)
  | _ => false
  end.

(** [value === s] *)
Definition isString (value : option Json) (s : string) : bool :=
  match value with
  | Some (JStr s') => String.eqb s' s
  | _ => false
  end.

Definition validatePathLevels (value : option Json) : bool :=
  isNumber value 1 || isNumber value 2 || isNumber value 3.

Definition validateLayout (value : option Json) : bool :=
  isString value "default" || isString value "separators".

Definition validateAutocompactBuffer (value : option Json) : bool :=
  isString value "enabled" || isString value "disabled".

Definition colorThemes : list string :=
  ["gray"; "orange"; "blue"; "teal"; "green"; "lavender"; "rose"; "gold";
   "slate"; "cyan"].

Definition validateColorTheme (value : option Json) : bool :=
  match value with
  | Some (JStr s) => existsb (String.eqb s) colorThemes
  | _ => false
  end.

(** A value that passed its check, at its type. *)
Definition theString (value : option Json) (d : string) : string :=
  match value with Some (JStr s) => s | _ => d end.

Definition theNumber (value : option Json) (d : number) : number :=
  match value with Some (JNum n) => n | _ => d end.

(** [typeof value === 'boolean' ? value : d] *)
Definition booleanOr (value : option Json) (d : bool) : bool :=
  match value with Some (JBool b) => b | _ => d end.

(** [typeof value === 'number' ? value : d] *)
Definition numberOr (value : option Json) (d : number) : number :=
  match value with Some (JNum n) => n | _ => d end.

(** [None]: the [TypeError] of a property read on [null]. *)
Definition mergeConfig (userConfig : Json) : option HudConfig :=
  match userConfig with
  | JNull => None
  | _ =>
      let layout_ :=
        if validateLayout (prop userConfig "layout")
        then theString (prop userConfig "layout") (layout DEFAULT_CONFIG)
        else layout DEFAULT_CONFIG in
      let pathLevels_ :=
        if validatePathLevels (prop userConfig "pathLevels")
        then theNumber (prop userConfig "pathLevels")
                       (pathLevels DEFAULT_CONFIG)
        else pathLevels DEFAULT_CONFIG in
      let colorTheme_ :=
        if validateColorTheme (prop userConfig "colorTheme")
        then theString (prop userConfig "colorTheme")
                       (colorTheme DEFAULT_CONFIG)
        else colorTheme DEFAULT_CONFIG in
      let git := prop userConfig "gitStatus" in
      let dgit := gitStatus DEFAULT_CONFIG in
      let gitStatus_ :=
        {| enabled := booleanOr (propOpt git "enabled") (enabled dgit);
           showDirty := booleanOr (propOpt git "showDirty") (showDirty dgit);
           showAheadBehind :=
             booleanOr (propOpt git "showAheadBehind") (showAheadBehind dgit);
           showFileStats :=
             booleanOr (propOpt git "showFileStats") (showFileStats dgit) |} in
      let disp := prop userConfig "display" in
      let ddisp := display DEFAULT_CONFIG in
      let display_ :=
        {| showModel := booleanOr (propOpt disp "showModel") (showModel ddisp);
           showContextBar :=
             booleanOr (propOpt disp "showContextBar") (showContextBar ddisp);
           showConfigCounts :=
             booleanOr (propOpt disp "showConfigCounts")
                       (showConfigCounts ddisp);
           showDuration :=
             booleanOr (propOpt disp "showDuration") (showDuration ddisp);
           showTokenBreakdown :=
             booleanOr (propOpt disp "showTokenBreakdown")
                       (showTokenBreakdown ddisp);
           showUsage := booleanOr (propOpt disp "showUsage") (showUsage ddisp);
           showTools := booleanOr (propOpt disp "showTools") (showTools ddisp);
           showAgents :=
             booleanOr (propOpt disp "showAgents") (showAgents ddisp);
           showTodos := booleanOr (propOpt disp "showTodos") (showTodos ddisp);
           showLastMessage :=
             booleanOr (propOpt disp "showLastMessage")
                       (showLastMessage ddisp);
           showSpeed := booleanOr (propOpt disp "showSpeed") (showSpeed ddisp);
           contextValue :=
             if isString (propOpt disp "contextValue") "tokens"
             then "tokens" else contextValue ddisp;
           usageBarEnabled :=
             booleanOr (propOpt disp "usageBarEnabled")
                       (usageBarEnabled ddisp);
           usageThreshold :=
             numberOr (propOpt disp "usageThreshold") (usageThreshold ddisp);
           sevenDayThreshold :=
             numberOr (propOpt disp "sevenDayThreshold")
                      (sevenDayThreshold ddisp);
           environmentThreshold :=
             numberOr (propOpt disp "environmentThreshold")
                      (environmentThreshold ddisp);
           autocompactBuffer :=
             if validateAutocompactBuffer (propOpt disp "autocompactBuffer")
             then theString (propOpt disp "autocompactBuffer")
                            (autocompactBuffer ddisp)
             else autocompactBuffer ddisp |} in
      Some {| layout := layout_; pathLevels := pathLevels_;
              colorTheme := colorTheme_; gitStatus := gitStatus_;
              display := display_ |}
  end.

(** The file at the config path: not there, there but not readable as
    text, or its text. *)
Inductive ConfigFile :=
| Missing
| Unreadable
| Content (text : string).

Section WithParser.
(** [JSON.parse]: [None] when it throws. *)
Variable JSON_parse : string -> option Json.

Definition loadConfig (file : ConfigFile) : HudConfig :=
  match file with
  | Missing => DEFAULT_CONFIG
  | Unreadable => DEFAULT_CONFIG
  | Content content =>
      match JSON_parse content with
      | None => DEFAULT_CONFIG
      | Some userConfig =>
          match mergeConfig userConfig with
          | Some config => config
          | None => DEFAULT_CONFIG
          end
      end
  end.
End WithParser.

End Config.

(* ===================================================================== *)
(** * Properties of [getContextPercent] *)
(* ===================================================================== *)

Module StdinFacts.
Import Js Stdin.

(** Exact arithmetic, for running the function on examples. *)
Definition exact : Q -> number := Fin.

Example percent_42 :
  getContextPercent exact
    (payload (Val (ofZ 200000)) (Val (ofZ 42))
             (tokens (ofZ 150000) (ofZ 0) (ofZ 0))) = ofZ 42.
Proof. reflexivity. Qed.

Example percent_fraction :
  getContextPercent exact (payload Undefined (Val (Fin (427 # 10))) noUsage)
  = ofZ 42.
Proof. reflexivity. Qed.

Example percent_fallback :
  getContextPercent exact
    (payload (Val (ofZ 200000)) Undefined
             (tokens (ofZ 50000) (ofZ 1000) (ofZ 2000))) = ofZ 26.
Proof. reflexivity. Qed.

Example percent_fallback_capped :
  getContextPercent exact
    (payload (Val (ofZ 1000)) Null (tokens (ofZ 5000) (ofZ 0) (ofZ 0)))
  = ofZ 100.
Proof. reflexivity. Qed.

Example percent_fallback_negative :
  getContextPercent exact
    (payload (Val (ofZ 1000)) Null (tokens (ofZ (-50)) (ofZ 0) (ofZ 0)))
  = ofZ (-5).
Proof. reflexivity. Qed.

Example percent_zero_size :
  getContextPercent exact
    (payload (Val (ofZ 0)) Undefined (tokens (ofZ 5000) (ofZ 0) (ofZ 0)))
  = ofZ 0.
Proof. reflexivity. Qed.

Lemma Qle_bool_inject (a b : Z) :
  Qle_bool (inject_Z a) (inject_Z b) = (a <=? b)%Z.
Proof.
  unfold Qle_bool, inject_Z; simpl. now rewrite !Z.mul_1_r.
Qed.

Lemma min_ofZ (a b : Z) : Math_min (ofZ a) (ofZ b) = ofZ (Z.min a b).
Proof.
  unfold Math_min, ofZ. rewrite Qle_bool_inject.
  destruct (Z.leb_spec a b).
  - now rewrite Z.min_l by lia.
  - now rewrite Z.min_r by lia.
Qed.

Lemma le_refl_ofZ (z : Z) : le (ofZ z) (ofZ z) = true.
Proof. unfold le, ofZ. rewrite Qle_bool_inject. apply Z.leb_refl. Qed.

(** A value that went through [Math.min(100, .)] is [NaN] or at most
    100. *)
Lemma min_100_capped (x : number) :
  x <> NaN -> le (Math_min (ofZ 100) x) (ofZ 100) = true.
Proof.
  intros Hx. destruct x as [| | |q]; try congruence; try reflexivity.
  unfold Math_min, ofZ.
  destruct (Qle_bool (inject_Z 100) q) eqn:E.
  - apply le_refl_ofZ.
  - unfold le. apply Qle_bool_iff.
    destruct (Qlt_le_dec q (inject_Z 100)) as [Hlt | Hle].
    + now apply Qlt_le_weak.
    + apply Qle_bool_iff in Hle. congruence.
Qed.

Lemma min_100_cap_or_nan (x : number) :
  Math_min (ofZ 100) x = NaN \/ le (Math_min (ofZ 100) x) (ofZ 100) = true.
Proof.
  destruct x as [| | |q]; [left; reflexivity | right ..];
    apply min_100_capped; discriminate.
Qed.

Lemma min_100_nan (x : number) : Math_min (ofZ 100) x = NaN -> x = NaN.
Proof.
  destruct x as [| | |q]; unfold Math_min, ofZ; try congruence.
  destruct (Qle_bool (inject_Z 100) q); congruence.
Qed.

Lemma floor_nan (x : number) : Math_floor x = NaN -> x = NaN.
Proof. destruct x; simpl; unfold ofZ; congruence. Qed.

(** [context_window_size] is zero or missing *)
Definition sizeZeroOrMissing (size : nullable number) : bool :=
  match size with
  | Val (Fin q) => Qeq_bool q 0
  | Val _ => false
  | _ => true
  end.

(** The value whose cap the fallback branch takes. *)
Definition tokenRatio (fl : Q -> number) (stdin : StdinData) (sz : number)
  : number :=
  mul fl (div fl (getTotalTokens fl stdin) sz) (ofZ 100).

(** C6.  When [context_window.used_percentage] is present, the result is
    that percentage floored and capped at 100, whatever the window size
    and the token counts are (42 gives 42); when it is absent and the
    window size is zero or missing, the result is 0. *)
Theorem getContextPercent_used_percentage_first (fl : Q -> number) :
  (forall size p u,
      getContextPercent fl (payload size (Val p) u)
      = Math_min (ofZ 100) (Math_floor p))
  /\ (forall size q u,
         getContextPercent fl (payload size (Val (Fin q)) u)
         = ofZ (Z.min 100 (Qfloor q)))
  /\ (forall size u,
         getContextPercent fl (payload size (Val (ofZ 42)) u) = ofZ 42)
  /\ (forall size size' p u u',
         getContextPercent fl (payload size (Val p) u)
         = getContextPercent fl (payload size' (Val p) u'))
  /\ (forall size pct u,
         nullish pct = true -> sizeZeroOrMissing size = true ->
         getContextPercent fl (payload size pct u) = ofZ 0)
  /\ getContextPercent fl {| context_window := Undefined |} = ofZ 0
  /\ getContextPercent fl {| context_window := Null |} = ofZ 0.
Proof.
  repeat split; try reflexivity.
  - intros size q u. cbn. apply min_ofZ.
  - intros size pct u Hp Hs. unfold getContextPercent, payload; cbn.
    destruct pct as [| |p]; try discriminate.
    all: destruct size as [| |sz]; try reflexivity.
    all: destruct sz as [| | |q]; try discriminate; cbn in Hs |- *.
    all: now rewrite Hs.
Qed.

Lemma getContextPercent_used_percentage_first_witness :
  nullish (@Undefined number) = true
  /\ sizeZeroOrMissing (Val (ofZ 0)) = true
  /\ getContextPercent exact
       (payload (Val (ofZ 0)) Undefined (tokens (ofZ 7) (ofZ 0) (ofZ 0)))
     = ofZ 0.
Proof.
  split; [reflexivity | split; [reflexivity |]].
  apply (getContextPercent_used_percentage_first exact); reflexivity.
Defined.

(** Every numeric field that is present is finite. *)
Definition finiteField (x : nullable number) : bool :=
  match x with Val n => isFinite n | _ => true end.

Definition finiteUsage (u : nullable CurrentUsage) : bool :=
  match u with
  | Val u =>
      finiteField (input_tokens u)
      && finiteField (cache_creation_input_tokens u)
      && finiteField (cache_read_input_tokens u)
  | _ => true
  end.

Definition finitePayload (stdin : StdinData) : bool :=
  match context_window stdin with
  | Val cw =>
      finiteField (context_window_size cw)
      && finiteField (used_percentage cw)
      && finiteUsage (current_usage cw)
  | _ => true
  end.

Section FinitePayloads.
Variable fl : Q -> number.
Hypothesis fl_number : forall q, fl q <> NaN.

Lemma orDefault_finite (x : nullable number) :
  finiteField x = true -> exists q, orDefault x (ofZ 0) = Fin q.
Proof.
  destruct x as [| |[| | |q]]; cbn; intros H; try discriminate;
    eexists; reflexivity.
Qed.

Lemma add_finite (a : number) (q : Q) : a <> NaN -> add fl a (Fin q) <> NaN.
Proof.
  destruct a as [| | |p]; cbn; intros H;
    first [apply fl_number | congruence].
Qed.

Lemma div_positive (a : number) (q : Q) :
  a <> NaN -> truthy (Fin q) = true -> div fl a (Fin q) <> NaN.
Proof.
  destruct a as [| | |p]; cbn; intros H Hq.
  - congruence.
  - destruct (signOf q); discriminate.
  - destruct (signOf q); discriminate.
  - apply negb_true_iff in Hq. rewrite Hq. apply fl_number.
Qed.

Lemma times_100 (a : number) : a <> NaN -> mul fl a (ofZ 100) <> NaN.
Proof.
  destruct a as [| | |p]; cbn; intros H;
    first [apply fl_number | congruence].
Qed.

Lemma floor_number (a : number) : a <> NaN -> Math_floor a <> NaN.
Proof. intros H E. apply H. now apply floor_nan. Qed.

Lemma getTotalTokens_number (stdin : StdinData) :
  finitePayload stdin = true -> getTotalTokens fl stdin <> NaN.
Proof.
  unfold finitePayload, getTotalTokens. intros H.
  assert (Hf : finiteField
                 (chain (chain (context_window stdin) current_usage)
                        input_tokens) = true
               /\ finiteField
                    (chain (chain (context_window stdin) current_usage)
                           cache_creation_input_tokens) = true
               /\ finiteField
                    (chain (chain (context_window stdin) current_usage)
                           cache_read_input_tokens) = true).
  { destruct (context_window stdin) as [| |cw]; cbn; auto.
    apply andb_prop in H as [_ H].
    destruct (current_usage cw) as [| |u]; cbn in *; auto.
    apply andb_prop in H as [H H3]. apply andb_prop in H as [H1 H2]. auto. }
  destruct Hf as (H1 & H2 & H3).
  destruct (orDefault_finite _ H1) as (q1 & ->).
  destruct (orDefault_finite _ H2) as (q2 & ->).
  destruct (orDefault_finite _ H3) as (q3 & ->).
  apply add_finite. cbn. apply fl_number.
Qed.

Lemma finite_payload_capped (stdin : StdinData) :
  finitePayload stdin = true ->
  le (getContextPercent fl stdin) (ofZ 100) = true.
Proof.
  intros H. pose proof (getTotalTokens_number stdin H) as Htot.
  unfold getContextPercent.
  assert (Hp : finiteField (chain (context_window stdin) used_percentage)
               = true).
  { unfold finitePayload in H.
    destruct (context_window stdin) as [| |cw]; cbn; auto.
    apply andb_prop in H as [H _]. now apply andb_prop in H as [_ H]. }
  assert (Hs : finiteField (chain (context_window stdin) context_window_size)
               = true).
  { unfold finitePayload in H.
    destruct (context_window stdin) as [| |cw]; cbn; auto.
    apply andb_prop in H as [H _]. now apply andb_prop in H as [H _]. }
  destruct (chain (context_window stdin) used_percentage) as [| |p].
  3: { destruct p; try discriminate. apply min_100_capped. discriminate. }
  all: destruct (chain (context_window stdin) context_window_size)
    as [| |sz]; try reflexivity.
  all: destruct sz as [| | |q]; try discriminate.
  all: destruct (truthy (Fin q)) eqn:Hq; [| reflexivity]; cbn [negb orb].
  all: destruct (le (Fin q) (ofZ 0)); [reflexivity |].
  all: apply min_100_capped, floor_number, times_100, div_positive;
    assumption.
Qed.
End FinitePayloads.

(** C10, as the code has it.  The result is [NaN] or at most 100: both
    branches end in [Math.min(100, .)].  It is [NaN] only when
    [used_percentage] is [NaN] or, in the fallback, when the token ratio
    is; a payload whose numeric fields are all finite never gives [NaN],
    so its result is at most 100.  There is no lower clamp: a negative
    [used_percentage] comes back floored and negative. *)
Theorem getContextPercent_capped_unless_nan (fl : Q -> number) :
  (forall stdin,
      getContextPercent fl stdin = NaN
      \/ le (getContextPercent fl stdin) (ofZ 100) = true)
  /\ (forall size p u,
         getContextPercent fl (payload size (Val p) u) = NaN <-> p = NaN)
  /\ (forall size pct u,
         nullish pct = true ->
         getContextPercent fl (payload size pct u) = NaN ->
         exists sz,
           size = Val sz /\ tokenRatio fl (payload size pct u) sz = NaN)
  /\ (forall size u,
         getContextPercent fl (payload size (Val (ofZ (-5))) u) = ofZ (-5))
  /\ ((forall q, fl q <> NaN) ->
      forall stdin,
        finitePayload stdin = true ->
        le (getContextPercent fl stdin) (ofZ 100) = true).
Proof.
  split; [| split; [| split; [| split]]].
  5: { intros Hfl stdin. now apply finite_payload_capped. }
  - intros stdin. unfold getContextPercent.
    destruct (chain (context_window stdin) used_percentage) as [| |p].
    3: apply min_100_cap_or_nan.
    all: destruct (chain (context_window stdin) context_window_size)
      as [| |sz]; try (right; reflexivity).
    all: destruct (negb (truthy sz) || le sz (ofZ 0));
      [right; reflexivity | apply min_100_cap_or_nan].
  - intros size p u. cbn. split.
    + intros H. now apply floor_nan, min_100_nan.
    + now intros ->.
  - intros size pct u Hp. unfold getContextPercent, tokenRatio.
    destruct pct as [| |p]; try discriminate; cbn.
    all: destruct size as [| |sz]; try (unfold ofZ; discriminate).
    all: destruct (negb (truthy sz) || le sz (ofZ 0));
      [unfold ofZ; discriminate |].
    all: intros H; exists sz; split; [reflexivity |].
    all: now apply floor_nan, min_100_nan.
  - intros size u. reflexivity.
Qed.

Lemma getContextPercent_capped_unless_nan_witness :
  (nullish (@Undefined number) = true
   /\ getContextPercent exact
        (payload (Val PosInf) Undefined (tokens PosInf (ofZ 0) (ofZ 0))) = NaN
   /\ exists sz,
       Val PosInf = Val sz
       /\ tokenRatio exact
            (payload (Val PosInf) Undefined (tokens PosInf (ofZ 0) (ofZ 0))) sz
          = NaN)
  /\ (finitePayload
        (payload (Val (ofZ 1000)) Null (tokens (ofZ 5000) (ofZ 0) (ofZ 0)))
      = true
      /\ le (getContextPercent exact
               (payload (Val (ofZ 1000)) Null
                        (tokens (ofZ 5000) (ofZ 0) (ofZ 0))))
            (ofZ 100) = true).
Proof.
  split.
  - split; [reflexivity | split; [reflexivity |]].
    apply (proj1 (proj2 (proj2 (getContextPercent_capped_unless_nan exact))));
      reflexivity.
  - split; [reflexivity |].
    apply (proj2 (proj2 (proj2 (proj2
             (getContextPercent_capped_unless_nan exact))))).
    + intros q. discriminate.
    + reflexivity.
Defined.

(** C10 as stated fails: a payload whose window size and input token
    count both read as [Infinity] (JSON [1e999]) takes the fallback
    branch, where [Infinity / Infinity] is [NaN]; [Math.min(100, NaN)] is
    [NaN], which is not at most 100. *)
Lemma getContextPercent_not_always_capped :
  getContextPercent exact
    (payload (Val PosInf) Undefined (tokens PosInf (ofZ 0) (ofZ 0))) = NaN
  /\ le (getContextPercent exact
           (payload (Val PosInf) Undefined (tokens PosInf (ofZ 0) (ofZ 0))))
        (ofZ 100) = false
  /\ ~ (forall fl stdin, le (getContextPercent fl stdin) (ofZ 100) = true).
Proof.
  split; [reflexivity | split; [reflexivity |]].
  intros H.
  specialize (H exact
    (payload (Val PosInf) Undefined (tokens PosInf (ofZ 0) (ofZ 0)))).
  discriminate H.
Qed.

End StdinFacts.

(* ===================================================================== *)
(** * Properties of the usage fetcher *)
(* ===================================================================== *)

Module UsageFacts.
Import Js UsageApi.
Local Open Scope string_scope.
Local Open Scope Z_scope.

(** ** A concrete world to run [getUsage] in *)

Definition isoToy (s : string) : option Z :=
  if String.eqb s "1970-01-01T05:00:00.000Z" then Some 18000000
  else if String.eqb s "1970-01-08T00:00:00.000Z" then Some 604800000
  else None.

Definition creds (exp : nullable Z) : CredentialData :=
  {| claudeAiOauth :=
       Val {| accessToken := Val "tok";
              subscriptionType := Val "claude_max";
              rateLimitTier := Val "default_claude_max_20x";
              expiresAt := exp |};
     oauthAccount := Val {| acc_organizationUuid := Val "org-1" |} |}.

Definition legacy : ApiResponse :=
  {| five_hour := Val {| utilization := Val (ofZ 150);
                         resets_at := Val "1970-01-01T05:00:00.000Z" |};
     seven_day := Null;
     model_quotas := Undefined;
     max_plan_type := Undefined;
     compaction_buffer := Undefined;
     tokens_per_window := Undefined |}.

Definition enhanced : ApiResponse :=
  {| five_hour := Val {| utilization := Val (ofZ 10); resets_at := Null |};
     seven_day := Val {| utilization := Val (Fin (-5 # 2));
                         resets_at := Val "1970-01-08T00:00:00.000Z" |};
     model_quotas :=
       Val [ {| model_id := Val "opus"; display_name := Undefined;
                weekly_hours_used := Val (ofZ 3);
                weekly_hours_limit := Val PosInf;
                tokens_used := Undefined; tokens_limit := Null;
                q_utilization := Val (Fin (995 # 10));
                q_resets_at := Val "garbage" |} ];
     max_plan_type := Val "Max5";
     compaction_buffer := Val (ofZ 30);
     tokens_per_window := Undefined |}.

Definition world0 : World :=
  {| cacheSlot := NoFile; cacheDirExists := false; writeFailure := NoFailure;
     credentialsFile := Some (creds (Val 5000000)); keychain := None;
     fetchLog := []; fsLog := [] |}.

(** Both endpoints answer. *)
Definition deps (t : Z) : Deps :=
  {| homeDir := "/home/u"; now := t;
     fetchApi := fun _ _ => Resolves (Some legacy);
     fetchUsageLimits := fun _ _ => Resolves (Some enhanced) |}.

(** Both endpoints are down. *)
Definition depsDown (t : Z) : Deps :=
  {| homeDir := "/home/u"; now := t;
     fetchApi := fun _ _ => Resolves None;
     fetchUsageLimits := fun _ _ => Resolves None |}.

Definition theCredentials : Credentials :=
  {| cred_accessToken := "tok";
     cred_subscriptionType := "claude_max";
     cred_organizationUuid := Val "org-1";
     cred_rateLimitTier := Val "default_claude_max_20x" |}.

Example countdown_hours : formatTimeToReset 18000000 1000 = "5h".
Proof. reflexivity. Qed.

Example countdown_minutes : formatTimeToReset 120001 0 = "3m".
Proof. reflexivity. Qed.

Example countdown_days : formatTimeToReset 700000000 0 = "8d 2h".
Proof. reflexivity. Qed.

Example plan_default : getPlanName EmptyString true = Some "Pro".
Proof. reflexivity. Qed.

Example plan_api : getPlanName "API_key" true = None.
Proof. reflexivity. Qed.

Example plan_unknown : getPlanName "enterprise" true = Some "Enterprise".
Proof. reflexivity. Qed.

Example fresh_fetch_parses :
  let r := fst (getUsage isoToy (deps 1000) world0) in
  option_map fiveHour r = Some (Some (ofZ 100))
  /\ option_map sevenDay r = Some (Some (ofZ 0))
  /\ option_map fiveHourResetIn r = Some (Some "5h")
  /\ option_map apiUnavailable r = Some false.
Proof. repeat split. Qed.

Example both_down_is_failure :
  fst (getUsage isoToy (depsDown 1000) world0) = Some (failureResult "Max").
Proof. reflexivity. Qed.

(** ** Merging the two responses *)

(** The legacy value when it is present, else the enhanced one. *)
Definition legacyElse {A} (legacyV enhancedV : nullable A) : nullable A :=
  if nullish legacyV then enhancedV else legacyV.

Lemma coalesce_legacyElse {A} (x y : nullable A) :
  coalesce x y = legacyElse x y.
Proof. now destruct x. Qed.

(** The conditions under which [getUsage] goes to the network at clock
    value [t]: nothing valid in the cache, credentials that resolve, and a
    plan name. *)
Definition goesToNetwork (w : World) (t : Z) (cred : Credentials)
           (plan : string) : Prop :=
  readCache w t = None
  /\ readCredentials w t = Some cred
  /\ getPlanName (cred_subscriptionType cred) true = Some plan
  /\ truthyStr plan = true.

Lemma getUsage_network Date_parse deps_ w cred plan :
  goesToNetwork w (now deps_) cred plan ->
  getUsage Date_parse deps_ w =
  let tok := cred_accessToken cred in
  let org := cred_organizationUuid cred in
  let w1 := logFetch w [CallFetchApi tok org; CallFetchUsageLimits tok org] in
  match fetchApi deps_ tok org, fetchUsageLimits deps_ tok org with
  | Resolves a, Resolves b =>
      match mergeApiResponses a b with
      | None =>
          (Some (failureResult plan),
           writeCache w1 (homeDir deps_) (failureResult plan) (now deps_))
      | Some m =>
          (Some (parseResponse Date_parse plan cred m (now deps_)),
           writeCache w1 (homeDir deps_)
                      (parseResponse Date_parse plan cred m (now deps_))
                      (now deps_))
      end
  | _, _ => (None, w1)
  end.
Proof.
  intros (Hc & Hr & Hp & Ht). unfold getUsage.
  rewrite Hc, Hr, Hp, Ht. reflexivity.
Qed.

Lemma world0_goesToNetwork t :
  t < 5000000 -> goesToNetwork world0 t theCredentials "Max".
Proof.
  intros Ht. repeat split.
  unfold readCredentials; cbn.
  destruct (Z.leb_spec 5000000 t); [lia | reflexivity].
Qed.

(** C1.  With both responses at hand, each of the six fields of the
    merged response is the legacy endpoint's value when that is present
    and the enhanced endpoint's otherwise; with one response only, the
    merged response is that response; and the merged response is what
    [getUsage] parses. *)
Theorem mergeApiResponses_legacy_first :
  (forall p s,
      exists m,
        mergeApiResponses (Some p) (Some s) = Some m
        /\ five_hour m = legacyElse (five_hour p) (five_hour s)
        /\ seven_day m = legacyElse (seven_day p) (seven_day s)
        /\ model_quotas m = legacyElse (model_quotas p) (model_quotas s)
        /\ max_plan_type m = legacyElse (max_plan_type p) (max_plan_type s)
        /\ compaction_buffer m
           = legacyElse (compaction_buffer p) (compaction_buffer s)
        /\ tokens_per_window m
           = legacyElse (tokens_per_window p) (tokens_per_window s))
  /\ (forall p, mergeApiResponses (Some p) None = Some p)
  /\ (forall s, mergeApiResponses None (Some s) = Some s)
  /\ (forall Date_parse deps_ w cred plan a b m,
         goesToNetwork w (now deps_) cred plan ->
         fetchApi deps_ (cred_accessToken cred) (cred_organizationUuid cred)
         = Resolves a ->
         fetchUsageLimits deps_ (cred_accessToken cred)
                          (cred_organizationUuid cred)
         = Resolves b ->
         mergeApiResponses a b = Some m ->
         fst (getUsage Date_parse deps_ w)
         = Some (parseResponse Date_parse plan cred m (now deps_))).
Proof.
  split; [| split; [| split]]; try reflexivity.
  - intros p s. eexists. split; [reflexivity |]. cbn.
    now rewrite !coalesce_legacyElse.
  - intros Date_parse deps_ w cred plan a b m Hn Ha Hb Hm.
    rewrite (getUsage_network _ _ _ _ _ Hn). cbn zeta.
    now rewrite Ha, Hb, Hm.
Qed.

Lemma mergeApiResponses_legacy_first_witness :
  exists m,
    mergeApiResponses (Some legacy) (Some enhanced) = Some m
    /\ fst (getUsage isoToy (deps 1000) world0)
       = Some (parseResponse isoToy "Max" theCredentials m 1000).
Proof.
  eexists. split; [reflexivity |].
  apply (proj2 (proj2 (proj2 mergeApiResponses_legacy_first)))
    with (deps_ := deps 1000) (a := Some legacy) (b := Some enhanced).
  - apply world0_goesToNetwork. cbn. lia.
  - reflexivity.
  - reflexivity.
  - reflexivity.
Defined.

(** ** Utilization values *)

Lemma parseUtilization_finite (q : Q) :
  parseUtilization (Val (Fin q))
  = Some (ofZ (Z.max 0 (Z.min 100 (Qfloor (q + (1 # 2)))))).
Proof.
  unfold parseUtilization, Math_min, ofZ. cbn [isFinite negb].
  assert (H100 : Qfloor (inject_Z 100 + (1 # 2)) = 100) by reflexivity.
  assert (H0 : Qfloor (0 + (1 # 2)) = 0) by reflexivity.
  destruct (Qle_bool (inject_Z 100) q) eqn:E1.
  - apply Qle_bool_iff in E1.
    change (Math_max (Fin (inject_Z 0)) (Fin (inject_Z 100)))
      with (Fin (inject_Z 100)).
    cbn [Math_round]. unfold ofZ. rewrite H100.
    assert (Qfloor (inject_Z 100 + (1 # 2)) <= Qfloor (q + (1 # 2)))
      by (apply Qfloor_resp_le; lra).
    do 3 f_equal. lia.
  - assert (Hq : (q < inject_Z 100)%Q).
    { destruct (Qlt_le_dec q (inject_Z 100)) as [Hlt | Hle]; [exact Hlt |].
      apply Qle_bool_iff in Hle. congruence. }
    cbn [Math_max].
    destruct (Qle_bool (inject_Z 0) q) eqn:E2; cbn [Math_round]; unfold ofZ.
    + apply Qle_bool_iff in E2.
      assert (Qfloor (0 + (1 # 2)) <= Qfloor (q + (1 # 2)))
        by (apply Qfloor_resp_le; change (inject_Z 0) with 0%Q in E2; lra).
      assert (Qfloor (q + (1 # 2)) <= Qfloor (inject_Z 100 + (1 # 2)))
        by (apply Qfloor_resp_le; lra).
      do 3 f_equal. lia.
    + assert (Hn : (q < 0)%Q).
      { destruct (Qlt_le_dec q 0) as [Hlt | Hle]; [exact Hlt |].
        apply Qle_bool_iff in Hle. change (inject_Z 0) with 0%Q in E2.
        congruence. }
      assert (Qfloor (q + (1 # 2)) <= Qfloor (0 + (1 # 2)))
        by (apply Qfloor_resp_le; lra).
      change (Qfloor (inject_Z 0 + (1 # 2))) with 0.
      do 3 f_equal. lia.
Qed.

(** A stored utilization: [null], or an integer from 0 to 100. *)
Definition utilizationOk (u : option number) : Prop :=
  u = None \/ exists z, 0 <= z <= 100 /\ u = Some (ofZ z).

Definition quotasOk (qs : option (list ModelQuota)) : Prop :=
  match qs with
  | Some l => Forall (fun q => utilizationOk (mq_utilization q)) l
  | None => True
  end.

Definition usageDataOk (d : UsageData) : Prop :=
  utilizationOk (fiveHour d)
  /\ utilizationOk (sevenDay d)
  /\ quotasOk (modelQuotas d).

Definition slotOk (c : CacheSlot) : Prop :=
  match c with
  | Stored d _ => usageDataOk d
  | _ => True
  end.

Definition resultOk (r : option UsageData) : Prop :=
  match r with
  | Some d => usageDataOk d
  | None => True
  end.

Lemma parseUtilization_ok (v : nullable number) :
  utilizationOk (parseUtilization v).
Proof.
  destruct v as [| |[| | |q]]; try (left; reflexivity).
  right. rewrite parseUtilization_finite.
  eexists. split; [| reflexivity]. lia.
Qed.

Lemma jsonNumber_ok (u : option number) :
  utilizationOk u -> jsonNumber u = u.
Proof. intros [-> | (z & _ & ->)]; reflexivity. Qed.

Lemma jsonRoundTrip_ok (d : UsageData) :
  usageDataOk d -> usageDataOk (jsonRoundTrip d).
Proof.
  intros (H5 & H7 & Hq). repeat split; cbn.
  - now rewrite jsonNumber_ok.
  - now rewrite jsonNumber_ok.
  - unfold quotasOk in *. destruct (modelQuotas d) as [l |]; cbn; [| exact I].
    induction Hq as [| q l Hq _ IH]; cbn; constructor; [| exact IH].
    cbn. now rewrite jsonNumber_ok.
Qed.

Lemma refreshCountdowns_ok (d : UsageData) (t : Z) :
  usageDataOk d -> usageDataOk (refreshCountdowns d t).
Proof. intros H. exact H. Qed.

Lemma failureResult_ok (plan : string) : usageDataOk (failureResult plan).
Proof. repeat split; cbn; try (left; reflexivity). Qed.

Lemma parseModelQuotas_ok Date_parse (qs : nullable (list RawQuota)) :
  Forall (fun q => utilizationOk (mq_utilization q))
         (parseModelQuotas Date_parse qs).
Proof.
  destruct qs as [| |l]; cbn; try constructor.
  induction l as [| q l IH]; cbn; constructor; [| exact IH].
  cbn. apply parseUtilization_ok.
Qed.

Lemma parseResponse_ok Date_parse plan cred m t :
  usageDataOk (parseResponse Date_parse plan cred m t).
Proof.
  repeat split; cbn; try apply parseUtilization_ok.
  pose proof (parseModelQuotas_ok Date_parse (model_quotas m)) as H.
  destruct (parseModelQuotas Date_parse (model_quotas m)); [exact I | exact H].
Qed.

Lemma writeCache_ok w h d t :
  slotOk (cacheSlot w) -> usageDataOk d ->
  slotOk (cacheSlot (writeCache w h d t)).
Proof.
  intros Hw Hd. unfold writeCache.
  destruct (writeFailure w), (cacheDirExists w); cbn;
    first [now apply jsonRoundTrip_ok | exact Hw | exact I].
Qed.

Lemma readCache_ok w t d :
  slotOk (cacheSlot w) -> readCache w t = Some d -> usageDataOk d.
Proof.
  unfold readCache. destruct (cacheSlot w) as [| |d' ts]; try discriminate.
  cbn. intros Hd.
  destruct (_ <=? _); [discriminate |]. now intros [= <-].
Qed.

Lemma getUsage_ok Date_parse deps_ w :
  slotOk (cacheSlot w) ->
  resultOk (fst (getUsage Date_parse deps_ w))
  /\ slotOk (cacheSlot (snd (getUsage Date_parse deps_ w))).
Proof.
  intros Hw. unfold getUsage.
  destruct (readCache w (now deps_)) as [d |] eqn:Hc.
  { cbn [fst snd]. split; [| exact Hw].
    apply refreshCountdowns_ok. eapply readCache_ok; eauto. }
  destruct (readCredentials w (now deps_)) as [cred |]; [| now split].
  destruct (getPlanName (cred_subscriptionType cred) true) as [plan |];
    [| now split].
  destruct (negb (truthyStr plan)); [now split |].
  destruct (fetchApi deps_ _ _) as [| a]; [now split |].
  destruct (fetchUsageLimits deps_ _ _) as [| b]; [now split |].
  destruct (mergeApiResponses a b) as [m |]; cbn [fst snd resultOk].
  - split; [apply parseResponse_ok |].
    apply writeCache_ok; [exact Hw | apply parseResponse_ok].
  - split; [apply failureResult_ok |].
    apply writeCache_ok; [exact Hw | apply failureResult_ok].
Qed.

(** C2.  [parseUtilization] gives [null] for an absent, [NaN] or infinite
    input and, for a finite one, the rounded value clamped to an integer
    from 0 to 100 (150 gives 100, -5 gives 0, 0 gives 0 and not [null]);
    so every utilization in a payload that [getUsage] builds is [null] or
    an integer from 0 to 100, and so is every one it returns or leaves in
    the cache, given that the cache held such values before. *)
Theorem parseUtilization_clamps :
  parseUtilization Undefined = None
  /\ parseUtilization Null = None
  /\ parseUtilization (Val NaN) = None
  /\ parseUtilization (Val PosInf) = None
  /\ parseUtilization (Val NegInf) = None
  /\ (forall q,
         parseUtilization (Val (Fin q))
         = Some (ofZ (Z.max 0 (Z.min 100 (Qfloor (q + (1 # 2)))))))
  /\ (forall v, utilizationOk (parseUtilization v))
  /\ parseUtilization (Val (ofZ 150)) = Some (ofZ 100)
  /\ parseUtilization (Val (ofZ (-5))) = Some (ofZ 0)
  /\ parseUtilization (Val (ofZ 0)) = Some (ofZ 0)
  /\ (forall Date_parse plan cred m t,
         usageDataOk (parseResponse Date_parse plan cred m t))
  /\ (forall plan, usageDataOk (failureResult plan))
  /\ (forall Date_parse deps_ w,
         slotOk (cacheSlot w) ->
         resultOk (fst (getUsage Date_parse deps_ w))
         /\ slotOk (cacheSlot (snd (getUsage Date_parse deps_ w)))).
Proof.
  repeat match goal with |- _ /\ _ => split end; try reflexivity.
  - apply parseUtilization_finite.
  - apply parseUtilization_ok.
  - apply parseResponse_ok.
  - apply failureResult_ok.
  - apply getUsage_ok.
Qed.

Lemma parseUtilization_clamps_witness :
  slotOk (cacheSlot world0)
  /\ resultOk (fst (getUsage isoToy (deps 1000) world0))
  /\ slotOk (cacheSlot (snd (getUsage isoToy (deps 1000) world0))).
Proof.
  split; [exact I |].
  apply parseUtilization_clamps. exact I.
Defined.

(** ** The cache and its two lifetimes *)

Definition withCache (w : World) (c : CacheSlot) : World :=
  {| cacheSlot := c;
     cacheDirExists := cacheDirExists w;
     writeFailure := writeFailure w;
     credentialsFile := credentialsFile w;
     keychain := keychain w;
     fetchLog := fetchLog w;
     fsLog := fsLog w |}.

(** The two calls one round trip consists of. *)
Definition roundTrip (cred : Credentials) : list FetchCall :=
  [CallFetchApi (cred_accessToken cred) (cred_organizationUuid cred);
   CallFetchUsageLimits (cred_accessToken cred) (cred_organizationUuid cred)].

Lemma readCache_stored w t d ts :
  cacheSlot w = Stored d ts ->
  readCache w t
  = if t - ts <? (if apiUnavailable d then 15000 else 60000)
    then Some d else None.
Proof.
  intros H. unfold readCache. rewrite H.
  unfold CACHE_FAILURE_TTL_MS, CACHE_TTL_MS.
  destruct (apiUnavailable d).
  - destruct (Z.leb_spec 15000 (t - ts)), (Z.ltb_spec (t - ts) 15000);
      (reflexivity || lia).
  - destruct (Z.leb_spec 60000 (t - ts)), (Z.ltb_spec (t - ts) 60000);
      (reflexivity || lia).
Qed.

Lemma fetchLog_writeCache w h d t :
  fetchLog (writeCache w h d t) = fetchLog w.
Proof.
  unfold writeCache. now destruct (writeFailure w), (cacheDirExists w).
Qed.

Lemma getUsage_network_log Date_parse deps_ w cred plan :
  goesToNetwork w (now deps_) cred plan ->
  fetchLog (snd (getUsage Date_parse deps_ w))
  = (fetchLog w ++ roundTrip cred)%list.
Proof.
  intros Hn. rewrite (getUsage_network _ _ _ _ _ Hn). cbn zeta.
  destruct (fetchApi deps_ _ _) as [| a]; [reflexivity |].
  destruct (fetchUsageLimits deps_ _ _) as [| b]; [reflexivity |].
  destruct (mergeApiResponses a b); cbn [snd];
    now rewrite fetchLog_writeCache.
Qed.

Lemma getUsage_cached Date_parse deps_ w d :
  readCache w (now deps_) = Some d ->
  getUsage Date_parse deps_ w = (Some (refreshCountdowns d (now deps_)), w).
Proof. intros H. unfold getUsage. now rewrite H. Qed.

(** C3.  A stored record is valid exactly while [now - timestamp] is
    below its lifetime: 15 seconds for a payload flagged
    [apiUnavailable], 60 seconds otherwise.  A call that finds a success
    record younger than 60 seconds returns it, with the countdowns
    recomputed, and leaves the world as it was: no fetch function is
    invoked.  A call that finds a failure record of 15 seconds or more
    does not use it and, the credentials resolving, invokes both fetch
    functions. *)
Theorem cache_validity_and_ttl :
  CACHE_FAILURE_TTL_MS = 15000 /\ CACHE_TTL_MS = 60000
  /\ CACHE_FAILURE_TTL_MS < CACHE_TTL_MS
  /\ (forall w t d ts,
         cacheSlot w = Stored d ts ->
         (readCache w t = Some d
          <-> t - ts < (if apiUnavailable d
                        then CACHE_FAILURE_TTL_MS else CACHE_TTL_MS))
         /\ (readCache w t = None
             <-> (if apiUnavailable d
                  then CACHE_FAILURE_TTL_MS else CACHE_TTL_MS) <= t - ts))
  /\ (forall Date_parse deps_ w d ts,
         cacheSlot w = Stored d ts ->
         apiUnavailable d = false ->
         now deps_ - ts < CACHE_TTL_MS ->
         getUsage Date_parse deps_ w
         = (Some (refreshCountdowns d (now deps_)), w))
  /\ (forall Date_parse deps_ w d ts cred plan,
         cacheSlot w = Stored d ts ->
         apiUnavailable d = true ->
         CACHE_FAILURE_TTL_MS <= now deps_ - ts ->
         readCredentials w (now deps_) = Some cred ->
         getPlanName (cred_subscriptionType cred) true = Some plan ->
         truthyStr plan = true ->
         readCache w (now deps_) = None
         /\ fetchLog (snd (getUsage Date_parse deps_ w))
            = (fetchLog w ++ roundTrip cred)%list).
Proof.
  split; [reflexivity |]. split; [reflexivity |]. split; [reflexivity |].
  unfold CACHE_FAILURE_TTL_MS, CACHE_TTL_MS.
  split; [| split].
  - intros w t d ts H. rewrite (readCache_stored _ _ _ _ H).
    destruct (apiUnavailable d).
    + destruct (Z.ltb_spec (t - ts) 15000);
        (split; split; intros; (reflexivity || discriminate || lia)).
    + destruct (Z.ltb_spec (t - ts) 60000);
        (split; split; intros; (reflexivity || discriminate || lia)).
  - intros Date_parse deps_ w d ts H Hu Ht.
    apply getUsage_cached. rewrite (readCache_stored _ _ _ _ H), Hu.
    destruct (Z.ltb_spec (now deps_ - ts) 60000); [reflexivity | lia].
  - intros Date_parse deps_ w d ts cred plan H Hu Ht Hr Hp Hs.
    assert (Hc : readCache w (now deps_) = None).
    { rewrite (readCache_stored _ _ _ _ H), Hu.
      destruct (Z.ltb_spec (now deps_ - ts) 15000); [lia | reflexivity]. }
    split; [exact Hc |].
    apply getUsage_network_log with (plan := plan). now repeat split.
Qed.

(** The world after a successful fetch at 1000, and after a failed one. *)
Definition worldAfterSuccess : World :=
  snd (getUsage isoToy (deps 1000) world0).

Definition worldAfterFailure : World :=
  snd (getUsage isoToy (depsDown 1000) world0).

Example success_then_hit_makes_one_round_trip :
  fetchLog (snd (getUsage isoToy (deps 30000) worldAfterSuccess))
  = roundTrip theCredentials.
Proof. reflexivity. Qed.

Example success_expires_after_60s :
  fetchLog (snd (getUsage isoToy (deps 61000) worldAfterSuccess))
  = (roundTrip theCredentials ++ roundTrip theCredentials)%list.
Proof. reflexivity. Qed.

Example failure_still_cached_at_14s :
  getUsage isoToy (deps 15999) worldAfterFailure
  = (Some (failureResult "Max"), worldAfterFailure).
Proof. reflexivity. Qed.

(** The success is read again at 30000 with both endpoints down; the
    failure is read again at 16000. *)
Lemma cache_validity_and_ttl_witness :
  (exists d,
      cacheSlot worldAfterSuccess = Stored d 1000
      /\ getUsage isoToy (depsDown 30000) worldAfterSuccess
         = (Some (refreshCountdowns d 30000), worldAfterSuccess))
  /\ fetchLog (snd (getUsage isoToy (deps 16000) worldAfterFailure))
     = (roundTrip theCredentials ++ roundTrip theCredentials)%list.
Proof.
  split.
  - eexists. split; [reflexivity |].
    apply (proj1 (proj2 (proj2 (proj2 (proj2 cache_validity_and_ttl)))))
      with (ts := 1000);
      [reflexivity | reflexivity | unfold CACHE_TTL_MS; cbn; lia].
  - apply (proj2 (proj2 (proj2 (proj2 (proj2 cache_validity_and_ttl)))))
      with (d := failureResult "Max") (ts := 1000) (plan := "Max");
      [reflexivity | reflexivity | unfold CACHE_FAILURE_TTL_MS; cbn; lia
      | reflexivity | reflexivity | reflexivity].
Defined.

(** ** Expired credentials *)

(** A success record cached 10 seconds before the token expires. *)
Definition expiringWorld : World :=
  withCache
    {| cacheSlot := NoFile; cacheDirExists := true; writeFailure := NoFailure;
       credentialsFile := Some (creds (Val 1000000)); keychain := None;
       fetchLog := []; fsLog := [] |}
    (Stored (parseResponse isoToy "Max" theCredentials legacy 990000) 990000).

(** C7 as stated fails: at the very instant the token expires, a call
    that finds a valid cache record returns that record, not [null]; the
    cache is consulted before the credentials are. *)
Lemma expired_credentials_with_fresh_cache :
  resolveCredentialData expiringWorld = Some (creds (Val 1000000))
  /\ readCredentials expiringWorld 1000000 = None
  /\ fst (getUsage isoToy (deps 1000000) expiringWorld)
     = Some (refreshCountdowns
               (parseResponse isoToy "Max" theCredentials legacy 990000)
               1000000)
  /\ fst (getUsage isoToy (deps 1000000) expiringWorld) <> None.
Proof. repeat split. discriminate. Qed.

(** C7, as the code has it.  Credentials whose [expiresAt] is at or
    before the clock value, the clock value itself included, do not
    resolve; a call that finds no valid cache record then returns [null]
    and nothing else happens: no fetch, no cache write, no failure
    payload.  An expiry after the clock value is not an expiry. *)
Theorem expired_credentials_yield_null :
  (forall w t d e,
      resolveCredentialData w = Some d ->
      chain (claudeAiOauth d) expiresAt = Val e ->
      e <= t ->
      readCredentials w t = None)
  /\ (forall Date_parse deps_ w d e,
         resolveCredentialData w = Some d ->
         chain (claudeAiOauth d) expiresAt = Val e ->
         e <= now deps_ ->
         readCache w (now deps_) = None ->
         getUsage Date_parse deps_ w = (None, w))
  /\ (forall Date_parse deps_ w d,
         resolveCredentialData w = Some d ->
         chain (claudeAiOauth d) expiresAt = Val (now deps_) ->
         readCache w (now deps_) = None ->
         getUsage Date_parse deps_ w = (None, w))
  /\ (forall w t d e,
         resolveCredentialData w = Some d ->
         chain (claudeAiOauth d) expiresAt = Val e ->
         hasToken d = true ->
         t < e ->
         readCredentials w t <> None).
Proof.
  assert (H1 : forall w t d e,
             resolveCredentialData w = Some d ->
             chain (claudeAiOauth d) expiresAt = Val e ->
             e <= t ->
             readCredentials w t = None).
  { intros w t d e Hd He Hle. unfold readCredentials. rewrite Hd, He.
    destruct (negb _); [reflexivity |].
    destruct (Z.leb_spec e t); [reflexivity | lia]. }
  assert (H2 : forall Date_parse deps_ w d e,
             resolveCredentialData w = Some d ->
             chain (claudeAiOauth d) expiresAt = Val e ->
             e <= now deps_ ->
             readCache w (now deps_) = None ->
             getUsage Date_parse deps_ w = (None, w)).
  { intros Date_parse deps_ w d e Hd He Hle Hc. unfold getUsage.
    now rewrite Hc, (H1 _ _ _ _ Hd He Hle). }
  split; [exact H1 |]. split; [exact H2 |]. split.
  - intros Date_parse deps_ w d Hd He Hc.
    apply (H2 _ _ _ _ _ Hd He); [lia | exact Hc].
  - intros w t d e Hd He Ht Hlt. unfold readCredentials. rewrite Hd, He.
    unfold hasToken in Ht. rewrite Ht. cbn [negb].
    destruct (Z.leb_spec e t); [lia | discriminate].
Qed.

(** The token expires at 1000000, the clock reads 1000000, and the cache
    record is 70 seconds old. *)
Lemma expired_credentials_yield_null_witness :
  getUsage isoToy (deps 1000000)
           (withCache expiringWorld
              (Stored (parseResponse isoToy "Max" theCredentials legacy 930000)
                      930000))
  = (None,
     withCache expiringWorld
       (Stored (parseResponse isoToy "Max" theCredentials legacy 930000)
               930000)).
Proof.
  apply (proj1 (proj2 (proj2 expired_credentials_yield_null)))
    with (d := creds (Val 1000000)); reflexivity.
Defined.

End UsageFacts.

(* ===================================================================== *)
(** * Properties of the cache write *)
(* ===================================================================== *)

Module CacheFileFacts.
Import Js UsageApi CacheFile UsageFacts.
Local Open Scope string_scope.

Definition oldRecord : UsageData := failureResult "Pro".
Definition newRecord : UsageData := failureResult "Max".

(** A file system whose cache file holds [oldRecord]. *)
Definition disk : Files :=
  setFile (fun _ => NoFile) (getCachePath "/home/u") (Stored oldRecord 0).

Example in_place_write_observed :
  observe disk (flat_map stepsOf (writeCacheOps true "/home/u" newRecord 100))
          (getCachePath "/home/u")
  = [Unreadable; Stored newRecord 100].
Proof. reflexivity. Qed.

Example spec_write_observed :
  observe disk
          (flat_map stepsOf (specWriteCacheOps true "/home/u" newRecord 100))
          (getCachePath "/home/u")
  = [Stored oldRecord 0; Stored oldRecord 0; Stored newRecord 100].
Proof. reflexivity. Qed.

(** The write the specification asks for is atomic in this model. *)
Lemma spec_write_atomic :
  atomicReplace disk (specWriteCacheOps true "/home/u" newRecord 100)
                (getCachePath "/home/u").
Proof.
  unfold atomicReplace. cbn zeta.
  change (observe disk _ _)
    with [Stored oldRecord 0; Stored oldRecord 0; Stored newRecord 100].
  repeat constructor; (left; reflexivity) || (right; reflexivity).
Qed.

(** C5 as stated fails: while [writeCache] replaces a stored record, a
    reader can find the cache file emptied, which is neither the record
    from before nor the one from after. *)
Lemma writeCache_not_atomic :
  ~ atomicReplace disk (writeCacheOps true "/home/u" newRecord 100)
                  (getCachePath "/home/u").
Proof.
  unfold atomicReplace. cbn zeta.
  change (observe disk _ _) with [Unreadable; Stored newRecord 100].
  intros H. inversion H as [| c l [Hc | Hc] _]; discriminate Hc.
Qed.

Lemma setFile_same fs p c : setFile fs p c p = c.
Proof. unfold setFile. now rewrite String.eqb_refl. Qed.

Lemma writeCacheOps_renames dirExists h d t :
  filter isRename (writeCacheOps dirExists h d t) = [].
Proof. unfold writeCacheOps. now destruct dirExists. Qed.

Lemma writeCacheOps_direct dirExists h d t :
  filter (isDirectWrite (getCachePath h)) (writeCacheOps dirExists h d t)
  = [WriteFileSync (getCachePath h) d t].
Proof.
  unfold writeCacheOps. cbn zeta.
  destruct dirExists; cbn; now rewrite String.eqb_refl.
Qed.

Lemma fsLog_writeCache w h d t :
  exists ops,
    fsLog (writeCache w h d t) = (fsLog w ++ ops)%list
    /\ filter isRename ops = [].
Proof.
  unfold writeCache.
  destruct (writeFailure w), (cacheDirExists w); cbn;
    eexists; (split; [reflexivity |]);
    first [apply writeCacheOps_renames | reflexivity].
Qed.

Lemma fsLog_getUsage Date_parse deps_ w :
  exists ops,
    fsLog (snd (getUsage Date_parse deps_ w)) = (fsLog w ++ ops)%list
    /\ filter isRename ops = [].
Proof.
  assert (Hnil : exists ops, fsLog w = (fsLog w ++ ops)%list
                             /\ filter isRename ops = []).
  { exists []. now rewrite app_nil_r. }
  unfold getUsage.
  destruct (readCache w (now deps_)); [exact Hnil |].
  destruct (readCredentials w (now deps_)) as [cred |]; [| exact Hnil].
  destruct (getPlanName _ _) as [plan |]; [| exact Hnil].
  destruct (negb (truthyStr plan)); [exact Hnil |].
  destruct (fetchApi deps_ _ _) as [| a]; [exact Hnil |].
  destruct (fetchUsageLimits deps_ _ _) as [| b]; [exact Hnil |].
  destruct (mergeApiResponses a b); cbn [snd];
    match goal with
    | |- context [writeCache ?w1 ?h ?d ?t] =>
        destruct (fsLog_writeCache w1 h d t) as (ops & Hlog & Hren)
    end;
    exists ops; (split; [exact Hlog | exact Hren]).
Qed.

(** C5, as the code has it.  [writeCache] makes one [writeFileSync] call,
    straight on the cache path, and never renames; nor does any other
    step of [getUsage].  During the write a reader finds the file
    emptied and then holding the whole new record; the emptied file
    reads as a cache miss. *)
Theorem writeCache_overwrites_in_place :
  (forall dirExists h d t,
      filter (isDirectWrite (getCachePath h)) (writeCacheOps dirExists h d t)
      = [WriteFileSync (getCachePath h) d t]
      /\ filter isRename (writeCacheOps dirExists h d t) = [])
  /\ (forall Date_parse deps_ w,
         exists ops,
           fsLog (snd (getUsage Date_parse deps_ w)) = (fsLog w ++ ops)%list
           /\ filter isRename ops = [])
  /\ (forall fs h d t,
         observe fs (flat_map stepsOf (writeCacheOps true h d t))
                 (getCachePath h)
         = [Unreadable; Stored (jsonRoundTrip d) t])
  /\ (forall fs h d t,
         observe fs (flat_map stepsOf (writeCacheOps false h d t))
                 (getCachePath h)
         = [fs (getCachePath h); Unreadable; Stored (jsonRoundTrip d) t])
  /\ (forall w t, cacheSlot w = Unreadable -> readCache w t = None).
Proof.
  split; [| split; [| split; [| split]]].
  - intros. split; [apply writeCacheOps_direct | apply writeCacheOps_renames].
  - apply fsLog_getUsage.
  - intros fs h d t. cbn. now rewrite !setFile_same.
  - intros fs h d t. cbn. now rewrite !setFile_same.
  - intros w t H. unfold readCache. now rewrite H.
Qed.

Lemma writeCache_overwrites_in_place_witness :
  cacheSlot (withCache world0 Unreadable) = Unreadable
  /\ readCache (withCache world0 Unreadable) 1000 = None.
Proof.
  split; [reflexivity |].
  apply writeCache_overwrites_in_place. reflexivity.
Defined.

End CacheFileFacts.

(* ===================================================================== *)
(** * Properties of the transcript accumulator *)
(* ===================================================================== *)

Module TranscriptFacts.
Import Js Transcript.
Local Open Scope string_scope.

(** ** A concrete environment to run the pass in *)

Definition toyDate (s : string) : Date :=
  if String.eqb s "1970-01-01T00:00:01.000Z" then DateOf 1000
  else if String.eqb s "1970-01-01T00:00:02.000Z" then DateOf 2000
  else if String.eqb s "1970-01-01T00:00:03.000Z" then DateOf 3000
  else InvalidDate.

Definition toyClock (n : nat) : Z := 5000 + Z.of_nat n.

Definition block0 : ContentBlock :=
  {| block_type := EmptyString; block_id := Undefined; block_name := Undefined;
     block_text := Undefined; block_input := Undefined;
     tool_use_id := Undefined; is_error := Undefined |}.

Definition toolUse (i n : string) (input : nullable ToolInput) : ContentBlock :=
  {| block_type := "tool_use"; block_id := Val i; block_name := Val n;
     block_text := Undefined; block_input := input;
     tool_use_id := Undefined; is_error := Undefined |}.

Definition toolResult (i : string) (err : nullable bool) : ContentBlock :=
  {| block_type := "tool_result"; block_id := Undefined;
     block_name := Undefined; block_text := Undefined;
     block_input := Undefined; tool_use_id := Val i; is_error := err |}.

Definition bashInput (cmd : string) : nullable ToolInput :=
  Val {| file_path := Undefined; path := Undefined; pattern := Undefined;
         command := Val cmd; subagent_type := Undefined; model := Undefined;
         description := Undefined; todos := Undefined |}.

Definition entryOf (kind : string) (ts : nullable string)
           (blocks : list ContentBlock) : TranscriptLine :=
  {| line_type := Val kind; timestamp := ts;
     message := Val {| content := Val (Blocks blocks) |} |}.

Definition t1 : string := "1970-01-01T00:00:01.000Z".
Definition t2 : string := "1970-01-01T00:00:02.000Z".
Definition t3 : string := "1970-01-01T00:00:03.000Z".

(** The text of a line and what it parses to; a line outside the table
    does not parse. *)
Definition toyLines : list (string * TranscriptLine) :=
  [ ("use-1", entryOf "assistant" (Val t1) [toolUse "a" "Read" Undefined]);
    ("res-1", entryOf "user" (Val t2) [toolResult "a" Undefined]);
    ("res-1-again", entryOf "user" (Val t3) [toolResult "a" Undefined]);
    ("res-1-error", entryOf "user" (Val t2) [toolResult "a" (Val true)]);
    ("bash", entryOf "assistant" (Val t1)
               [toolUse "b" "Bash"
                        (bashInput "git log --oneline --graph --decorate --all")]);
    ("hello",
     {| line_type := Val "user"; timestamp := Val t1;
        message := Val {| content := Val (Text "  fix   the
 bug ") |} |}) ].

Definition toyParse (line : string) : option TranscriptLine :=
  mapGet line toyLines.

Definition run (lines : list string) : TranscriptData :=
  parseTranscript toyDate toyClock toyParse "/t.jsonl" (Some lines).

Example read_then_result :
  tools (run ["use-1"; "res-1"])
  = [ {| id := "a"; name := "Read"; target := Undefined;
         status := completed; startTime := DateOf 1000;
         endTime := Some (DateOf 2000) |} ].
Proof. reflexivity. Qed.

Example bash_target_truncated :
  map target (tools (run ["bash"]))
  = [Val "git log --oneline --graph --de..."].
Proof. reflexivity. Qed.

Example user_message_normalized :
  lastUserMessage (run ["hello"; "use-1"]) = Some "fix the bug".
Proof. reflexivity. Qed.

Example malformed_line_skipped :
  run ["use-1"; "{ type: assis"; "res-1"] = run ["use-1"; "res-1"].
Proof. reflexivity. Qed.

Example missing_file_is_empty :
  parseTranscript toyDate toyClock toyParse "/t.jsonl" None
  = {| tools := []; agents := []; result_todos := [];
       sessionStart := None; lastUserMessage := None |}.
Proof. reflexivity. Qed.

(** ** The insertion-ordered map *)

Section OrderedMapFacts.
Context {V : Type}.
Implicit Types (m : omap V) (k : string) (f : V -> V).

Lemma mapKeys_mapUpdate k f m : mapKeys (mapUpdate k f m) = mapKeys m.
Proof.
  induction m as [| [k' v'] m IH]; cbn; [reflexivity |].
  destruct (String.eqb k k'); cbn; [reflexivity | now f_equal].
Qed.

Lemma mapSet_new k (v : V) m :
  ~ In k (mapKeys m) -> mapSet k v m = (m ++ [(k, v)])%list.
Proof.
  induction m as [| [k' v'] m IH]; cbn; intros Hk; [reflexivity |].
  destruct (String.eqb_spec k k') as [-> | Hne].
  - exfalso. apply Hk. now left.
  - f_equal. apply IH. intros Hin. apply Hk. now right.
Qed.

Lemma mapGet_mapUpdate k f m :
  mapGet k (mapUpdate k f m) = option_map f (mapGet k m).
Proof.
  induction m as [| [k' v'] m IH]; cbn; [reflexivity |].
  destruct (String.eqb k k') eqn:E; cbn; rewrite E; [reflexivity | exact IH].
Qed.

Lemma mapUpdate_fixed k f m :
  (forall v, mapGet k m = Some v -> f v = v) -> mapUpdate k f m = m.
Proof.
  induction m as [| [k' v'] m IH]; cbn; intros H; [reflexivity |].
  destruct (String.eqb k k').
  - now rewrite (H v' eq_refl).
  - f_equal. now apply IH.
Qed.

Lemma mapUpdate_twice k f m :
  (forall v, f (f v) = f v) ->
  mapUpdate k f (mapUpdate k f m) = mapUpdate k f m.
Proof.
  intros Hf. induction m as [| [k' v'] m IH]; cbn; [reflexivity |].
  destruct (String.eqb k k') eqn:E; cbn; rewrite E.
  - now rewrite Hf.
  - now rewrite IH.
Qed.

Lemma mapUpdate_absent k f m : mapGet k m = None -> mapUpdate k f m = m.
Proof. intros H. apply mapUpdate_fixed. intros v Hv. congruence. Qed.
End OrderedMapFacts.

Lemma sliceLast_map {A B} (f : A -> B) n (l : list A) :
  map f (sliceLast n l) = sliceLast n (map f l).
Proof. unfold sliceLast. now rewrite length_map, skipn_map. Qed.

Lemma sliceLast_length {A} n (l : list A) :
  (n <= length l)%nat -> length (sliceLast n l) = n.
Proof. intros H. unfold sliceLast. rewrite length_skipn. lia. Qed.

(** What [slice(-n)] keeps is the end of the list: the elements it
    drops all come before the ones it keeps, and there are as many of
    them as the list has beyond [n]. *)
Lemma sliceLast_is_the_end {A} n (l : list A) :
  exists older,
    l = (older ++ sliceLast n l)%list
    /\ length older = (length l - n)%nat.
Proof.
  exists (firstn (length l - n) l). unfold sliceLast. split.
  - symmetry. apply firstn_skipn.
  - rewrite length_firstn. lia.
Qed.

(** ** A repeated result for a finished tool *)

Lemma withTools_same a : withTools a (toolMap a) = a.
Proof. now destruct a. Qed.

Lemma withAgents_same a : withAgents a (agentMap a) = a.
Proof. now destruct a. Qed.

(** What a [tool_result] block does to the two maps. *)
Lemma processBlock_result ts a block tid :
  block_type block = "tool_result" ->
  tool_use_id block = Val tid ->
  truthyStr tid = true ->
  processBlock ts a block
  = withAgents
      (withTools a (mapUpdate tid (finishTool (truthyBool (is_error block)) ts)
                              (toolMap a)))
      (mapUpdate tid (finishAgent ts) (agentMap a)).
Proof.
  intros Hty Hid Htid. unfold processBlock.
  assert (Huse : processToolUse ts block a = a).
  { unfold processToolUse. rewrite Hty.
    destruct (block_id block), (block_name block); reflexivity. }
  rewrite Huse. unfold processToolResult. rewrite Hid, Hty, Htid.
  reflexivity.
Qed.

(** The tool, and the agent if there is one, under [tid] are finished,
    with [ts] as their end time. *)
Definition finishedAt (ts : Date) (tid : string) (a : Acc) : Prop :=
  (exists tool,
      mapGet tid (toolMap a) = Some tool
      /\ status tool = completed
      /\ endTime tool = Some ts)
  /\ (forall agent,
         mapGet tid (agentMap a) = Some agent ->
         agent_status agent = agent_completed
         /\ agent_endTime agent = Some ts).

Definition finishedWorld : Acc :=
  accumulate toyDate toyClock toyParse ["use-1"; "res-1"].

(** The first result entry of a session that carries no timestamp. *)
Definition unstamped : TranscriptLine :=
  entryOf "user" Undefined [toolResult "a" Undefined].

(** C4 as stated fails: one more [tool_result] for a tool that is
    completed, with its end time set, moves the end time to the new
    entry's timestamp; one flagged [is_error] turns the status into
    [error]; and an entry without timestamp, applied twice, stamps the
    tool with the time of each application. *)
Lemma duplicate_result_changes_state :
  mapGet "a" (toolMap finishedWorld)
  = Some {| id := "a"; name := "Read"; target := Undefined;
            status := completed; startTime := DateOf 1000;
            endTime := Some (DateOf 2000) |}
  /\ mapGet "a"
       (toolMap (processEntry toyDate toyClock
                   (entryOf "user" (Val t3) [toolResult "a" Undefined])
                   finishedWorld))
     = Some {| id := "a"; name := "Read"; target := Undefined;
               status := completed; startTime := DateOf 1000;
               endTime := Some (DateOf 3000) |}
  /\ processEntry toyDate toyClock
       (entryOf "user" (Val t3) [toolResult "a" Undefined]) finishedWorld
     <> finishedWorld
  /\ mapGet "a"
       (toolMap (processEntry toyDate toyClock
                   (entryOf "user" (Val t2) [toolResult "a" (Val true)])
                   finishedWorld))
     = Some {| id := "a"; name := "Read"; target := Undefined;
               status := error; startTime := DateOf 1000;
               endTime := Some (DateOf 2000) |}
  /\ processEntry toyDate toyClock
       (entryOf "user" (Val t2) [toolResult "a" (Val true)]) finishedWorld
     <> finishedWorld
  /\ option_map endTime
       (mapGet "a" (toolMap (processEntry toyDate toyClock unstamped
                               finishedWorld)))
     = Some (Some (DateOf 5000))
  /\ option_map endTime
       (mapGet "a"
          (toolMap (processEntry toyDate toyClock unstamped
                      (processEntry toyDate toyClock unstamped
                         finishedWorld))))
     = Some (Some (DateOf 5001)).
Proof.
  split; [reflexivity |]. split; [reflexivity |]. split.
  - intros H. apply (f_equal toolMap) in H. vm_compute in H. discriminate H.
  - split; [reflexivity |]. split; [| split; reflexivity].
    intros H. apply (f_equal toolMap) in H. vm_compute in H. discriminate H.
Qed.

(** [result.sessionStart] after an entry stamped [ts]. *)
Definition markStart (ts : Date) (a : Acc) : Acc :=
  {| toolMap := toolMap a; agentMap := agentMap a;
     latestTodos := latestTodos a;
     acc_sessionStart :=
       match acc_sessionStart a with
       | None => Some ts
       | Some s => Some s
       end;
     userMessages := userMessages a;
     clockReads := clockReads a |}.

Lemma markStart_set ts a : acc_sessionStart a <> None -> markStart ts a = a.
Proof.
  destruct a as [tm am lt ss um cr]; unfold markStart; cbn.
  destruct ss; [reflexivity | congruence].
Qed.

Lemma processEntry_stamped Date_parse clock entry s a blocks :
  timestamp entry = Val s ->
  truthyStr s = true ->
  chain (message entry) content = Val (Blocks blocks) ->
  processEntry Date_parse clock entry a
  = fold_left (processBlock (Date_parse s)) blocks
              (markStart (Date_parse s) a).
Proof.
  intros Hts Hs Hc. unfold processEntry, markStart.
  rewrite Hts, Hc. cbn [truthyNStr orDefault]. now rewrite Hs.
Qed.

Lemma finishTool_twice e ts v :
  finishTool e ts (finishTool e ts v) = finishTool e ts v.
Proof. reflexivity. Qed.

Lemma finishAgent_twice ts v :
  finishAgent ts (finishAgent ts v) = finishAgent ts v.
Proof. reflexivity. Qed.

(** C4, as the code has it.  A further [tool_result] for a finished tool
    leaves the state unchanged when it carries no [is_error] flag and its
    entry has the very timestamp recorded as the end time; applying one
    timestamped result entry twice gives what applying it once gives; in
    general the block overwrites the status and the end time of the tool
    with its own. *)
Theorem duplicate_result_same_instant :
  (forall ts a block tid,
      block_type block = "tool_result" ->
      tool_use_id block = Val tid ->
      truthyStr tid = true ->
      truthyBool (is_error block) = false ->
      finishedAt ts tid a ->
      processBlock ts a block = a)
  /\ (forall Date_parse clock entry s a block tid,
         timestamp entry = Val s ->
         truthyStr s = true ->
         acc_sessionStart a <> None ->
         chain (message entry) content = Val (Blocks [block]) ->
         block_type block = "tool_result" ->
         tool_use_id block = Val tid ->
         truthyStr tid = true ->
         truthyBool (is_error block) = false ->
         finishedAt (Date_parse s) tid a ->
         processEntry Date_parse clock entry a = a)
  /\ (forall Date_parse clock entry s a block tid,
         timestamp entry = Val s ->
         truthyStr s = true ->
         chain (message entry) content = Val (Blocks [block]) ->
         block_type block = "tool_result" ->
         tool_use_id block = Val tid ->
         truthyStr tid = true ->
         processEntry Date_parse clock entry
                      (processEntry Date_parse clock entry a)
         = processEntry Date_parse clock entry a)
  /\ (forall ts a block tid tool,
         block_type block = "tool_result" ->
         tool_use_id block = Val tid ->
         truthyStr tid = true ->
         mapGet tid (toolMap a) = Some tool ->
         mapGet tid (toolMap (processBlock ts a block))
         = Some {| id := id tool; name := name tool; target := target tool;
                   status := if truthyBool (is_error block)
                             then error else completed;
                   startTime := startTime tool;
                   endTime := Some ts |}).
Proof.
  assert (H1 : forall ts a block tid,
             block_type block = "tool_result" ->
             tool_use_id block = Val tid ->
             truthyStr tid = true ->
             truthyBool (is_error block) = false ->
             finishedAt ts tid a ->
             processBlock ts a block = a).
  { intros ts a block tid Hty Hid Htid Herr ((tool & Hget & Hst & Hend) & Hag).
    rewrite (processBlock_result _ _ _ _ Hty Hid Htid), Herr.
    rewrite (mapUpdate_fixed tid (finishTool false ts) (toolMap a)).
    - rewrite withTools_same.
      rewrite (mapUpdate_fixed tid (finishAgent ts) (agentMap a)).
      + apply withAgents_same.
      + intros ag Hag'. destruct (Hag _ Hag') as (Hs & He).
        destruct ag; cbn in *. now subst.
    - intros v Hv. rewrite Hget in Hv. injection Hv as <-.
      destruct tool; cbn in *. now subst. }
  split; [exact H1 |]. split; [| split].
  - intros Date_parse clock entry s a block tid
           Hts Hs Hstart Hc Hty Hid Htid Herr Hfin.
    rewrite (processEntry_stamped _ _ _ _ _ _ Hts Hs Hc). cbn [fold_left].
    rewrite markStart_set by exact Hstart.
    now apply H1 with (tid := tid).
  - intros Date_parse clock entry s a block tid Hts Hs Hc Hty Hid Htid.
    rewrite !(processEntry_stamped _ _ _ _ _ _ Hts Hs Hc). cbn [fold_left].
    rewrite !(processBlock_result _ _ _ _ Hty Hid Htid).
    rewrite markStart_set by (cbn; destruct (acc_sessionStart a); discriminate).
    cbn [toolMap agentMap withAgents withTools].
    rewrite (mapUpdate_twice tid _ _ (finishTool_twice _ _)).
    rewrite (mapUpdate_twice tid _ _ (finishAgent_twice _)).
    reflexivity.
  - intros ts a block tid tool Hty Hid Htid Hget.
    rewrite (processBlock_result _ _ _ _ Hty Hid Htid).
    cbn [toolMap withAgents withTools].
    now rewrite mapGet_mapUpdate, Hget.
Qed.

(** The result entry of the example, fed once more. *)
Lemma duplicate_result_same_instant_witness :
  processEntry toyDate toyClock
    (entryOf "user" (Val t2) [toolResult "a" Undefined]) finishedWorld
  = finishedWorld.
Proof.
  apply (proj1 (proj2 duplicate_result_same_instant))
    with (s := t2) (block := toolResult "a" Undefined) (tid := "a");
    try reflexivity.
  - discriminate.
  - split.
    + eexists. repeat split; reflexivity.
    + intros agent H. discriminate H.
Defined.

(** ** Start records and the keys of the two maps *)

Definition startId (b : ContentBlock) : string :=
  orDefault (block_id b) EmptyString.

Definition startName (b : ContentBlock) : string :=
  orDefault (block_name b) EmptyString.

(** A [tool_use] block with an id and a name. *)
Definition isStart (b : ContentBlock) : bool :=
  String.eqb (block_type b) "tool_use"
  && truthyNStr (block_id b) && truthyNStr (block_name b).

(** A tool-start record: neither [Task] nor [TodoWrite]. *)
Definition isToolStart (b : ContentBlock) : bool :=
  isStart b
  && negb (String.eqb (startName b) "Task")
  && negb (String.eqb (startName b) "TodoWrite").

(** An agent-start record: a [Task] tool use. *)
Definition isAgentStart (b : ContentBlock) : bool :=
  isStart b && String.eqb (startName b) "Task".

Definition blocksOf (e : TranscriptLine) : list ContentBlock :=
  match chain (message e) content with
  | Val (Blocks blocks) => blocks
  | _ => []
  end.

Definition idsOf (p : ContentBlock -> bool) (bs : list ContentBlock)
  : list string :=
  map startId (filter p bs).

Definition newTool (ts : Date) (b : ContentBlock) : ToolEntry :=
  {| id := startId b; name := startName b;
     target := extractTarget (startName b) (block_input b);
     status := running; startTime := ts; endTime := None |}.

Definition newAgent (ts : Date) (b : ContentBlock) : AgentEntry :=
  {| agent_id := startId b;
     agent_type :=
       orDefault (chain (block_input b) subagent_type) "unknown";
     agent_model := coalesce (chain (block_input b) model) Undefined;
     agent_description :=
       coalesce (chain (block_input b) description) Undefined;
     agent_status := agent_running;
     agent_startTime := ts;
     agent_endTime := None |}.

Lemma toolMap_processToolUse ts b a :
  toolMap (processToolUse ts b a)
  = if isToolStart b
    then mapSet (startId b) (newTool ts b) (toolMap a)
    else toolMap a.
Proof.
  unfold newTool, processToolUse, isToolStart, isStart, startId, startName.
  destruct (block_id b) as [| |bid], (block_name b) as [| |bname]; cbn;
    rewrite ?andb_false_r; try reflexivity.
  destruct (String.eqb (block_type b) "tool_use"); cbn; [| reflexivity].
  destruct (truthyStr bid); cbn; [| reflexivity].
  destruct (truthyStr bname); cbn; [| reflexivity].
  destruct (String.eqb bname "Task"); cbn; [reflexivity |].
  destruct (String.eqb bname "TodoWrite"); cbn; [| reflexivity].
  destruct (chain (block_input b) todos); reflexivity.
Qed.

Lemma agentMap_processToolUse ts b a :
  agentMap (processToolUse ts b a)
  = if isAgentStart b
    then mapSet (startId b) (newAgent ts b) (agentMap a)
    else agentMap a.
Proof.
  unfold newAgent, processToolUse, isAgentStart, isStart, startId, startName.
  destruct (block_id b) as [| |bid], (block_name b) as [| |bname]; cbn;
    rewrite ?andb_false_r; try reflexivity.
  destruct (String.eqb (block_type b) "tool_use"); cbn; [| reflexivity].
  destruct (truthyStr bid); cbn; [| reflexivity].
  destruct (truthyStr bname); cbn; [| reflexivity].
  destruct (String.eqb bname "Task"); cbn; [reflexivity |].
  destruct (String.eqb bname "TodoWrite"); cbn; [| reflexivity].
  destruct (chain (block_input b) todos); reflexivity.
Qed.

Lemma toolMap_processToolResult ts b a :
  toolMap (processToolResult ts b a) = toolMap a
  \/ exists tid e,
      toolMap (processToolResult ts b a)
      = mapUpdate tid (finishTool e ts) (toolMap a).
Proof.
  unfold processToolResult.
  destruct (tool_use_id b) as [| |tid]; try (left; reflexivity).
  destruct (_ && _); [| left; reflexivity].
  right. exists tid, (truthyBool (is_error b)). reflexivity.
Qed.

Lemma agentMap_processToolResult ts b a :
  agentMap (processToolResult ts b a) = agentMap a
  \/ exists tid,
      agentMap (processToolResult ts b a)
      = mapUpdate tid (finishAgent ts) (agentMap a).
Proof.
  unfold processToolResult.
  destruct (tool_use_id b) as [| |tid]; try (left; reflexivity).
  destruct (_ && _); [| left; reflexivity].
  right. exists tid. reflexivity.
Qed.

(** Every entry sits under its own id. *)
Definition keyed {V} (idOf : V -> string) (m : omap V) : Prop :=
  Forall (fun kv => idOf (snd kv) = fst kv) m.

Lemma keyed_values {V} (idOf : V -> string) (m : omap V) :
  keyed idOf m -> map idOf (mapValues m) = mapKeys m.
Proof.
  unfold mapValues, mapKeys.
  induction 1 as [| [k v] m Hkv _ IH]; cbn in *; [reflexivity |].
  now rewrite Hkv, IH.
Qed.

Lemma keyed_snoc {V} (idOf : V -> string) (m : omap V) k v :
  keyed idOf m -> idOf v = k -> keyed idOf (m ++ [(k, v)])%list.
Proof.
  intros Hm Hv. apply Forall_app. split; [exact Hm |].
  constructor; [exact Hv | constructor].
Qed.

Lemma keyed_mapUpdate {V} (idOf : V -> string) (m : omap V) k f :
  keyed idOf m -> (forall v, idOf (f v) = idOf v) ->
  keyed idOf (mapUpdate k f m).
Proof.
  intros Hm Hf.
  induction Hm as [| [k' v'] m Hkv Hm IH]; cbn; [constructor |].
  destruct (String.eqb k k'); constructor; cbn in *;
    try assumption.
  now rewrite Hf.
Qed.

(** The same argument serves the tools and the agents. *)
Section KeysOfAMap.
Context {V : Type}.
Variable idOf : V -> string.
Variable M : Acc -> omap V.
Variable isNew : ContentBlock -> bool.

Hypothesis M_only_maps :
  forall a a', toolMap a = toolMap a' -> agentMap a = agentMap a' ->
               M a = M a'.

Hypothesis M_block :
  forall ts a b,
    keyed idOf (M a) ->
    (isNew b = true -> ~ In (startId b) (mapKeys (M a))) ->
    mapKeys (M (processBlock ts a b))
    = (mapKeys (M a) ++ (if isNew b then [startId b] else []))%list
    /\ keyed idOf (M (processBlock ts a b)).

Lemma idsOf_cons b bs :
  idsOf isNew (b :: bs)
  = ((if isNew b then [startId b] else []) ++ idsOf isNew bs)%list.
Proof. unfold idsOf. cbn. now destruct (isNew b). Qed.

Lemma keys_blocks ts bs :
  forall a,
    keyed idOf (M a) ->
    NoDup (mapKeys (M a) ++ idsOf isNew bs) ->
    mapKeys (M (fold_left (processBlock ts) bs a))
    = (mapKeys (M a) ++ idsOf isNew bs)%list
    /\ keyed idOf (M (fold_left (processBlock ts) bs a)).
Proof.
  induction bs as [| b bs IH]; intros a Hk Hnd.
  - cbn. rewrite app_nil_r. now split.
  - rewrite idsOf_cons in Hnd |- *. cbn [fold_left].
    destruct (M_block ts a b Hk) as (Hkeys & Hk').
    { intros Hb. rewrite Hb in Hnd. cbn in Hnd.
      apply NoDup_remove_2 in Hnd. intros Hin. apply Hnd.
      apply in_or_app. now left. }
    destruct (IH (processBlock ts a b) Hk') as (IHkeys & IHk).
    { rewrite Hkeys, <- app_assoc. exact Hnd. }
    split; [| exact IHk].
    now rewrite IHkeys, Hkeys, <- app_assoc.
Qed.

Variable Date_parse : string -> Date.
Variable clock : nat -> Z.
Variable JSON_parse : string -> option TranscriptLine.

Lemma keys_entry e a :
  keyed idOf (M a) ->
  NoDup (mapKeys (M a) ++ idsOf isNew (blocksOf e)) ->
  mapKeys (M (processEntry Date_parse clock e a))
  = (mapKeys (M a) ++ idsOf isNew (blocksOf e))%list
  /\ keyed idOf (M (processEntry Date_parse clock e a)).
Proof.
  intros Hk Hnd. unfold processEntry, blocksOf in *.
  match goal with
  | |- context [fold_left _ _ ?a1] =>
      assert (Ha1 : M a1 = M a) by (apply M_only_maps; reflexivity)
  end.
  destruct (chain (message e) content) as [| |[blocks | txt]].
  1, 2, 4: cbn; rewrite app_nil_r, Ha1; now split.
  rewrite <- Ha1 in Hk, Hnd |- *.
  now apply keys_blocks.
Qed.

(** The entries a pass gets to process, in order. *)
Definition entriesOf (lines : list string) : list TranscriptLine :=
  flat_map (fun line =>
              if negb (truthyStr (trim line)) then []
              else match JSON_parse line with
                   | Some e => [e]
                   | None => []
                   end) lines.

Definition startsOf (lines : list string) : list string :=
  idsOf isNew (flat_map blocksOf (entriesOf lines)).

Lemma idsOf_app bs bs' :
  idsOf isNew (bs ++ bs') = (idsOf isNew bs ++ idsOf isNew bs')%list.
Proof. unfold idsOf. now rewrite filter_app, map_app. Qed.

Lemma keys_lines lines :
  forall a,
    keyed idOf (M a) ->
    NoDup (mapKeys (M a) ++ startsOf lines) ->
    mapKeys (M (fold_left (processLine Date_parse clock JSON_parse) lines a))
    = (mapKeys (M a) ++ startsOf lines)%list
    /\ keyed idOf
         (M (fold_left (processLine Date_parse clock JSON_parse) lines a)).
Proof.
  unfold startsOf.
  induction lines as [| line lines IH]; intros a Hk Hnd.
  - cbn. rewrite app_nil_r. now split.
  - cbn [fold_left]. unfold entriesOf in Hnd |- *. cbn [flat_map] in Hnd |- *.
    fold (entriesOf lines) in Hnd |- *.
    unfold processLine at 2 4.
    destruct (negb (truthyStr (trim line))); [now apply IH |].
    destruct (JSON_parse line) as [e |]; [| now apply IH].
    cbn [app flat_map] in Hnd |- *. rewrite idsOf_app in Hnd |- *.
    rewrite app_assoc in Hnd |- *.
    destruct (keys_entry e a Hk) as (Hkeys & Hk').
    { apply NoDup_app_remove_r in Hnd. exact Hnd. }
    assert (HM : M (collectUserMessage e
                      (processEntry Date_parse clock e a))
                 = M (processEntry Date_parse clock e a)).
    { apply M_only_maps; unfold collectUserMessage;
        destruct (line_type e), (chain (message e) content); try reflexivity;
        destruct (_ && _); try reflexivity;
        destruct (_ && _); reflexivity. }
    destruct (IH (collectUserMessage e (processEntry Date_parse clock e a)))
      as (IHkeys & IHk).
    { now rewrite HM. }
    { now rewrite HM, Hkeys. }
    split; [| exact IHk].
    now rewrite IHkeys, HM, Hkeys.
Qed.
End KeysOfAMap.

Lemma toolMap_block ts a b :
  keyed id (toolMap a) ->
  (isToolStart b = true -> ~ In (startId b) (mapKeys (toolMap a))) ->
  mapKeys (toolMap (processBlock ts a b))
  = (mapKeys (toolMap a) ++ (if isToolStart b then [startId b] else []))%list
  /\ keyed id (toolMap (processBlock ts a b)).
Proof.
  intros Hk Hfresh. unfold processBlock.
  assert (Huse :
            mapKeys (toolMap (processToolUse ts b a))
            = (mapKeys (toolMap a)
                 ++ (if isToolStart b then [startId b] else []))%list
            /\ keyed id (toolMap (processToolUse ts b a))).
  { rewrite toolMap_processToolUse.
    destruct (isToolStart b).
    - rewrite mapSet_new by now apply Hfresh.
      unfold mapKeys. rewrite map_app. split; [reflexivity |].
      now apply keyed_snoc.
    - rewrite app_nil_r. now split. }
  destruct Huse as (Hkeys & Hk').
  destruct (toolMap_processToolResult ts b (processToolUse ts b a))
    as [-> | (tid & e & ->)]; [now split |].
  rewrite mapKeys_mapUpdate. split; [exact Hkeys |].
  now apply keyed_mapUpdate.
Qed.

Lemma agentMap_block ts a b :
  keyed agent_id (agentMap a) ->
  (isAgentStart b = true -> ~ In (startId b) (mapKeys (agentMap a))) ->
  mapKeys (agentMap (processBlock ts a b))
  = (mapKeys (agentMap a)
       ++ (if isAgentStart b then [startId b] else []))%list
  /\ keyed agent_id (agentMap (processBlock ts a b)).
Proof.
  intros Hk Hfresh. unfold processBlock.
  assert (Huse :
            mapKeys (agentMap (processToolUse ts b a))
            = (mapKeys (agentMap a)
                 ++ (if isAgentStart b then [startId b] else []))%list
            /\ keyed agent_id (agentMap (processToolUse ts b a))).
  { rewrite agentMap_processToolUse.
    destruct (isAgentStart b).
    - rewrite mapSet_new by now apply Hfresh.
      unfold mapKeys. rewrite map_app. split; [reflexivity |].
      now apply keyed_snoc.
    - rewrite app_nil_r. now split. }
  destruct Huse as (Hkeys & Hk').
  destruct (agentMap_processToolResult ts b (processToolUse ts b a))
    as [-> | (tid & ->)]; [now split |].
  rewrite mapKeys_mapUpdate. split; [exact Hkeys |].
  now apply keyed_mapUpdate.
Qed.

Lemma tool_ids_after_pass Date_parse clock JSON_parse lines :
  NoDup (startsOf isToolStart JSON_parse lines) ->
  map id (mapValues (toolMap (accumulate Date_parse clock JSON_parse lines)))
  = startsOf isToolStart JSON_parse lines.
Proof.
  intros Hnd. unfold accumulate.
  destruct (keys_lines id toolMap isToolStart
                       (fun a a' Ht _ => Ht) toolMap_block
                       Date_parse clock JSON_parse lines emptyAcc)
    as (Hkeys & Hk); [constructor | exact Hnd |].
  rewrite (keyed_values _ _ Hk). exact Hkeys.
Qed.

Lemma agent_ids_after_pass Date_parse clock JSON_parse lines :
  NoDup (startsOf isAgentStart JSON_parse lines) ->
  map agent_id
      (mapValues (agentMap (accumulate Date_parse clock JSON_parse lines)))
  = startsOf isAgentStart JSON_parse lines.
Proof.
  intros Hnd. unfold accumulate.
  destruct (keys_lines agent_id agentMap isAgentStart
                       (fun a a' _ Ha => Ha) agentMap_block
                       Date_parse clock JSON_parse lines emptyAcc)
    as (Hkeys & Hk); [constructor | exact Hnd |].
  rewrite (keyed_values _ _ Hk). exact Hkeys.
Qed.

(** ** Retention *)

(** C8.  When the tool-start records of a transcript carry pairwise
    distinct ids, the maps built by the pass hold one entry per record,
    in the order of the records, however many there are; the result's
    tools are cut once from the complete map and are its end: the
    records dropped all come before the ones kept, in discovery order,
    and there are as many of them as there are records beyond 20.  So
    with more than 20 records exactly 20 tools remain, the most recent
    ones in order.  The same holds of the agents, with 10. *)
Theorem tools_and_agents_trimmed_after_pass
        (Date_parse : string -> Date) (clock : nat -> Z)
        (JSON_parse : string -> option TranscriptLine) :
  forall transcriptPath lines,
    truthyStr transcriptPath = true ->
    let acc := accumulate Date_parse clock JSON_parse lines in
    let r := parseTranscript Date_parse clock JSON_parse transcriptPath
                             (Some lines) in
    let toolIds := startsOf isToolStart JSON_parse lines in
    let agentIds := startsOf isAgentStart JSON_parse lines in
    tools r = sliceLast 20 (mapValues (toolMap acc))
    /\ agents r = sliceLast 10 (mapValues (agentMap acc))
    /\ (exists older,
           mapValues (toolMap acc) = (older ++ tools r)%list
           /\ length older = (length (mapValues (toolMap acc)) - 20)%nat)
    /\ (exists older,
           mapValues (agentMap acc) = (older ++ agents r)%list
           /\ length older = (length (mapValues (agentMap acc)) - 10)%nat)
    /\ (NoDup toolIds ->
        map id (mapValues (toolMap acc)) = toolIds
        /\ map id (tools r) = sliceLast 20 toolIds
        /\ (exists older,
               toolIds = (older ++ map id (tools r))%list
               /\ length older = (length toolIds - 20)%nat)
        /\ ((20 < length toolIds)%nat -> length (tools r) = 20%nat))
    /\ (NoDup agentIds ->
        map agent_id (mapValues (agentMap acc)) = agentIds
        /\ map agent_id (agents r) = sliceLast 10 agentIds
        /\ (exists older,
               agentIds = (older ++ map agent_id (agents r))%list
               /\ length older = (length agentIds - 10)%nat)
        /\ ((10 < length agentIds)%nat -> length (agents r) = 10%nat)).
Proof.
  intros transcriptPath lines Hpath acc r toolIds agentIds.
  assert (Hr : r = finish acc).
  { subst r acc. unfold parseTranscript. now rewrite Hpath. }
  split; [now rewrite Hr |]. split; [now rewrite Hr |].
  split; [rewrite Hr; apply sliceLast_is_the_end |].
  split; [rewrite Hr; apply sliceLast_is_the_end |].
  split.
  - intros Hnd.
    pose proof (tool_ids_after_pass Date_parse clock JSON_parse lines Hnd)
      as Hids.
    fold acc toolIds in Hids.
    split; [exact Hids |].
    rewrite Hr. cbn [tools finish]. split; [| split].
    + now rewrite sliceLast_map, Hids.
    + rewrite sliceLast_map, Hids. apply sliceLast_is_the_end.
    + intros Hlen. apply sliceLast_length.
      rewrite <- (length_map id), Hids. lia.
  - intros Hnd.
    pose proof (agent_ids_after_pass Date_parse clock JSON_parse lines Hnd)
      as Hids.
    fold acc agentIds in Hids.
    split; [exact Hids |].
    rewrite Hr. cbn [agents finish]. split; [| split].
    + now rewrite sliceLast_map, Hids.
    + rewrite sliceLast_map, Hids. apply sliceLast_is_the_end.
    + intros Hlen. apply sliceLast_length.
      rewrite <- (length_map agent_id), Hids. lia.
Qed.

(** A transcript generator: line [tool-n] starts tool [tool-n], line
    [task-n] starts agent [task-n], any other line does not parse. *)
Definition genParse (line : string) : option TranscriptLine :=
  if String.prefix "tool-" line
  then Some (entryOf "assistant" (Val t1) [toolUse line "Read" Undefined])
  else if String.prefix "task-" line
  then Some (entryOf "assistant" (Val t1) [toolUse line "Task" Undefined])
  else None.

Definition showNat (n : nat) : string :=
  NilEmpty.string_of_uint (Nat.to_uint n).

Definition genLines (kind : string) (from n : nat) : list string :=
  map (fun i => kind ++ showNat i) (seq from n).

Definition genTranscript : list string :=
  (genLines "tool-" 1 12 ++ ["not json"] ++ genLines "task-" 1 11
     ++ genLines "tool-" 13 11)%list.

Fixpoint distinct (l : list string) : bool :=
  match l with
  | [] => true
  | x :: rest => negb (existsb (String.eqb x) rest) && distinct rest
  end.

Lemma distinct_NoDup l : distinct l = true -> NoDup l.
Proof.
  induction l as [| x l IH]; cbn; intros H; constructor.
  - apply andb_prop in H as [H _]. intros Hin.
    assert (existsb (String.eqb x) l = true).
    { apply existsb_exists. exists x. split; [exact Hin |].
      apply String.eqb_refl. }
    rewrite H0 in H. discriminate H.
  - apply andb_prop in H as [_ H]. now apply IH.
Qed.

Example generated_transcript_counts :
  length (startsOf isToolStart genParse genTranscript) = 23%nat
  /\ length (startsOf isAgentStart genParse genTranscript) = 11%nat.
Proof. split; reflexivity. Qed.

(** Tools 1 to 23 and agents 1 to 11 are started, in that order; the
    result holds tools 4 to 23 and agents 2 to 11. *)
Lemma tools_and_agents_trimmed_after_pass_witness :
  let r := parseTranscript toyDate toyClock genParse "/t.jsonl"
                           (Some genTranscript) in
  (length (tools r) = 20%nat
   /\ map id (tools r)
      = sliceLast 20 (startsOf isToolStart genParse genTranscript)
   /\ exists older,
       startsOf isToolStart genParse genTranscript
       = (older
            ++ ["tool-4"; "tool-5"; "tool-6"; "tool-7"; "tool-8"; "tool-9";
                "tool-10"; "tool-11"; "tool-12"; "tool-13"; "tool-14";
                "tool-15"; "tool-16"; "tool-17"; "tool-18"; "tool-19";
                "tool-20"; "tool-21"; "tool-22"; "tool-23"])%list
       /\ length older = 3%nat)
  /\ (length (agents r) = 10%nat
      /\ map agent_id (agents r)
         = sliceLast 10 (startsOf isAgentStart genParse genTranscript)
      /\ exists older,
          startsOf isAgentStart genParse genTranscript
          = (older
               ++ ["task-2"; "task-3"; "task-4"; "task-5"; "task-6";
                   "task-7"; "task-8"; "task-9"; "task-10"; "task-11"])%list
          /\ length older = 1%nat).
Proof.
  pose proof (tools_and_agents_trimmed_after_pass
                toyDate toyClock genParse "/t.jsonl" genTranscript eq_refl)
    as (_ & _ & _ & _ & Htools & Hagents).
  split.
  - destruct Htools as (_ & Hids & Hend & Hlen).
    + apply distinct_NoDup. vm_compute. reflexivity.
    + split; [apply Hlen; vm_compute; lia |]. split; [exact Hids |].
      exact Hend.
  - destruct Hagents as (_ & Hids & Hend & Hlen).
    + apply distinct_NoDup. vm_compute. reflexivity.
    + split; [apply Hlen; vm_compute; lia |]. split; [exact Hids |].
      exact Hend.
Defined.

Example the_oldest_three_tools_are_dropped :
  let r := parseTranscript toyDate toyClock genParse "/t.jsonl"
                           (Some genTranscript) in
  firstn 3 (startsOf isToolStart genParse genTranscript)
  = ["tool-1"; "tool-2"; "tool-3"]
  /\ hd_error (map id (tools r)) = Some "tool-4"
  /\ last (map id (tools r)) EmptyString = "tool-23"
  /\ hd_error (map agent_id (agents r)) = Some "task-2"
  /\ last (map agent_id (agents r)) EmptyString = "task-11".
Proof. repeat split. Qed.

(** ** Malformed lines *)

Definition parses (JSON_parse : string -> option TranscriptLine)
           (line : string) : bool :=
  match JSON_parse line with Some _ => true | None => false end.

Lemma processLine_malformed Date_parse clock JSON_parse a line :
  JSON_parse line = None ->
  processLine Date_parse clock JSON_parse a line = a.
Proof.
  intros H. unfold processLine. rewrite H.
  now destruct (negb (truthyStr (trim line))).
Qed.

Lemma fold_skips_malformed Date_parse clock JSON_parse lines :
  forall a,
    fold_left (processLine Date_parse clock JSON_parse)
              (filter (parses JSON_parse) lines) a
    = fold_left (processLine Date_parse clock JSON_parse) lines a.
Proof.
  induction lines as [| line lines IH]; intros a; [reflexivity |].
  cbn [filter fold_left]. unfold parses at 1.
  destruct (JSON_parse line) as [e |] eqn:E.
  - cbn [fold_left]. apply IH.
  - rewrite IH. now rewrite (processLine_malformed _ _ _ a line E).
Qed.

(** C9.  A line that does not parse leaves the accumulated state as it
    was and the pass goes on: the result on a transcript is the result on
    the transcript without its malformed lines, and a malformed last line
    changes nothing. *)
Theorem malformed_lines_are_skipped
        (Date_parse : string -> Date) (clock : nat -> Z)
        (JSON_parse : string -> option TranscriptLine) :
  (forall transcriptPath lines,
      parseTranscript Date_parse clock JSON_parse transcriptPath (Some lines)
      = parseTranscript Date_parse clock JSON_parse transcriptPath
                        (Some (filter (parses JSON_parse) lines)))
  /\ (forall transcriptPath lines bad,
         JSON_parse bad = None ->
         parseTranscript Date_parse clock JSON_parse transcriptPath
                         (Some (lines ++ [bad])%list)
         = parseTranscript Date_parse clock JSON_parse transcriptPath
                           (Some lines))
  /\ (forall a line rest,
         JSON_parse line = None ->
         fold_left (processLine Date_parse clock JSON_parse) (line :: rest) a
         = fold_left (processLine Date_parse clock JSON_parse) rest a).
Proof.
  split; [| split].
  - intros transcriptPath lines. unfold parseTranscript, accumulate.
    now rewrite fold_skips_malformed.
  - intros transcriptPath lines bad Hbad.
    unfold parseTranscript, accumulate.
    rewrite fold_left_app. cbn [fold_left].
    now rewrite processLine_malformed.
  - intros a line rest Hbad. cbn [fold_left].
    now rewrite processLine_malformed.
Qed.

Lemma malformed_lines_are_skipped_witness :
  toyParse "{ type: assis" = None
  /\ run ["use-1"; "res-1"; "{ type: assis"] = run ["use-1"; "res-1"].
Proof.
  split; [reflexivity |].
  apply (proj1 (proj2 (malformed_lines_are_skipped toyDate toyClock toyParse))
           "/t.jsonl" ["use-1"; "res-1"] "{ type: assis").
  reflexivity.
Defined.

End TranscriptFacts.

(* ===================================================================== *)
(** * More properties of the usage fetcher *)
(* ===================================================================== *)

Module UsageMoreFacts.
Import Js UsageApi UsageFacts.
Local Open Scope string_scope.
Local Open Scope Z_scope.

(** ** Plan names *)

Lemma capitalize_nonempty (s : string) :
  truthyStr s = true -> truthyStr (capitalize s) = true.
Proof. now destruct s. Qed.

(** X1.  [getPlanName] gives no plan exactly when the subscription type
    names none of max, pro and team and either names api or is empty
    with no OAuth token; a plan name it gives is never the empty string;
    and max wins over pro, team and api. *)
Theorem getPlanName_null_only_for_api (subscriptionType_ : string)
        (hasOAuthToken : bool) :
  let lower := toLowerCase subscriptionType_ in
  (getPlanName subscriptionType_ hasOAuthToken = None
   <-> includes lower "max" = false
       /\ includes lower "pro" = false
       /\ includes lower "team" = false
       /\ (includes lower "api" = true
           \/ (subscriptionType_ = EmptyString /\ hasOAuthToken = false)))
  /\ (forall plan,
         getPlanName subscriptionType_ hasOAuthToken = Some plan ->
         truthyStr plan = true)
  /\ (includes lower "max" = true ->
      getPlanName subscriptionType_ hasOAuthToken = Some "Max").
Proof.
  intros lower. unfold getPlanName. fold lower.
  destruct (includes lower "max") eqn:Emax.
  { repeat split; try discriminate.
    - intros (H & _). discriminate H.
    - intros plan [= <-]. reflexivity. }
  destruct (includes lower "pro") eqn:Epro.
  { repeat split; try discriminate.
    - intros (_ & H & _). discriminate H.
    - intros plan [= <-]. reflexivity. }
  destruct (includes lower "team") eqn:Eteam.
  { repeat split; try discriminate.
    - intros (_ & _ & H & _). discriminate H.
    - intros plan [= <-]. reflexivity. }
  destruct (includes lower "api") eqn:Eapi.
  { repeat split; try discriminate; auto. }
  destruct subscriptionType_ as [| c rest]; cbn.
  - destruct hasOAuthToken; cbn.
    + repeat split; try discriminate.
      * intros (_ & _ & _ & [H | (_ & H)]); discriminate H.
      * intros plan [= <-]. reflexivity.
    + repeat split; try discriminate; auto.
  - repeat split; try discriminate.
    + intros (_ & _ & _ & [H | (H & _)]); discriminate H.
    + intros plan [= <-]. reflexivity.
Qed.

Lemma getPlanName_null_only_for_api_witness :
  getPlanName "claude_max_api" true = Some "Max".
Proof.
  apply (getPlanName_null_only_for_api "claude_max_api" true). reflexivity.
Defined.

(** ** The plan tier *)

Lemma parseMaxPlanInfo_cases (maxPlanType : nullable string)
      (tokensPerWindow_ : nullable number) (rateLimitTier_ : nullable string) :
  let m := parseMaxPlanInfo maxPlanType tokensPerWindow_ rateLimitTier_ in
  let explicit := parseMaxPlanInfo maxPlanType tokensPerWindow_ Undefined in
  (isActive m = true <-> tier m <> None)
  /\ (tier m = None <-> tokensPerWindow m = None)
  /\ (tier explicit <> None -> m = explicit)
  /\ (tier explicit = None ->
      m = parseMaxPlanInfo Undefined Undefined rateLimitTier_
      /\ (tokensPerWindow m = None
          \/ (tier m = Some Max20 /\ tokensPerWindow m = Some (ofZ 220000))
          \/ (tier m = Some Max5 /\ tokensPerWindow m = Some (ofZ 88000)))).
Proof.
  unfold parseMaxPlanInfo.
  destruct maxPlanType as [| |mp]; cbn -[includes toLowerCase String.eqb].
  3: destruct (truthyStr mp); cbn -[includes toLowerCase String.eqb].
  3: destruct (includes (toLowerCase mp) "max20"
               || (toLowerCase mp =? "20")%string);
    cbn -[includes toLowerCase String.eqb].
  4: destruct (includes (toLowerCase mp) "max5"
               || (toLowerCase mp =? "5")%string);
    cbn -[includes toLowerCase String.eqb].
  all: destruct rateLimitTier_ as [| |r]; cbn -[includes toLowerCase String.eqb].
  all: try (destruct (truthyStr r); cbn -[includes toLowerCase String.eqb]).
  all: try (destruct (includes (toLowerCase r) "max20"
                      || includes (toLowerCase r) "tier_20");
            cbn -[includes toLowerCase String.eqb]).
  all: try (destruct (includes (toLowerCase r) "max5"
                      || includes (toLowerCase r) "tier_5");
            cbn -[includes toLowerCase String.eqb]).
  all: repeat split; intros; try discriminate; try congruence; auto.
Qed.

(** X2.  In what [parseMaxPlanInfo] returns, [isActive] holds exactly
    when a tier was found, and a token count is there exactly when a tier
    is.  A tier read from [max_plan_type] makes the credentials' hint
    irrelevant; a tier read from the hint carries the fixed count of its
    tier, whatever [tokens_per_window] says. *)
Theorem parseMaxPlanInfo_consistent (maxPlanType : nullable string)
        (tokensPerWindow_ : nullable number)
        (rateLimitTier_ : nullable string) :
  let m := parseMaxPlanInfo maxPlanType tokensPerWindow_ rateLimitTier_ in
  let explicit := parseMaxPlanInfo maxPlanType tokensPerWindow_ Undefined in
  (isActive m = true <-> tier m <> None)
  /\ (tier m = None <-> tokensPerWindow m = None)
  /\ (tier explicit <> None -> m = explicit)
  /\ (tier explicit = None ->
      m = parseMaxPlanInfo Undefined Undefined rateLimitTier_
      /\ (tokensPerWindow m = None
          \/ (tier m = Some Max20 /\ tokensPerWindow m = Some (ofZ 220000))
          \/ (tier m = Some Max5 /\ tokensPerWindow m = Some (ofZ 88000)))).
Proof. apply parseMaxPlanInfo_cases. Qed.

Lemma parseMaxPlanInfo_consistent_witness :
  parseMaxPlanInfo (Val "max5") (Val (ofZ 100000)) (Val "default_max_20x")
  = parseMaxPlanInfo (Val "max5") (Val (ofZ 100000)) Undefined.
Proof.
  apply (parseMaxPlanInfo_consistent (Val "max5") (Val (ofZ 100000))
                                     (Val "default_max_20x")).
  discriminate.
Defined.

(** ** Clamping and rounding *)

Lemma clamp_round (lo hi : Z) (q : Q) :
  lo <= hi ->
  Math_round (Math_max (ofZ lo) (Math_min (ofZ hi) (Fin q)))
  = ofZ (Z.max lo (Z.min hi (Qfloor (q + (1 # 2))))).
Proof.
  intros Hlh.
  assert (Hz : forall z, Qfloor (inject_Z z + (1 # 2)) = z).
  { intros z.
    assert (H1 : z <= Qfloor (inject_Z z + (1 # 2))).
    { rewrite <- (Qfloor_Z z) at 1. apply Qfloor_resp_le. lra. }
    assert (H2 : Qfloor (inject_Z z + (1 # 2)) < z + 1).
    { rewrite Zlt_Qlt.
      eapply Qle_lt_trans; [apply Qfloor_le |].
      rewrite inject_Z_plus. change (inject_Z 1) with 1%Q. lra. }
    lia. }
  unfold Math_min, ofZ.
  destruct (Qle_bool (inject_Z hi) q) eqn:E1.
  - apply Qle_bool_iff in E1. unfold Math_max.
    assert (E : Qle_bool (inject_Z lo) (inject_Z hi) = true).
    { apply Qle_bool_iff. now rewrite <- Zle_Qle. }
    rewrite E. cbn [Math_round]. unfold ofZ. rewrite Hz.
    assert (Qfloor (inject_Z hi + (1 # 2)) <= Qfloor (q + (1 # 2)))
      by (apply Qfloor_resp_le; lra).
    rewrite Hz in H. do 2 f_equal. lia.
  - assert (Hq : (q < inject_Z hi)%Q).
    { destruct (Qlt_le_dec q (inject_Z hi)) as [Hlt | Hle]; [exact Hlt |].
      apply Qle_bool_iff in Hle. congruence. }
    assert (Hhi : Qfloor (q + (1 # 2)) <= hi).
    { rewrite <- (Hz hi). apply Qfloor_resp_le. lra. }
    unfold Math_max.
    destruct (Qle_bool (inject_Z lo) q) eqn:E2; cbn [Math_round]; unfold ofZ.
    + apply Qle_bool_iff in E2.
      assert (lo <= Qfloor (q + (1 # 2))).
      { rewrite <- (Hz lo). apply Qfloor_resp_le. lra. }
      do 2 f_equal. lia.
    + assert (Hn : (q < inject_Z lo)%Q).
      { destruct (Qlt_le_dec q (inject_Z lo)) as [Hlt | Hle]; [exact Hlt |].
        apply Qle_bool_iff in Hle. congruence. }
      assert (Qfloor (q + (1 # 2)) <= lo).
      { rewrite <- (Hz lo). apply Qfloor_resp_le. lra. }
      rewrite Hz. do 2 f_equal. lia.
Qed.

Lemma parseCompactionInfo_finite (q : Q) :
  parseCompactionInfo (Val (Fin q))
  = {| bufferPercent := ofZ (Z.max 50 (Z.min 100 (Qfloor (q + (1 # 2)))));
       isEnabled := true |}.
Proof.
  unfold parseCompactionInfo. cbn [isFinite negb].
  now rewrite clamp_round by lia.
Qed.

Lemma parseCompactionInfo_bounds (bufferPercent_ : nullable number) :
  exists z,
    50 <= z <= 100
    /\ bufferPercent (parseCompactionInfo bufferPercent_) = ofZ z.
Proof.
  destruct bufferPercent_ as [| |[| | |q]];
    try (exists 80; split; [lia | reflexivity]).
  rewrite parseCompactionInfo_finite. eexists. split; [| reflexivity]. lia.
Qed.

(** X3.  [parseCompactionInfo] always gives a whole buffer percentage
    from 50 to 100: the rounded report clamped to that range, marked
    enabled, when the server reports a finite number, and 80, marked not
    enabled, in every other case. *)
Theorem parseCompactionInfo_range (bufferPercent_ : nullable number) :
  (exists z,
      50 <= z <= 100
      /\ bufferPercent (parseCompactionInfo bufferPercent_) = ofZ z)
  /\ (forall q,
         parseCompactionInfo (Val (Fin q))
         = {| bufferPercent :=
                ofZ (Z.max 50 (Z.min 100 (Qfloor (q + (1 # 2)))));
              isEnabled := true |})
  /\ (isEnabled (parseCompactionInfo bufferPercent_) = false ->
      parseCompactionInfo bufferPercent_
      = {| bufferPercent := ofZ 80; isEnabled := false |})
  /\ (isEnabled (parseCompactionInfo bufferPercent_) = true
      <-> exists q, bufferPercent_ = Val (Fin q)).
Proof.
  split; [apply parseCompactionInfo_bounds |].
  split; [exact parseCompactionInfo_finite | split].
  - destruct bufferPercent_ as [| |[| | |q]]; try reflexivity.
    rewrite parseCompactionInfo_finite. discriminate.
  - destruct bufferPercent_ as [| |[| | |q]]; cbn;
      (split; [try discriminate | intros (q' & Hq'); try discriminate]).
    + intros _. now exists q.
    + reflexivity.
Qed.

Lemma parseCompactionInfo_range_witness :
  parseCompactionInfo (Val NaN)
  = {| bufferPercent := ofZ 80; isEnabled := false |}.
Proof.
  apply (parseCompactionInfo_range (Val NaN)). reflexivity.
Defined.

(** ** What a fresh payload holds *)

(** X4.  In a payload parsed from a response, the plan name is set and
    the failure flag is not; the quota list, when present, is not empty
    and has one entry per reported quota; the plan information, when
    present, names a tier, is active and carries a token count; the
    compaction information, when present, is enabled with a whole
    percentage from 50 to 100. *)
Theorem parseResponse_optional_fields Date_parse plan cred m t :
  let d := parseResponse Date_parse plan cred m t in
  planName d = Some plan
  /\ apiUnavailable d = false
  /\ (forall l,
         modelQuotas d = Some l ->
         l <> []
         /\ exists raw, model_quotas m = Val raw /\ length l = length raw)
  /\ (modelQuotas d = None
      <-> nullish (model_quotas m) = true \/ model_quotas m = Val [])
  /\ (forall mp,
         maxPlanInfo d = Some mp ->
         tier mp <> None /\ isActive mp = true /\ tokensPerWindow mp <> None)
  /\ (forall c,
         compactionInfo d = Some c ->
         isEnabled c = true
         /\ exists z, 50 <= z <= 100 /\ bufferPercent c = ofZ z).
Proof.
  cbn zeta. split; [reflexivity |]. split; [reflexivity |].
  split; [| split; [| split]].
  - intros l. cbn [modelQuotas parseResponse].
    destruct (model_quotas m) as [| |raw]; cbn; try discriminate.
    destruct raw as [| q raw]; cbn; [discriminate |].
    intros [= <-]. split; [discriminate |].
    eexists. split; [reflexivity |]. cbn. now rewrite length_map.
  - cbn [modelQuotas parseResponse].
    destruct (model_quotas m) as [| |raw]; cbn.
    + split; auto.
    + split; auto.
    + destruct raw as [| q raw]; cbn.
      * split; auto.
      * split; [discriminate | intros [H | H]; discriminate H].
  - intros mp. cbn [maxPlanInfo parseResponse].
    pose proof (parseMaxPlanInfo_cases (max_plan_type m) (tokens_per_window m)
                                       (cred_rateLimitTier cred))
      as (Hact & Htok & _).
    cbn zeta in Hact, Htok.
    destruct (tier (parseMaxPlanInfo _ _ _)) eqn:E; [| discriminate].
    intros [= <-]. rewrite E in *.
    split; [discriminate |]. split.
    + apply Hact. discriminate.
    + intros Hn. apply Htok in Hn. discriminate Hn.
  - intros c. cbn [compactionInfo parseResponse].
    destruct (isEnabled (parseCompactionInfo _)) eqn:E; [| discriminate].
    intros [= <-]. split; [exact E | apply parseCompactionInfo_bounds].
Qed.

Lemma parseResponse_optional_fields_witness :
  exists l,
    modelQuotas (parseResponse isoToy "Max" theCredentials enhanced 1000)
    = Some l
    /\ l <> [].
Proof.
  eexists. split; [reflexivity |].
  apply (parseResponse_optional_fields isoToy "Max" theCredentials enhanced
                                       1000).
  reflexivity.
Defined.

(** ** Credentials *)

(** X5.  Credentials that [readCredentials] returns carry a non-empty
    access token, taken from the file when the file has one and from the
    keychain otherwise, and an expiry, when there is one, strictly after
    the clock value; the subscription type defaults to the empty
    string. *)
Theorem readCredentials_postcondition (w : World) (t : Z)
        (cred : Credentials) :
  readCredentials w t = Some cred ->
  truthyStr (cred_accessToken cred) = true
  /\ exists d,
      resolveCredentialData w = Some d
      /\ chain (claudeAiOauth d) accessToken = Val (cred_accessToken cred)
      /\ cred_subscriptionType cred
         = orDefault (chain (claudeAiOauth d) subscriptionType) EmptyString
      /\ (forall e, chain (claudeAiOauth d) expiresAt = Val e -> t < e)
      /\ ((exists f, credentialsFile w = Some f /\ hasToken f = true /\ d = f)
          \/ ((credentialsFile w = None
               \/ exists f, credentialsFile w = Some f /\ hasToken f = false)
              /\ keychain w = Some d)).
Proof.
  unfold readCredentials.
  destruct (resolveCredentialData w) as [d |] eqn:Hd; [| discriminate].
  destruct (chain (claudeAiOauth d) accessToken) as [| |tok] eqn:Htok;
    cbn [truthyNStr negb orDefault]; try discriminate.
  destruct (truthyStr tok) eqn:Ht; cbn [negb]; [| discriminate].
  assert (Hsrc :
            (exists f, credentialsFile w = Some f /\ hasToken f = true /\ d = f)
            \/ ((credentialsFile w = None
                 \/ exists f, credentialsFile w = Some f
                               /\ hasToken f = false)
                /\ keychain w = Some d)).
  { unfold resolveCredentialData in Hd.
    destruct (credentialsFile w) as [f |].
    - destruct (hasToken f) eqn:Hf.
      + left. exists f. injection Hd as <-. auto.
      + right. split; [right; now exists f | exact Hd].
    - right. split; [now left | exact Hd]. }
  destruct (chain (claudeAiOauth d) expiresAt) as [| |e] eqn:He.
  1, 2: intros [= <-]; cbn; split; [exact Ht |];
    exists d; repeat split; auto;
    intros e' He'; rewrite He in He'; discriminate He'.
  destruct (Z.leb_spec e t); [discriminate |].
  intros [= <-]. cbn. split; [exact Ht |].
  exists d. repeat split; auto.
  intros e' He'. rewrite He in He'. injection He' as <-. assumption.
Qed.

Lemma readCredentials_postcondition_witness :
  truthyStr (cred_accessToken theCredentials) = true
  /\ exists d,
      resolveCredentialData world0 = Some d
      /\ chain (claudeAiOauth d) accessToken
         = Val (cred_accessToken theCredentials)
      /\ cred_subscriptionType theCredentials
         = orDefault (chain (claudeAiOauth d) subscriptionType) EmptyString
      /\ (forall e, chain (claudeAiOauth d) expiresAt = Val e -> 1000 < e)
      /\ ((exists f,
              credentialsFile world0 = Some f /\ hasToken f = true /\ d = f)
          \/ ((credentialsFile world0 = None
               \/ exists f,
                  credentialsFile world0 = Some f /\ hasToken f = false)
              /\ keychain world0 = Some d)).
Proof.
  apply (readCredentials_postcondition world0 1000 theCredentials).
  reflexivity.
Defined.

(** ** What one call does to the world *)

(** The outcomes of [getUsage], one by one. *)
Ltac usage_cases deps_ w :=
  unfold getUsage;
  destruct (readCache w (now deps_)) as [cached |] eqn:Hcache;
  [| destruct (readCredentials w (now deps_)) as [cred |] eqn:Hcred;
     [ destruct (getPlanName (cred_subscriptionType cred) true)
         as [plan |] eqn:Hplan;
       [ destruct (negb (truthyStr plan)) eqn:Hempty;
         [| destruct (fetchApi deps_ (cred_accessToken cred)
                               (cred_organizationUuid cred))
              as [| a] eqn:Ha;
            [| destruct (fetchUsageLimits deps_ (cred_accessToken cred)
                                          (cred_organizationUuid cred))
                 as [| b] eqn:Hb;
               [| destruct (mergeApiResponses a b) as [m |] eqn:Hm ] ] ]
       | ]
     | ] ].

Lemma cacheSlot_writeCache w h d t :
  cacheSlot (writeCache w h d t)
  = match writeFailure w with
    | NoFailure => Stored (jsonRoundTrip d) t
    | MkdirThrows =>
        if cacheDirExists w then Stored (jsonRoundTrip d) t else cacheSlot w
    | OpenThrows => cacheSlot w
    | WriteThrows => Unreadable
    end.
Proof.
  unfold writeCache. now destruct (writeFailure w), (cacheDirExists w).
Qed.

(** X6.  A call that returns [null] never reaches [writeCache]: the
    cache file and the directory are as before, and none of the
    file-system calls of [writeCache] (its [existsSync] on the cache
    directory, [mkdirSync], [writeFileSync]) was made. *)
Theorem getUsage_null_writes_nothing Date_parse deps_ w :
  fst (getUsage Date_parse deps_ w) = None ->
  cacheSlot (snd (getUsage Date_parse deps_ w)) = cacheSlot w
  /\ cacheDirExists (snd (getUsage Date_parse deps_ w)) = cacheDirExists w
  /\ fsLog (snd (getUsage Date_parse deps_ w)) = fsLog w.
Proof.
  usage_cases deps_ w; cbn [fst snd]; intros H; try discriminate H;
    repeat split.
Qed.

(** The token has expired and the cache record is 70 seconds old. *)
Definition staleExpiredWorld : World :=
  withCache expiringWorld
    (Stored (parseResponse isoToy "Max" theCredentials legacy 930000) 930000).

Lemma getUsage_null_writes_nothing_witness :
  cacheSlot (snd (getUsage isoToy (deps 1000000) staleExpiredWorld))
  = cacheSlot staleExpiredWorld
  /\ cacheDirExists (snd (getUsage isoToy (deps 1000000) staleExpiredWorld))
     = cacheDirExists staleExpiredWorld
  /\ fsLog (snd (getUsage isoToy (deps 1000000) staleExpiredWorld))
     = fsLog staleExpiredWorld.
Proof.
  apply (getUsage_null_writes_nothing isoToy (deps 1000000)
                                      staleExpiredWorld).
  reflexivity.
Defined.

(** X7.  One call invokes either no fetch function or both, each once,
    with the token and the organization of the credentials it read; on a
    cache hit it invokes none. *)
Theorem getUsage_fetches_none_or_both Date_parse deps_ w :
  (fetchLog (snd (getUsage Date_parse deps_ w)) = fetchLog w
   \/ exists cred,
      readCache w (now deps_) = None
      /\ readCredentials w (now deps_) = Some cred
      /\ fetchLog (snd (getUsage Date_parse deps_ w))
         = (fetchLog w ++ roundTrip cred)%list)
  /\ (readCache w (now deps_) <> None ->
      fetchLog (snd (getUsage Date_parse deps_ w)) = fetchLog w).
Proof.
  split.
  - usage_cases deps_ w; cbn [fst snd]; try (left; reflexivity);
      right; exists cred; repeat split;
      rewrite ?fetchLog_writeCache; reflexivity.
  - intros H. unfold getUsage.
    destruct (readCache w (now deps_)); [reflexivity | congruence].
Qed.

Lemma getUsage_fetches_none_or_both_witness :
  fetchLog (snd (getUsage isoToy (depsDown 30000) worldAfterSuccess))
  = fetchLog worldAfterSuccess.
Proof.
  apply (getUsage_fetches_none_or_both isoToy (depsDown 30000)
                                       worldAfterSuccess).
  discriminate.
Defined.

(** X8.  When either fetch promise rejects, the call returns [null] and
    caches nothing, although both requests were made. *)
Theorem rejected_fetch_gives_null Date_parse deps_ w cred plan :
  goesToNetwork w (now deps_) cred plan ->
  fetchApi deps_ (cred_accessToken cred) (cred_organizationUuid cred)
  = Rejects
  \/ fetchUsageLimits deps_ (cred_accessToken cred)
                      (cred_organizationUuid cred)
     = Rejects ->
  getUsage Date_parse deps_ w = (None, logFetch w (roundTrip cred))
  /\ cacheSlot (snd (getUsage Date_parse deps_ w)) = cacheSlot w.
Proof.
  intros Hn Hrej. rewrite (getUsage_network _ _ _ _ _ Hn). cbn zeta.
  destruct Hrej as [-> | Hb].
  - now split.
  - rewrite Hb. destruct (fetchApi deps_ _ _); now split.
Qed.

(** The legacy endpoint answers, the enhanced one rejects. *)
Definition depsReject (t : Z) : Deps :=
  {| homeDir := "/home/u"; now := t;
     fetchApi := fun _ _ => Resolves (Some legacy);
     fetchUsageLimits := fun _ _ => Rejects |}.

Lemma rejected_fetch_gives_null_witness :
  getUsage isoToy (depsReject 1000) world0
  = (None, logFetch world0 (roundTrip theCredentials))
  /\ cacheSlot (snd (getUsage isoToy (depsReject 1000) world0))
     = cacheSlot world0.
Proof.
  apply (rejected_fetch_gives_null isoToy (depsReject 1000) world0
                                   theCredentials "Max").
  - apply world0_goesToNetwork. cbn. lia.
  - right. reflexivity.
Defined.

Definition withFailure (w : World) (f : WriteFailure) : World :=
  {| cacheSlot := cacheSlot w;
     cacheDirExists := cacheDirExists w;
     writeFailure := f;
     credentialsFile := credentialsFile w;
     keychain := keychain w;
     fetchLog := fetchLog w;
     fsLog := fsLog w |}.

(** X9.  Which call of a cache write throws, if any, has no bearing on
    what a call of [getUsage] returns or on the requests it makes.  When
    [writeFileSync] throws before it has opened the file, or [mkdirSync]
    throws for a missing directory, the cache file is left as it was.
    When [writeFileSync] throws after it has truncated the file, a call
    that missed the cache and returned a payload leaves a file that does
    not parse, which the next call reads as a miss. *)
Theorem unwritable_cache_changes_no_result Date_parse deps_ w f :
  let after f' :=
    cacheSlot (snd (getUsage Date_parse deps_ (withFailure w f'))) in
  fst (getUsage Date_parse deps_ (withFailure w f))
  = fst (getUsage Date_parse deps_ w)
  /\ fetchLog (snd (getUsage Date_parse deps_ (withFailure w f)))
     = fetchLog (snd (getUsage Date_parse deps_ w))
  /\ after OpenThrows = cacheSlot w
  /\ (cacheDirExists w = false -> after MkdirThrows = cacheSlot w)
  /\ (readCache w (now deps_) = None ->
      fst (getUsage Date_parse deps_ w) <> None ->
      after WriteThrows = Unreadable
      /\ forall t,
          readCache (snd (getUsage Date_parse deps_ (withFailure w WriteThrows)))
                    t = None).
Proof.
  intros after. subst after. cbv beta.
  assert (Hslot :
            forall f',
              cacheSlot (snd (getUsage Date_parse deps_ (withFailure w f')))
              = cacheSlot w
              \/ (readCache w (now deps_) = None
                  /\ fst (getUsage Date_parse deps_ w) <> None
                  /\ exists d,
                      cacheSlot
                        (snd (getUsage Date_parse deps_ (withFailure w f')))
                      = cacheSlot
                          (writeCache (withFailure w f') (homeDir deps_) d
                                      (now deps_)))).
  { intros f'. unfold getUsage.
    change (readCache (withFailure w f') (now deps_))
      with (readCache w (now deps_)).
    change (readCredentials (withFailure w f') (now deps_))
      with (readCredentials w (now deps_)).
    destruct (readCache w (now deps_)); [now left |].
    destruct (readCredentials w (now deps_)) as [cred |]; [| now left].
    destruct (getPlanName _ _) as [plan |]; [| now left].
    destruct (negb (truthyStr plan)); [now left |].
    destruct (fetchApi deps_ _ _) as [| a]; [now left |].
    destruct (fetchUsageLimits deps_ _ _) as [| b']; [now left |].
    right. split; [reflexivity |].
    destruct (mergeApiResponses a b'); cbn [fst snd];
      (split; [discriminate |]); eexists;
      rewrite !cacheSlot_writeCache; reflexivity. }
  assert (Hres : fst (getUsage Date_parse deps_ (withFailure w f))
                 = fst (getUsage Date_parse deps_ w)
                 /\ fetchLog (snd (getUsage Date_parse deps_ (withFailure w f)))
                    = fetchLog (snd (getUsage Date_parse deps_ w))).
  { unfold getUsage.
    change (readCache (withFailure w f) (now deps_))
      with (readCache w (now deps_)).
    change (readCredentials (withFailure w f) (now deps_))
      with (readCredentials w (now deps_)).
    destruct (readCache w (now deps_)); [now split |].
    destruct (readCredentials w (now deps_)) as [cred |]; [| now split].
    destruct (getPlanName _ _) as [plan |]; [| now split].
    destruct (negb (truthyStr plan)); [now split |].
    destruct (fetchApi deps_ _ _) as [| a]; [now split |].
    destruct (fetchUsageLimits deps_ _ _) as [| b']; [now split |].
    destruct (mergeApiResponses a b'); cbn [fst snd];
      rewrite ?fetchLog_writeCache; now split. }
  split; [apply Hres |]. split; [apply Hres |]. split; [| split].
  - destruct (Hslot OpenThrows) as [H | (_ & _ & d & H)]; [exact H |].
    rewrite H, cacheSlot_writeCache. reflexivity.
  - intros Hdir.
    destruct (Hslot MkdirThrows) as [H | (_ & _ & d & H)]; [exact H |].
    rewrite H, cacheSlot_writeCache. cbn [writeFailure cacheDirExists
                                          withFailure].
    now rewrite Hdir.
  - intros Hmiss Hsome.
    assert (Hun : cacheSlot (snd (getUsage Date_parse deps_
                                           (withFailure w WriteThrows)))
                  = Unreadable).
    { revert Hsome. unfold getUsage.
      change (readCache (withFailure w WriteThrows) (now deps_))
        with (readCache w (now deps_)).
      change (readCredentials (withFailure w WriteThrows) (now deps_))
        with (readCredentials w (now deps_)).
      rewrite Hmiss.
      destruct (readCredentials w (now deps_)) as [cred |];
        [| intros H; now destruct H].
      destruct (getPlanName _ _) as [plan |]; [| intros H; now destruct H].
      destruct (negb (truthyStr plan)); [intros H; now destruct H |].
      destruct (fetchApi deps_ _ _) as [| a]; [intros H; now destruct H |].
      destruct (fetchUsageLimits deps_ _ _) as [| b'];
        [intros H; now destruct H |].
      destruct (mergeApiResponses a b'); intros _; cbn [snd];
        now rewrite cacheSlot_writeCache. }
    split; [exact Hun |]. intros t. unfold readCache. now rewrite Hun.
Qed.

Lemma unwritable_cache_changes_no_result_witness :
  cacheSlot (snd (getUsage isoToy (deps 1000) (withFailure world0 MkdirThrows)))
  = cacheSlot world0
  /\ cacheSlot (snd (getUsage isoToy (deps 100000)
                              (withFailure worldAfterSuccess WriteThrows)))
     = Unreadable.
Proof.
  split.
  - apply (proj1 (proj2 (proj2 (proj2
             (unwritable_cache_changes_no_result
                isoToy (deps 1000) world0 MkdirThrows))))).
    reflexivity.
  - apply (proj2 (proj2 (proj2 (proj2
             (unwritable_cache_changes_no_result
                isoToy (deps 100000) worldAfterSuccess WriteThrows))))).
    + reflexivity.
    + discriminate.
Defined.

Example truncated_write_loses_the_old_record :
  cacheSlot worldAfterSuccess <> Unreadable
  /\ fst (getUsage isoToy (deps 100000)
                   (withFailure worldAfterSuccess WriteThrows))
     = fst (getUsage isoToy (deps 100000) worldAfterSuccess)
  /\ cacheSlot (snd (getUsage isoToy (deps 100000)
                              (withFailure worldAfterSuccess WriteThrows)))
     = Unreadable.
Proof. repeat split. discriminate. Qed.

(** X10.  Whatever payload a call returns, fresh or cached, a countdown
    that goes with a reset date is the one computed from that date and
    the clock value of this very call. *)
Theorem countdowns_follow_the_clock Date_parse deps_ w d :
  fst (getUsage Date_parse deps_ w) = Some d ->
  (forall t,
      fiveHourResetAt d = Some t ->
      fiveHourResetIn d = Some (formatTimeToReset t (now deps_)))
  /\ (forall t,
         sevenDayResetAt d = Some t ->
         sevenDayResetIn d = Some (formatTimeToReset t (now deps_))).
Proof.
  usage_cases deps_ w; cbn [fst snd]; intros H; try discriminate H;
    injection H as <-; cbn; split; intros t Ht;
    try discriminate Ht; now rewrite Ht.
Qed.

(** The payload in the cache after the successful fetch at 1000. *)
Definition cachedPayload : UsageData :=
  match cacheSlot worldAfterSuccess with
  | Stored d _ => d
  | _ => failureResult EmptyString
  end.

Lemma countdowns_follow_the_clock_witness :
  fiveHourResetIn (refreshCountdowns cachedPayload 30000)
  = Some (formatTimeToReset 18000000 30000).
Proof.
  apply (proj1 (countdowns_follow_the_clock
                  isoToy (depsDown 30000) worldAfterSuccess
                  (refreshCountdowns cachedPayload 30000) eq_refl)).
  reflexivity.
Defined.

(** ** Two calls in a row *)

(** What the first of two calls returns when it goes to the network and
    both promises resolve. *)
Definition firstResult Date_parse (plan : string) (cred : Credentials)
           (a b : option ApiResponse) (t : Z) : UsageData :=
  match mergeApiResponses a b with
  | Some m => parseResponse Date_parse plan cred m t
  | None => failureResult plan
  end.

(** The lifetime of what the first call caches. *)
Definition lifetime (a b : option ApiResponse) : Z :=
  match mergeApiResponses a b with
  | Some _ => CACHE_TTL_MS
  | None => CACHE_FAILURE_TTL_MS
  end.

Lemma first_call Date_parse deps_ w cred plan a b :
  goesToNetwork w (now deps_) cred plan ->
  fetchApi deps_ (cred_accessToken cred) (cred_organizationUuid cred)
  = Resolves a ->
  fetchUsageLimits deps_ (cred_accessToken cred) (cred_organizationUuid cred)
  = Resolves b ->
  getUsage Date_parse deps_ w
  = (Some (firstResult Date_parse plan cred a b (now deps_)),
     writeCache (logFetch w (roundTrip cred)) (homeDir deps_)
                (firstResult Date_parse plan cred a b (now deps_))
                (now deps_)).
Proof.
  intros Hn Ha Hb. rewrite (getUsage_network _ _ _ _ _ Hn). cbn zeta.
  rewrite Ha, Hb. unfold firstResult.
  now destruct (mergeApiResponses a b).
Qed.

Lemma firstResult_flag Date_parse plan cred a b t :
  (if apiUnavailable (jsonRoundTrip (firstResult Date_parse plan cred a b t))
   then 15000 else 60000)
  = lifetime a b.
Proof.
  unfold firstResult, lifetime. now destruct (mergeApiResponses a b).
Qed.

(** X11.  After a call that went to the network and whose cache write
    went through, a second call under the same home directory, within
    the lifetime of what was cached (60 seconds for a parsed response,
    15 for the failure payload), returns that payload as the file gives
    it back (the reset dates of its quotas as ISO text), with the
    countdowns recomputed, and makes no request, whatever the endpoints
    would answer by then; for the failure payload that is the failure
    payload itself. *)
Theorem second_call_is_served_from_cache Date_parse deps1 deps2 w cred plan
        a b :
  goesToNetwork w (now deps1) cred plan ->
  fetchApi deps1 (cred_accessToken cred) (cred_organizationUuid cred)
  = Resolves a ->
  fetchUsageLimits deps1 (cred_accessToken cred) (cred_organizationUuid cred)
  = Resolves b ->
  writeFailure w = NoFailure ->
  homeDir deps2 = homeDir deps1 ->
  now deps2 - now deps1 < lifetime a b ->
  let r1 := firstResult Date_parse plan cred a b (now deps1) in
  let w1 := snd (getUsage Date_parse deps1 w) in
  fst (getUsage Date_parse deps1 w) = Some r1
  /\ getUsage Date_parse deps2 w1
     = (Some (refreshCountdowns (jsonRoundTrip r1) (now deps2)), w1)
  /\ fetchLog (snd (getUsage Date_parse deps2 w1))
     = (fetchLog w ++ roundTrip cred)%list
  /\ (mergeApiResponses a b = None ->
      fst (getUsage Date_parse deps2 w1) = Some (failureResult plan)).
Proof.
  intros Hn Ha Hb Hw Hhome Ht r1 w1.
  assert (H1 : getUsage Date_parse deps1 w
               = (Some r1,
                  writeCache (logFetch w (roundTrip cred)) (homeDir deps1)
                             r1 (now deps1)))
    by now apply first_call.
  assert (Hslot : cacheSlot w1 = Stored (jsonRoundTrip r1) (now deps1)).
  { subst w1. rewrite H1. cbn [snd]. rewrite cacheSlot_writeCache.
    cbn [writeFailure logFetch]. now rewrite Hw. }
  assert (H2 : getUsage Date_parse deps2 w1
               = (Some (refreshCountdowns (jsonRoundTrip r1) (now deps2)),
                  w1)).
  { apply getUsage_cached. rewrite (readCache_stored _ _ _ _ Hslot).
    subst r1. rewrite firstResult_flag.
    destruct (Z.ltb_spec (now deps2 - now deps1) (lifetime a b));
      [reflexivity | lia]. }
  split; [now rewrite H1 |]. split; [exact H2 |]. split.
  - rewrite H2. cbn [snd]. subst w1. rewrite H1. cbn [snd].
    now rewrite fetchLog_writeCache.
  - intros Hm. rewrite H2. cbn [fst]. subst r1. unfold firstResult.
    now rewrite Hm.
Qed.

Lemma second_call_is_served_from_cache_witness :
  fst (getUsage isoToy (deps 15999)
                (snd (getUsage isoToy (depsDown 1000) world0)))
  = Some (failureResult "Max").
Proof.
  apply (second_call_is_served_from_cache
           isoToy (depsDown 1000) (deps 15999) world0 theCredentials "Max"
           None None).
  - apply world0_goesToNetwork. cbn. lia.
  - reflexivity.
  - reflexivity.
  - reflexivity.
  - reflexivity.
  - unfold lifetime, CACHE_FAILURE_TTL_MS. cbn. lia.
  - reflexivity.
Defined.

(** ** The payload through the cache file *)

(** A raw number that [JSON.stringify] keeps: absent, or finite. *)
Definition writable (x : nullable number) : bool :=
  match x with Val n => isFinite n | _ => true end.

Definition quotaWritable (q : RawQuota) : bool :=
  writable (weekly_hours_used q) && writable (weekly_hours_limit q)
  && writable (tokens_used q) && writable (tokens_limit q).

Definition responseWritable (m : ApiResponse) : bool :=
  writable (tokens_per_window m)
  && match model_quotas m with
     | Val qs => forallb quotaWritable qs
     | _ => true
     end.

Lemma jsonNumber_orNull (x : nullable number) :
  writable x = true -> jsonNumber (orNull x) = orNull x.
Proof. destruct x as [| |[| | |q]]; cbn; congruence. Qed.

(** A quota with its reset date as ISO text. *)
Definition quotaDateAsText (q : ModelQuota) : ModelQuota :=
  {| modelId := modelId q;
     displayName := displayName q;
     weeklyHoursUsed := weeklyHoursUsed q;
     weeklyHoursLimit := weeklyHoursLimit q;
     tokensUsed := tokensUsed q;
     tokensLimit := tokensLimit q;
     mq_utilization := mq_utilization q;
     resetsAt := option_map stringified (resetsAt q) |}.

(** The payload with the reset date of every quota as ISO text, and
    everything else, the two reset dates of the windows included, as it
    is. *)
Definition quotaDatesAsText (d : UsageData) : UsageData :=
  {| planName := planName d;
     fiveHour := fiveHour d;
     sevenDay := sevenDay d;
     fiveHourResetAt := fiveHourResetAt d;
     sevenDayResetAt := sevenDayResetAt d;
     apiUnavailable := apiUnavailable d;
     modelQuotas := option_map (map quotaDateAsText) (modelQuotas d);
     maxPlanInfo := maxPlanInfo d;
     compactionInfo := compactionInfo d;
     organizationUuid := organizationUuid d;
     fiveHourResetIn := fiveHourResetIn d;
     sevenDayResetIn := sevenDayResetIn d |}.

Lemma jsonQuota_parsed Date_parse (qs : list RawQuota) :
  forallb quotaWritable qs = true ->
  map jsonQuota (parseModelQuotas Date_parse (Val qs))
  = map quotaDateAsText (parseModelQuotas Date_parse (Val qs)).
Proof.
  cbn. induction qs as [| q qs IH]; cbn; intros H; [reflexivity |].
  apply andb_prop in H as [Hq Hqs]. rewrite (IH Hqs). f_equal.
  unfold quotaWritable in Hq.
  apply andb_prop in Hq as [Hq H4]. apply andb_prop in Hq as [Hq H3].
  apply andb_prop in Hq as [H1 H2].
  unfold jsonQuota, quotaDateAsText; cbn.
  rewrite !jsonNumber_orNull by assumption.
  now rewrite (jsonNumber_ok _ (parseUtilization_ok _)).
Qed.

Lemma quotaDateAsText_undated (qs : list ModelQuota) :
  (forall q, In q qs -> resetsAt q = None) -> map quotaDateAsText qs = qs.
Proof.
  induction qs as [| q qs IH]; intros H; [reflexivity |]. cbn.
  rewrite IH by (intros q' Hq'; apply H; now right). f_equal.
  pose proof (H q (or_introl eq_refl)) as Hq.
  destruct q; cbn in Hq |- *. now subst.
Qed.

Lemma jsonPlan_parsed mp tpw tierHint :
  writable tpw = true ->
  jsonPlan (parseMaxPlanInfo mp tpw tierHint)
  = parseMaxPlanInfo mp tpw tierHint.
Proof.
  intros Hw. unfold parseMaxPlanInfo, jsonPlan.
  destruct mp as [| |m]; cbn -[includes toLowerCase String.eqb].
  3: destruct (truthyStr m); cbn -[includes toLowerCase String.eqb].
  3: destruct (includes (toLowerCase m) "max20"
               || (toLowerCase m =? "20")%string);
    cbn -[includes toLowerCase String.eqb].
  4: destruct (includes (toLowerCase m) "max5"
               || (toLowerCase m =? "5")%string);
    cbn -[includes toLowerCase String.eqb].
  all: destruct tierHint as [| |r]; cbn -[includes toLowerCase String.eqb].
  all: try (destruct (truthyStr r); cbn -[includes toLowerCase String.eqb]).
  all: try (destruct (includes (toLowerCase r) "max20"
                      || includes (toLowerCase r) "tier_20");
            cbn -[includes toLowerCase String.eqb]).
  all: try (destruct (includes (toLowerCase r) "max5"
                      || includes (toLowerCase r) "tier_5");
            cbn -[includes toLowerCase String.eqb]).
  all: try reflexivity.
  all: destruct tpw as [| |[| | |q]]; try reflexivity; discriminate.
Qed.

Lemma roundTrip_parsed Date_parse plan cred m t :
  responseWritable m = true ->
  jsonRoundTrip (parseResponse Date_parse plan cred m t)
  = quotaDatesAsText (parseResponse Date_parse plan cred m t).
Proof.
  intros Hw. apply andb_prop in Hw as [Htpw Hq].
  unfold jsonRoundTrip, quotaDatesAsText, parseResponse.
  cbn [planName fiveHour sevenDay fiveHourResetAt sevenDayResetAt
       apiUnavailable modelQuotas maxPlanInfo compactionInfo
       organizationUuid fiveHourResetIn sevenDayResetIn].
  rewrite !(jsonNumber_ok _ (parseUtilization_ok _)).
  f_equal.
  - destruct (model_quotas m) as [| |qs]; try reflexivity.
    pose proof (jsonQuota_parsed Date_parse qs Hq) as Hmap.
    destruct (parseModelQuotas Date_parse (Val qs)); [reflexivity |].
    cbn [option_map]. now rewrite Hmap.
  - destruct (tier (parseMaxPlanInfo _ _ _)); [| reflexivity].
    cbn [option_map]. now rewrite jsonPlan_parsed.
Qed.

(** X12.  A payload parsed from a response whose raw numbers (the token
    count per window and the hours and tokens of each quota) are absent
    or finite comes back from the cache file as it was written, but for
    the reset date of each quota: written as a date, it comes back as its
    ISO text, since only the two reset dates of the windows are made
    dates again.  So the payload comes back exactly when no quota has a
    reset date.  The failure payload comes back exactly, and what came
    back once comes back the same again. *)
Theorem payload_survives_the_cache_file :
  (forall Date_parse plan cred m t,
      responseWritable m = true ->
      jsonRoundTrip (parseResponse Date_parse plan cred m t)
      = quotaDatesAsText (parseResponse Date_parse plan cred m t))
  /\ (forall Date_parse plan cred m t,
         responseWritable m = true ->
         (forall q, In q (parseModelQuotas Date_parse (model_quotas m)) ->
                    resetsAt q = None) ->
         jsonRoundTrip (parseResponse Date_parse plan cred m t)
         = parseResponse Date_parse plan cred m t)
  /\ (forall q ms,
         resetsAt q = Some (DateObject ms) ->
         resetsAt (jsonQuota q) = Some (IsoText ms)
         /\ jsonQuota q <> q)
  /\ (forall d,
         fiveHourResetAt (jsonRoundTrip d) = fiveHourResetAt d
         /\ sevenDayResetAt (jsonRoundTrip d) = sevenDayResetAt d)
  /\ (forall plan, jsonRoundTrip (failureResult plan) = failureResult plan)
  /\ (forall d, jsonRoundTrip (jsonRoundTrip d) = jsonRoundTrip d).
Proof.
  split; [exact roundTrip_parsed |]. split; [| split; [| split; [| split]]].
  - intros Date_parse plan cred m t Hw Hnone.
    rewrite (roundTrip_parsed _ _ _ _ _ Hw).
    unfold quotaDatesAsText, parseResponse.
    cbn [planName fiveHour sevenDay fiveHourResetAt sevenDayResetAt
         apiUnavailable modelQuotas maxPlanInfo compactionInfo
         organizationUuid fiveHourResetIn sevenDayResetIn].
    f_equal.
    destruct (parseModelQuotas Date_parse (model_quotas m)) as [| q0 qs]
      eqn:E; [reflexivity |].
    cbn [option_map]. now rewrite (quotaDateAsText_undated _ Hnone).
  - intros q ms Hq. unfold jsonQuota at 1. cbn [resetsAt]. rewrite Hq.
    split; [reflexivity |]. intros E.
    apply (f_equal resetsAt) in E. unfold jsonQuota in E. cbn [resetsAt] in E.
    rewrite Hq in E. discriminate E.
  - intros d. split; reflexivity.
  - reflexivity.
  - intros d. unfold jsonRoundTrip.
    cbn [planName fiveHour sevenDay fiveHourResetAt sevenDayResetAt
         apiUnavailable modelQuotas maxPlanInfo compactionInfo
         organizationUuid fiveHourResetIn sevenDayResetIn].
    assert (Hn : forall n, jsonNumber (jsonNumber n) = jsonNumber n).
    { intros [[| | |q] |]; reflexivity. }
    rewrite !Hn. f_equal.
    + destruct (modelQuotas d) as [l |]; [| reflexivity]. cbn. f_equal.
      rewrite map_map. apply map_ext. intros q. unfold jsonQuota; cbn.
      rewrite !Hn. now destruct (resetsAt q) as [[] |].
    + destruct (maxPlanInfo d) as [mp |]; [| reflexivity]. cbn.
      unfold jsonPlan; cbn. now rewrite Hn.
Qed.

(** A response with two quotas, one of them with a reset date, and with
    raw numbers. *)
Definition quotaResponse : ApiResponse :=
  {| five_hour :=
       Val {| utilization := Val (ofZ 40);
              resets_at := Val "1970-01-01T05:00:00.000Z" |};
     seven_day := Undefined;
     model_quotas :=
       Val [ {| model_id := Val "opus"; display_name := Val "Opus";
                weekly_hours_used := Val (ofZ 3);
                weekly_hours_limit := Val (ofZ 40);
                tokens_used := Val (ofZ 1000); tokens_limit := Null;
                q_utilization := Val (ofZ 75);
                q_resets_at := Val "1970-01-08T00:00:00.000Z" |};
             {| model_id := Val "sonnet"; display_name := Undefined;
                weekly_hours_used := Undefined;
                weekly_hours_limit := Undefined;
                tokens_used := Val (ofZ 20); tokens_limit := Val (ofZ 500);
                q_utilization := Val (ofZ 10);
                q_resets_at := Undefined |} ];
     max_plan_type := Val "max5";
     compaction_buffer := Val (ofZ 70);
     tokens_per_window := Val (ofZ 90000) |}.

Lemma payload_survives_the_cache_file_witness :
  jsonRoundTrip (parseResponse isoToy "Max" theCredentials quotaResponse 1000)
  = quotaDatesAsText
      (parseResponse isoToy "Max" theCredentials quotaResponse 1000)
  /\ jsonRoundTrip (parseResponse isoToy "Max" theCredentials legacy 1000)
     = parseResponse isoToy "Max" theCredentials legacy 1000.
Proof.
  split.
  - apply (proj1 payload_survives_the_cache_file). reflexivity.
  - apply (proj1 (proj2 payload_survives_the_cache_file)).
    + reflexivity.
    + intros q [].
Defined.

Example quota_date_comes_back_as_text :
  option_map (map resetsAt)
             (modelQuotas
                (parseResponse isoToy "Max" theCredentials quotaResponse 1000))
  = Some [Some (DateObject 604800000); None]
  /\ option_map (map resetsAt)
                (modelQuotas
                   (jsonRoundTrip
                      (parseResponse isoToy "Max" theCredentials
                                     quotaResponse 1000)))
     = Some [Some (IsoText 604800000); None]
  /\ fiveHourResetAt
       (jsonRoundTrip
          (parseResponse isoToy "Max" theCredentials quotaResponse 1000))
     = Some 18000000.
Proof. repeat split. Qed.

(** The legacy endpoint reports the two quotas. *)
Definition depsQuotas (t : Z) : Deps :=
  {| homeDir := "/home/u"; now := t;
     fetchApi := fun _ _ => Resolves (Some quotaResponse);
     fetchUsageLimits := fun _ _ => Resolves None |}.

Example second_call_gives_quota_dates_as_text :
  let first := getUsage isoToy (depsQuotas 1000) world0 in
  let second := getUsage isoToy (depsQuotas 30000) (snd first) in
  option_map (fun d => option_map (map resetsAt) (modelQuotas d)) (fst first)
  = Some (Some [Some (DateObject 604800000); None])
  /\ option_map (fun d => option_map (map resetsAt) (modelQuotas d))
                (fst second)
     = Some (Some [Some (IsoText 604800000); None])
  /\ option_map fiveHourResetAt (fst second) = Some (Some 18000000)
  /\ fetchLog (snd second) = fetchLog (snd first).
Proof. repeat split. Qed.

End UsageMoreFacts.

(* ===================================================================== *)
(** * Properties of what the renderers read *)
(* ===================================================================== *)

Module RenderFacts.
Import Js UsageApi UsageFacts Render.
Local Open Scope string_scope.
Local Open Scope Z_scope.

(** ** Countdowns *)

(** X13.  For a reset that lies ahead, the renderer's own countdown is
    the text the fetcher stores; for one that does not, the fetcher says
    [now] and the renderer says nothing.  A remainder of up to 59 minutes
    is shown in whole minutes, rounded up, so never as [0m]. *)
Theorem formatResetTime_agrees_with_fetcher (r now_ : Z) :
  formatResetTime (Some r) now_
  = (if r <=? now_ then EmptyString else formatTimeToReset r now_)
  /\ (r <= now_ -> formatTimeToReset r now_ = "now")
  /\ (0 < r - now_ <= 3540000 ->
      1 <= (r - now_ + 59999) / 60000 <= 59
      /\ formatTimeToReset r now_ = showZ ((r - now_ + 59999) / 60000) ++ "m").
Proof.
  split; [| split].
  - unfold formatResetTime, formatTimeToReset.
    destruct (Z.leb_spec r now_) as [Hle | Hlt].
    + destruct (Z.leb_spec (r - now_) 0); [reflexivity | lia].
    + destruct (Z.leb_spec (r - now_) 0); [lia |].
      destruct (_ <? 60); [reflexivity |].
      set (hours := (r - now_ + 59999) / 60000 / 60).
      destruct (Z.leb_spec 24 hours), (Z.ltb_spec hours 24);
        (reflexivity || lia).
  - intros H. unfold formatTimeToReset.
    destruct (Z.leb_spec (r - now_) 0); [reflexivity | lia].
  - intros H.
    assert (Hm : 1 <= (r - now_ + 59999) / 60000 <= 59).
    { split.
      - apply Z.div_le_lower_bound; lia.
      - apply Z.lt_succ_r, Z.div_lt_upper_bound; lia. }
    split; [exact Hm |]. unfold formatTimeToReset.
    destruct (Z.leb_spec (r - now_) 0); [lia |].
    destruct (Z.ltb_spec ((r - now_ + 59999) / 60000) 60);
      [reflexivity | lia].
Qed.

Lemma formatResetTime_agrees_with_fetcher_witness :
  1 <= (60001 - 0 + 59999) / 60000 <= 59
  /\ formatTimeToReset 60001 0 = showZ ((60001 - 0 + 59999) / 60000) ++ "m".
Proof.
  apply (formatResetTime_agrees_with_fetcher 60001 0). lia.
Defined.

(** ** The limit warning *)

Lemma is100_ofZ (z : Z) : is100 (Some (ofZ z)) = (z =? 100).
Proof.
  unfold is100, ofZ.
  destruct (Z.eqb_spec z 100) as [-> | Hne]; [reflexivity |].
  destruct (Qeq_bool (inject_Z z) (inject_Z 100)) eqn:E; [| reflexivity].
  apply Qeq_bool_iff in E. rewrite inject_Z_injective in E. contradiction.
Qed.

(** A raw utilization that rounds to 100 or beyond. *)
Definition reachesLimit (x : nullable number) : bool :=
  match x with
  | Val (Fin q) => Qle_bool (199 # 2) q
  | _ => false
  end.

Lemma is100_parseUtilization (x : nullable number) :
  is100 (parseUtilization x) = reachesLimit x.
Proof.
  destruct x as [| |[| | |q]]; try reflexivity.
  rewrite parseUtilization_finite, is100_ofZ. cbn [reachesLimit].
  destruct (Qle_bool (199 # 2) q) eqn:E.
  - apply Qle_bool_iff in E.
    assert (Qfloor (inject_Z 100) <= Qfloor (q + (1 # 2)))
      by (apply Qfloor_resp_le; change (inject_Z 100) with 100%Q; lra).
    rewrite Qfloor_Z in H. apply Z.eqb_eq. lia.
  - assert (Hq : (q < 199 # 2)%Q).
    { destruct (Qlt_le_dec q (199 # 2)) as [Hlt | Hle]; [exact Hlt |].
      apply Qle_bool_iff in Hle. congruence. }
    assert (Qfloor (q + (1 # 2)) < 100).
    { rewrite Zlt_Qlt. eapply Qle_lt_trans; [apply Qfloor_le |].
      change (inject_Z 100) with 100%Q. lra. }
    apply Z.eqb_neq. lia.
Qed.

(** X14.  The limit warning is raised for a parsed response exactly
    when the five-hour or the seven-day utilization it reports is a
    finite number of at least 99.5; a failure payload never raises
    it. *)
Theorem isLimitReached_from_raw :
  (forall Date_parse plan cred m t,
      isLimitReached (parseResponse Date_parse plan cred m t)
      = reachesLimit (chain (five_hour m) utilization)
        || reachesLimit (chain (seven_day m) utilization))
  /\ (forall plan, isLimitReached (failureResult plan) = false)
  /\ (forall q, is100 (parseUtilization (Val (Fin q)))
                = Qle_bool (199 # 2) q).
Proof.
  split; [| split].
  - intros. unfold isLimitReached. cbn [fiveHour sevenDay parseResponse].
    now rewrite !is100_parseUtilization.
  - reflexivity.
  - intros q. apply (is100_parseUtilization (Val (Fin q))).
Qed.

(** ** The most restrictive quota *)

(** The payload of the example response, freshly parsed. *)
Definition examplePayload : UsageData :=
  parseResponse isoToy "Max" theCredentials enhanced 1000.

(** The utilization of a quota as an integer. *)
Definition wholeUtilization (q : ModelQuota) : Z :=
  match mq_utilization q with
  | Some (Fin x) => Qfloor x
  | _ => 0
  end.

Lemma utilizationOr0_whole (q : ModelQuota) :
  utilizationOk (mq_utilization q) ->
  utilizationOr0 q = ofZ (wholeUtilization q).
Proof.
  unfold utilizationOr0, wholeUtilization.
  intros [-> | (z & _ & ->)]; [reflexivity |].
  unfold ofZ. now rewrite Qfloor_Z.
Qed.

Lemma lt_ofZ (a b : Z) : lt (ofZ a) (ofZ b) = (a <? b).
Proof.
  unfold lt, ofZ. rewrite StdinFacts.Qle_bool_inject.
  destruct (Z.leb_spec b a), (Z.ltb_spec a b); (reflexivity || lia).
Qed.

Definition moreRestrictive (max q : ModelQuota) : ModelQuota :=
  if lt (utilizationOr0 max) (utilizationOr0 q) then q else max.

Lemma fold_most_restrictive (rest : list ModelQuota) :
  forall first,
    Forall (fun q => utilizationOk (mq_utilization q)) (first :: rest) ->
    let r := fold_left moreRestrictive rest first in
    In r (first :: rest)
    /\ wholeUtilization first <= wholeUtilization r
    /\ Forall (fun q => wholeUtilization q <= wholeUtilization r) rest.
Proof.
  induction rest as [| q rest IH]; intros first Hok; cbn zeta.
  - cbn. repeat split; auto. lia.
  - cbn [fold_left].
    inversion Hok as [| ? ? Hfirst Hrest]; subst.
    inversion Hrest as [| ? ? Hq Hrest']; subst.
    assert (Hstep : In (moreRestrictive first q) [first; q]
                    /\ wholeUtilization first
                       <= wholeUtilization (moreRestrictive first q)
                    /\ wholeUtilization q
                       <= wholeUtilization (moreRestrictive first q)
                    /\ utilizationOk
                         (mq_utilization (moreRestrictive first q))).
    { unfold moreRestrictive.
      rewrite (utilizationOr0_whole _ Hfirst), (utilizationOr0_whole _ Hq).
      rewrite lt_ofZ.
      destruct (Z.ltb_spec (wholeUtilization first) (wholeUtilization q));
        cbn; repeat split; auto; lia. }
    destruct Hstep as (Hin & H1 & H2 & Hok').
    destruct (IH (moreRestrictive first q)) as (IHin & IH1 & IHall).
    { constructor; assumption. }
    repeat split.
    + destruct IHin as [<- | IHin].
      * destruct Hin as [<- | [<- | []]]; cbn; auto.
      * right. now right.
    + lia.
    + constructor; [lia | exact IHall].
Qed.

(** X15.  [getMostRestrictiveQuota] gives nothing exactly when the
    payload has no quota list or an empty one.  Otherwise, the
    utilizations being [null] or whole numbers as the fetcher stores
    them, it gives a quota of the list whose utilization ([null] counting
    as 0) no other quota of the list exceeds. *)
Theorem getMostRestrictiveQuota_is_a_maximum (data : UsageData) :
  (getMostRestrictiveQuota data = None
   <-> modelQuotas data = None \/ modelQuotas data = Some [])
  /\ (forall l,
         modelQuotas data = Some l ->
         l <> [] ->
         Forall (fun q => utilizationOk (mq_utilization q)) l ->
         exists r,
           getMostRestrictiveQuota data = Some r
           /\ In r l
           /\ Forall (fun q => le (utilizationOr0 q) (utilizationOr0 r) = true)
                     l).
Proof.
  unfold getMostRestrictiveQuota. split.
  - destruct (modelQuotas data) as [[| first rest] |]; split; auto;
      try discriminate; intros [H | H]; discriminate H.
  - intros l Hl Hne Hok. rewrite Hl.
    destruct l as [| first rest]; [contradiction |].
    destruct (fold_most_restrictive rest first Hok) as (Hin & H1 & Hall).
    fold moreRestrictive.
    set (r := fold_left moreRestrictive rest first) in *.
    exists r. split; [reflexivity |]. split; [exact Hin |].
    assert (Hr : utilizationOk (mq_utilization r)).
    { rewrite Forall_forall in Hok. now apply Hok. }
    assert (Hle : forall q,
               utilizationOk (mq_utilization q) ->
               wholeUtilization q <= wholeUtilization r ->
               le (utilizationOr0 q) (utilizationOr0 r) = true).
    { intros q Hq Hz.
      rewrite (utilizationOr0_whole _ Hq), (utilizationOr0_whole _ Hr).
      unfold le, ofZ. rewrite StdinFacts.Qle_bool_inject.
      now apply Z.leb_le. }
    inversion Hok as [| ? ? Hfirst Hrest]; subst.
    constructor; [now apply Hle |].
    rewrite Forall_forall in *. intros q Hq. apply Hle; auto.
Qed.

(** A quota as an endpoint reports it, with nothing but its model and
    its utilization. *)
Definition rawQuota (model : string) (u : nullable number) : RawQuota :=
  {| model_id := Val model; display_name := Undefined;
     weekly_hours_used := Undefined; weekly_hours_limit := Undefined;
     tokens_used := Undefined; tokens_limit := Undefined;
     q_utilization := u; q_resets_at := Undefined |}.

(** Four quotas: a low one, two that share the highest utilization, and
    one without a utilization between them. *)
Definition fourQuotas : ApiResponse :=
  {| five_hour := Undefined; seven_day := Undefined;
     model_quotas :=
       Val [ rawQuota "haiku" (Val (ofZ 10));
             rawQuota "opus" (Val (Fin (749 # 10)));
             rawQuota "sonnet" Null;
             rawQuota "opus-plan" (Val (ofZ 75)) ];
     max_plan_type := Undefined; compaction_buffer := Undefined;
     tokens_per_window := Undefined |}.

Definition fourQuotasPayload : UsageData :=
  parseResponse isoToy "Max" theCredentials fourQuotas 1000.

Lemma getMostRestrictiveQuota_is_a_maximum_witness :
  exists r,
    getMostRestrictiveQuota fourQuotasPayload = Some r
    /\ In r (parseModelQuotas isoToy (model_quotas fourQuotas))
    /\ Forall (fun q => le (utilizationOr0 q) (utilizationOr0 r) = true)
              (parseModelQuotas isoToy (model_quotas fourQuotas)).
Proof.
  apply (proj2 (getMostRestrictiveQuota_is_a_maximum fourQuotasPayload)).
  - reflexivity.
  - discriminate.
  - apply parseModelQuotas_ok.
Defined.

Example first_of_two_maxima_is_given :
  option_map (map (fun q => (modelId q, mq_utilization q)))
             (modelQuotas fourQuotasPayload)
  = Some [("haiku", Some (ofZ 10)); ("opus", Some (ofZ 75));
          ("sonnet", None); ("opus-plan", Some (ofZ 75))]
  /\ option_map modelId (getMostRestrictiveQuota fourQuotasPayload)
     = Some "opus"
  /\ option_map modelId (getMostRestrictiveQuota examplePayload)
     = option_map modelId
                  (hd_error (parseModelQuotas isoToy (model_quotas enhanced))).
Proof. repeat split. Qed.

(** ** Clock times *)

Lemma twelveHour_range (hours : Z) :
  0 <= hours < 24 ->
  1 <= twelveHour hours <= 12
  /\ (twelveHour hours = hours
      \/ twelveHour hours = hours + 12
      \/ twelveHour hours = hours - 12)
  /\ (hours = 0 -> twelveHour hours = 12)
  /\ (hours = 12 -> twelveHour hours = 12).
Proof.
  intros H. unfold twelveHour.
  assert (Hr : Z.rem hours 12 = hours mod 12) by (apply Z.rem_mod_nonneg; lia).
  rewrite Hr.
  assert (Hm : hours mod 12 = hours \/ hours mod 12 = hours - 12).
  { destruct (Z.lt_ge_cases hours 12) as [Hlt | Hge].
    - left. apply Z.mod_small. lia.
    - right. replace hours with ((hours - 12) + 1 * 12) at 1 by lia.
      rewrite Z.mod_add by lia. apply Z.mod_small. lia. }
  pose proof (Z.mod_pos_bound hours 12 ltac:(lia)) as Hb.
  destruct (Z.eqb_spec (hours mod 12) 0) as [E | E];
    repeat split; intros; lia.
Qed.

Lemma minsStr_two_digits (mins : Z) :
  0 <= mins < 60 -> String.length (minsStr mins) = 2%nat.
Proof.
  intros H.
  assert (Hall : forallb (fun n => (String.length (minsStr (Z.of_nat n))
                                    =? 2)%nat)
                         (seq 0 60) = true) by (vm_compute; reflexivity).
  rewrite forallb_forall in Hall.
  specialize (Hall (Z.to_nat mins)).
  rewrite Z2Nat.id in Hall by lia.
  apply Nat.eqb_eq, Hall, in_seq. lia.
Qed.

(** X16.  For a reset that lies ahead, with the local hour from 0 to 23,
    the minute from 0 to 59 and the day from 0 to 6: the time shown has
    an hour from 1 to 12 that differs from the local hour by 0 or 12 (12
    for midnight and for noon), a minute of exactly two digits, and [PM]
    from noon on; and the date-and-time text is [Resets], the name of the
    day and that same time.  For a reset that does not lie ahead, or
    none, both texts are empty. *)
Theorem reset_clock_texts (getDay getHours getMinutes : Z -> Z)
        (r now_ : Z) :
  (now_ < r ->
   0 <= getHours r < 24 ->
   0 <= getMinutes r < 60 ->
   0 <= getDay r < 7 ->
   formatResetTimeOnly getHours getMinutes (Some r) now_
   = showZ (twelveHour (getHours r)) ++ ":" ++ minsStr (getMinutes r)
       ++ " " ++ (if 12 <=? getHours r then "PM" else "AM")
   /\ 1 <= twelveHour (getHours r) <= 12
   /\ (twelveHour (getHours r) = getHours r
       \/ twelveHour (getHours r) = getHours r + 12
       \/ twelveHour (getHours r) = getHours r - 12)
   /\ String.length (minsStr (getMinutes r)) = 2%nat
   /\ (exists dayName,
          In dayName dayNames
          /\ formatResetDateTime getDay getHours getMinutes (Some r) now_
             = "Resets " ++ dayName ++ " "
                 ++ formatResetTimeOnly getHours getMinutes (Some r) now_))
  /\ (r <= now_ ->
      formatResetTimeOnly getHours getMinutes (Some r) now_ = EmptyString
      /\ formatResetDateTime getDay getHours getMinutes (Some r) now_
         = EmptyString)
  /\ formatResetTimeOnly getHours getMinutes None now_ = EmptyString
  /\ formatResetDateTime getDay getHours getMinutes None now_ = EmptyString.
Proof.
  split; [| split; [| split; reflexivity]].
  - intros Hr Hh Hm Hd.
    destruct (twelveHour_range _ Hh) as (H12 & Hdiff & _).
    unfold formatResetTimeOnly, formatResetDateTime, ampm.
    destruct (Z.leb_spec r now_); [lia |].
    repeat split; try lia; try exact Hdiff.
    + now apply minsStr_two_digits.
    + destruct (Z.leb_spec 0 (getDay r)); [| lia].
      destruct (Z.ltb_spec (getDay r) 7); [| lia]. cbn [andb].
      exists (nth (Z.to_nat (getDay r)) dayNames "undefined").
      split; [| reflexivity].
      apply nth_In. cbn. lia.
  - intros Hr. unfold formatResetTimeOnly, formatResetDateTime.
    destruct (Z.leb_spec r now_); [now split | lia].
Qed.

(** Five past midnight on a Sunday, at an instant called 5000. *)
Definition sundayMidnight : (Z -> Z) * (Z -> Z) * (Z -> Z) :=
  (fun _ => 0, fun _ => 0, fun _ => 5).

Lemma reset_clock_texts_witness :
  let '(getDay, getHours, getMinutes) := sundayMidnight in
  formatResetTimeOnly getHours getMinutes (Some 5000) 1000
  = showZ (twelveHour (getHours 5000)) ++ ":" ++ minsStr (getMinutes 5000)
      ++ " " ++ (if 12 <=? getHours 5000 then "PM" else "AM")
  /\ 1 <= twelveHour (getHours 5000) <= 12
  /\ (twelveHour (getHours 5000) = getHours 5000
      \/ twelveHour (getHours 5000) = getHours 5000 + 12
      \/ twelveHour (getHours 5000) = getHours 5000 - 12)
  /\ String.length (minsStr (getMinutes 5000)) = 2%nat
  /\ (exists dayName,
         In dayName dayNames
         /\ formatResetDateTime getDay getHours getMinutes (Some 5000) 1000
            = "Resets " ++ dayName ++ " "
                ++ formatResetTimeOnly getHours getMinutes (Some 5000) 1000).
Proof.
  apply (proj1 (reset_clock_texts (fun _ => 0) (fun _ => 0) (fun _ => 5)
                                  5000 1000)); cbn; lia.
Defined.

Example sunday_midnight_texts :
  formatResetTimeOnly (fun _ => 0) (fun _ => 5) (Some 5000) 1000
  = "12:05 AM"
  /\ formatResetDateTime (fun _ => 0) (fun _ => 0) (fun _ => 5)
                         (Some 5000) 1000
     = "Resets Sun 12:05 AM".
Proof. split; reflexivity. Qed.

(** ** The last user message *)

Lemma length_append (s1 s2 : string) :
  String.length (s1 ++ s2) = (String.length s1 + String.length s2)%nat.
Proof. induction s1 as [| c s1 IH]; cbn; [reflexivity | now rewrite IH]. Qed.

Lemma length_substring_0 (n : nat) (s : string) :
  String.length (String.substring 0 n s) = Nat.min n (String.length s).
Proof.
  revert s. induction n as [| n IH]; intros [| c s]; cbn; try reflexivity.
  now rewrite IH.
Qed.

(** X17.  [renderLastMessageLine] gives no line when the transcript has
    no last user message or an empty one.  Otherwise the line is the
    dimmed sign, a space and the dimmed message, where a message of up to
    80 characters is shown whole and a longer one as its first 77
    characters followed by three dots, 80 characters in all. *)
Theorem renderLastMessageLine_at_most_80 (dim : string -> string)
        (balloon : string) (transcript : Transcript.TranscriptData) :
  (Transcript.lastUserMessage transcript = None ->
   renderLastMessageLine dim balloon transcript = None)
  /\ (Transcript.lastUserMessage transcript = Some EmptyString ->
      renderLastMessageLine dim balloon transcript = None)
  /\ (forall msg,
         Transcript.lastUserMessage transcript = Some msg ->
         msg <> EmptyString ->
         exists shown,
           renderLastMessageLine dim balloon transcript
           = Some (dim balloon ++ " " ++ dim shown)
           /\ (String.length shown <= 80)%nat
           /\ ((String.length msg <= 80)%nat -> shown = msg)
           /\ ((80 < String.length msg)%nat ->
               shown = String.substring 0 77 msg ++ "..."
               /\ String.length shown = 80%nat)).
Proof.
  unfold renderLastMessageLine. split; [| split].
  - now intros ->.
  - now intros ->.
  - intros msg -> Hne.
    assert (Ht : truthyStr msg = true) by (destruct msg; [congruence | easy]).
    rewrite Ht. cbn [negb].
    destruct (Nat.ltb_spec 80 (String.length msg)) as [Hlong | Hshort].
    + eexists. split; [reflexivity |].
      assert (Hlen : String.length (String.substring 0 (80 - 3) msg ++ "...")
                     = 80%nat).
      { rewrite length_append, length_substring_0.
        change (String.length "...") with 3%nat.
        change (80 - 3)%nat with 77%nat. lia. }
      split; [rewrite Hlen; lia |]. split; [lia |].
      intros _. split; [reflexivity | exact Hlen].
    + exists msg. repeat split; try lia; reflexivity.
Qed.

Definition longTranscript : Transcript.TranscriptData :=
  {| Transcript.tools := []; Transcript.agents := [];
     Transcript.result_todos := []; Transcript.sessionStart := None;
     Transcript.lastUserMessage :=
       Some ("please look at the failing integration test in the payments "
               ++ "module and tell me why it times out") |}.

Lemma renderLastMessageLine_at_most_80_witness :
  exists shown,
    renderLastMessageLine (fun s => s) "says:" longTranscript
    = Some ("says:" ++ " " ++ shown)
    /\ (String.length shown <= 80)%nat
    /\ ((String.length
           ("please look at the failing integration test in the payments "
              ++ "module and tell me why it times out") <= 80)%nat ->
        shown
        = "please look at the failing integration test in the payments "
            ++ "module and tell me why it times out")
    /\ ((80 < String.length
                ("please look at the failing integration test in the payments "
                   ++ "module and tell me why it times out"))%nat ->
        shown
        = String.substring
            0 77
            ("please look at the failing integration test in the payments "
               ++ "module and tell me why it times out") ++ "..."
        /\ String.length shown = 80%nat).
Proof.
  apply (proj2 (proj2 (renderLastMessageLine_at_most_80
                         (fun s => s) "says:" longTranscript))).
  - reflexivity.
  - discriminate.
Defined.

End RenderFacts.

(* ===================================================================== *)
(** * Properties of the buffered percentage *)
(* ===================================================================== *)

Module StdinMoreFacts.
Import Js Stdin StdinMore StdinFacts.

Lemma round_nan (x : number) : Math_round x = NaN -> x = NaN.
Proof. destruct x; cbn; unfold ofZ; congruence. Qed.

(** X18.  [getBufferedPercent] is 0 when the window size is zero or
    missing; otherwise it is [NaN] or at most 100.  It never reads
    [used_percentage]: two payloads that differ only there get the same
    value, so a payload that reports 42 percent used and no token counts
    is shown with the buffer alone. *)
Theorem getBufferedPercent_ignores_used_percentage (fl : Q -> number)
        (buffer : number) :
  (forall size pct u,
      sizeZeroOrMissing size = true ->
      getBufferedPercent fl buffer (payload size pct u) = ofZ 0)
  /\ getBufferedPercent fl buffer {| context_window := Undefined |} = ofZ 0
  /\ getBufferedPercent fl buffer {| context_window := Null |} = ofZ 0
  /\ (forall stdin,
         getBufferedPercent fl buffer stdin = NaN
         \/ le (getBufferedPercent fl buffer stdin) (ofZ 100) = true)
  /\ (forall size pct pct' u,
         getBufferedPercent fl buffer (payload size pct u)
         = getBufferedPercent fl buffer (payload size pct' u)).
Proof.
  split; [| split; [reflexivity | split; [reflexivity | split]]].
  - intros size pct u Hs. unfold getBufferedPercent, payload; cbn.
    destruct size as [| |sz]; try reflexivity.
    destruct sz as [| | |q]; try discriminate; cbn in Hs |- *.
    now rewrite Hs.
  - intros stdin. unfold getBufferedPercent.
    destruct (chain (context_window stdin) context_window_size) as [| |sz];
      try (right; reflexivity).
    destruct (negb (truthy sz) || le sz (ofZ 0));
      [right; reflexivity | apply min_100_cap_or_nan].
  - reflexivity.
Qed.

Lemma getBufferedPercent_ignores_used_percentage_witness :
  getBufferedPercent exact (Fin (9 # 40))
                     (payload (Val (ofZ 0)) (Val (ofZ 42)) noUsage)
  = ofZ 0.
Proof.
  apply (proj1 (getBufferedPercent_ignores_used_percentage
                  exact (Fin (9 # 40)))).
  reflexivity.
Defined.

Example buffered_percent_with_no_tokens :
  getBufferedPercent exact (Fin (9 # 40))
                     (payload (Val (ofZ 200000)) (Val (ofZ 42)) noUsage)
  = ofZ 23
  /\ getContextPercent exact
       (payload (Val (ofZ 200000)) (Val (ofZ 42)) noUsage)
     = ofZ 42.
Proof. split; reflexivity. Qed.

End StdinMoreFacts.

(* ===================================================================== *)
(** * More properties of the transcript accumulator *)
(* ===================================================================== *)

Module TranscriptMoreFacts.
Import Js Transcript TranscriptFacts.
Local Open Scope string_scope.

(** ** Ids that come back *)

(** [k] joins the keys unless it is one of them. *)
Definition addKey (ks : list string) (k : string) : list string :=
  if existsb (String.eqb k) ks then ks else (ks ++ [k])%list.

(** The ids in the order of their first occurrence. *)
Definition firstOccurrences (ids : list string) : list string :=
  fold_left addKey ids [].

Lemma mapKeys_mapSet {V} (k : string) (v : V) (m : omap V) :
  mapKeys (mapSet k v m) = addKey (mapKeys m) k.
Proof.
  unfold addKey, mapKeys. induction m as [| [k' v'] m IH]; cbn;
    [reflexivity |].
  destruct (String.eqb k k'); cbn; [reflexivity |].
  rewrite IH. now destruct (existsb (String.eqb k) (map fst m)).
Qed.

Lemma existsb_eqb_In (k : string) (ks : list string) :
  existsb (String.eqb k) ks = true <-> In k ks.
Proof.
  rewrite existsb_exists. split.
  - intros (x & Hin & Hx). apply String.eqb_eq in Hx. now subst.
  - intros Hin. exists k. split; [exact Hin | apply String.eqb_refl].
Qed.

Lemma addKey_NoDup (ks : list string) (k : string) :
  NoDup ks -> NoDup (addKey ks k).
Proof.
  intros H. unfold addKey.
  destruct (existsb (String.eqb k) ks) eqn:E; [exact H |].
  apply NoDup_app; [exact H | repeat constructor; intros [] |].
  intros x Hx [<- | []].
  apply existsb_eqb_In in Hx. congruence.
Qed.

Lemma fold_addKey_NoDup (ids : list string) :
  forall ks, NoDup ks -> NoDup (fold_left addKey ids ks).
Proof.
  induction ids as [| k ids IH]; intros ks H; cbn; [exact H |].
  apply IH. now apply addKey_NoDup.
Qed.

Lemma fold_addKey_fresh (ids : list string) :
  forall ks,
    NoDup (ks ++ ids) -> fold_left addKey ids ks = (ks ++ ids)%list.
Proof.
  induction ids as [| k ids IH]; intros ks H; cbn.
  - now rewrite app_nil_r.
  - assert (Hk : existsb (String.eqb k) ks = false).
    { destruct (existsb (String.eqb k) ks) eqn:E; [| reflexivity].
      apply existsb_eqb_In in E. apply NoDup_remove_2 in H.
      exfalso. apply H. apply in_or_app. now left. }
    unfold addKey at 2. rewrite Hk.
    rewrite IH; rewrite <- app_assoc; [reflexivity | exact H].
Qed.

Lemma fold_addKey_app (xs ys : list string) (ks : list string) :
  fold_left addKey (xs ++ ys) ks = fold_left addKey ys (fold_left addKey xs ks).
Proof. apply fold_left_app. Qed.

Lemma toolKeys_block ts a b :
  mapKeys (toolMap (processBlock ts a b))
  = fold_left addKey (idsOf isToolStart [b]) (mapKeys (toolMap a)).
Proof.
  unfold processBlock.
  assert (Hres : mapKeys (toolMap (processToolResult ts b
                                     (processToolUse ts b a)))
                 = mapKeys (toolMap (processToolUse ts b a))).
  { destruct (toolMap_processToolResult ts b (processToolUse ts b a))
      as [-> | (tid & e & ->)]; [reflexivity | apply mapKeys_mapUpdate]. }
  rewrite Hres, toolMap_processToolUse. unfold idsOf. cbn [filter].
  destruct (isToolStart b); cbn; [apply mapKeys_mapSet | reflexivity].
Qed.

Lemma agentKeys_block ts a b :
  mapKeys (agentMap (processBlock ts a b))
  = fold_left addKey (idsOf isAgentStart [b]) (mapKeys (agentMap a)).
Proof.
  unfold processBlock.
  assert (Hres : mapKeys (agentMap (processToolResult ts b
                                      (processToolUse ts b a)))
                 = mapKeys (agentMap (processToolUse ts b a))).
  { destruct (agentMap_processToolResult ts b (processToolUse ts b a))
      as [-> | (tid & ->)]; [reflexivity | apply mapKeys_mapUpdate]. }
  rewrite Hres, agentMap_processToolUse. unfold idsOf. cbn [filter].
  destruct (isAgentStart b); cbn; [apply mapKeys_mapSet | reflexivity].
Qed.

(** The keys of either map through the pass. *)
Section KeysInGeneral.
Context {V : Type}.
Variable M : Acc -> omap V.
Variable isNew : ContentBlock -> bool.

Hypothesis M_only_maps :
  forall a a', toolMap a = toolMap a' -> agentMap a = agentMap a' ->
               M a = M a'.

Hypothesis M_block :
  forall ts a b,
    mapKeys (M (processBlock ts a b))
    = fold_left addKey (idsOf isNew [b]) (mapKeys (M a)).

Lemma keys_blocks_general ts bs :
  forall a,
    mapKeys (M (fold_left (processBlock ts) bs a))
    = fold_left addKey (idsOf isNew bs) (mapKeys (M a)).
Proof.
  induction bs as [| b bs IH]; intros a; [reflexivity |].
  cbn [fold_left]. rewrite IH, M_block.
  change (b :: bs) with ([b] ++ bs)%list.
  now rewrite idsOf_app, fold_addKey_app.
Qed.

Variable Date_parse : string -> Date.
Variable clock : nat -> Z.
Variable JSON_parse : string -> option TranscriptLine.

Lemma keys_entry_general e a :
  mapKeys (M (processEntry Date_parse clock e a))
  = fold_left addKey (idsOf isNew (blocksOf e)) (mapKeys (M a)).
Proof.
  unfold processEntry, blocksOf.
  match goal with
  | |- context [fold_left _ _ ?a1] =>
      assert (Ha1 : M a1 = M a) by (apply M_only_maps; reflexivity)
  end.
  destruct (chain (message e) content) as [| |[blocks | txt]];
    try (cbn; now rewrite Ha1).
  now rewrite keys_blocks_general, Ha1.
Qed.

Lemma M_collectUserMessage e a : M (collectUserMessage e a) = M a.
Proof.
  apply M_only_maps; unfold collectUserMessage;
    destruct (line_type e), (chain (message e) content); try reflexivity;
    destruct (_ && _); try reflexivity;
    destruct (_ && _); reflexivity.
Qed.

Lemma keys_lines_general lines :
  forall a,
    mapKeys (M (fold_left (processLine Date_parse clock JSON_parse) lines a))
    = fold_left addKey (startsOf isNew JSON_parse lines) (mapKeys (M a)).
Proof.
  unfold startsOf.
  induction lines as [| line lines IH]; intros a; [reflexivity |].
  cbn [fold_left]. rewrite IH. unfold entriesOf. cbn [flat_map].
  fold (entriesOf JSON_parse lines). unfold processLine.
  destruct (negb (truthyStr (trim line))); [reflexivity |].
  destruct (JSON_parse line) as [e |]; [| reflexivity].
  cbn [app flat_map].
  rewrite idsOf_app, fold_addKey_app.
  now rewrite M_collectUserMessage, keys_entry_general.
Qed.
End KeysInGeneral.

Lemma sliceLast_length_le {A} (n : nat) (l : list A) :
  (length (sliceLast n l) <= n)%nat.
Proof. unfold sliceLast. rewrite length_skipn. lia. Qed.

Lemma NoDup_skipn {A} (n : nat) (l : list A) : NoDup l -> NoDup (skipn n l).
Proof.
  intros H. rewrite <- (firstn_skipn n l) in H.
  now apply NoDup_app_remove_l in H.
Qed.

(** ** What holds of every entry of the two maps *)

Lemma Forall_mapSet {V} (Q : string * V -> Prop) k v (m : omap V) :
  Forall Q m -> Q (k, v) -> Forall Q (mapSet k v m).
Proof.
  intros Hm Hv. induction Hm as [| [k' v'] m Hkv Hm IH]; cbn.
  - repeat constructor. exact Hv.
  - destruct (String.eqb_spec k k') as [<- | Hne]; constructor; auto.
Qed.

Lemma Forall_mapUpdate {V} (Q : string * V -> Prop) k f (m : omap V) :
  Forall Q m -> (forall k' v', Q (k', v') -> Q (k', f v')) ->
  Forall Q (mapUpdate k f m).
Proof.
  intros Hm Hf. induction Hm as [| [k' v'] m Hkv Hm IH]; cbn.
  - constructor.
  - destruct (String.eqb k k'); constructor; auto.
Qed.

Section EntryInvariant.
Variable Qt : string * ToolEntry -> Prop.
Variable Qa : string * AgentEntry -> Prop.

Hypothesis Qt_new :
  forall ts b, isToolStart b = true -> Qt (startId b, newTool ts b).
Hypothesis Qt_finish :
  forall k v e ts, Qt (k, v) -> Qt (k, finishTool e ts v).
Hypothesis Qa_new :
  forall ts b, isAgentStart b = true -> Qa (startId b, newAgent ts b).
Hypothesis Qa_finish :
  forall k v ts, Qa (k, v) -> Qa (k, finishAgent ts v).

Definition holds (a : Acc) : Prop :=
  Forall Qt (toolMap a) /\ Forall Qa (agentMap a).

Lemma holds_block ts a b : holds a -> holds (processBlock ts a b).
Proof.
  intros (Ht & Hg). unfold processBlock. split.
  - assert (Hu : Forall Qt (toolMap (processToolUse ts b a))).
    { rewrite toolMap_processToolUse.
      destruct (isToolStart b) eqn:Hb; [| exact Ht].
      apply Forall_mapSet; [exact Ht | now apply Qt_new]. }
    destruct (toolMap_processToolResult ts b (processToolUse ts b a))
      as [-> | (tid & er & ->)]; [exact Hu |].
    apply Forall_mapUpdate; [exact Hu |]. intros k' v'. apply Qt_finish.
  - assert (Hu : Forall Qa (agentMap (processToolUse ts b a))).
    { rewrite agentMap_processToolUse.
      destruct (isAgentStart b) eqn:Hb; [| exact Hg].
      apply Forall_mapSet; [exact Hg | now apply Qa_new]. }
    destruct (agentMap_processToolResult ts b (processToolUse ts b a))
      as [-> | (tid & ->)]; [exact Hu |].
    apply Forall_mapUpdate; [exact Hu |]. intros k' v'. apply Qa_finish.
Qed.

Lemma holds_blocks ts bs :
  forall a, holds a -> holds (fold_left (processBlock ts) bs a).
Proof.
  induction bs as [| b bs IH]; intros a Ha; [exact Ha |].
  cbn [fold_left]. now apply IH, holds_block.
Qed.

Variable Date_parse : string -> Date.
Variable clock : nat -> Z.
Variable JSON_parse : string -> option TranscriptLine.

Lemma holds_entry e a :
  holds a -> holds (processEntry Date_parse clock e a).
Proof.
  intros Ha. unfold processEntry.
  destruct (chain (message e) content) as [| |[blocks | txt]];
    try exact Ha.
  now apply holds_blocks.
Qed.

Lemma holds_lines lines :
  forall a,
    holds a ->
    holds (fold_left (processLine Date_parse clock JSON_parse) lines a).
Proof.
  induction lines as [| line lines IH]; intros a Ha; [exact Ha |].
  cbn [fold_left]. apply IH. unfold processLine.
  destruct (negb (truthyStr (trim line))); [exact Ha |].
  destruct (JSON_parse line) as [e |]; [| exact Ha].
  unfold holds.
  rewrite (M_collectUserMessage toolMap (fun a a' Ht _ => Ht)),
    (M_collectUserMessage agentMap (fun a a' _ Hg => Hg)).
  now apply holds_entry.
Qed.

Lemma holds_accumulate lines :
  holds (accumulate Date_parse clock JSON_parse lines).
Proof. apply holds_lines. split; constructor. Qed.
End EntryInvariant.

Lemma all_keyed Date_parse clock JSON_parse lines :
  keyed id (toolMap (accumulate Date_parse clock JSON_parse lines))
  /\ keyed agent_id (agentMap (accumulate Date_parse clock JSON_parse lines)).
Proof.
  apply (holds_accumulate (fun kv => id (snd kv) = fst kv)
                          (fun kv => agent_id (snd kv) = fst kv));
    cbn; auto.
Qed.

Lemma In_addKey (ks : list string) (k x : string) :
  In x (addKey ks k) <-> In x ks \/ x = k.
Proof.
  unfold addKey. destruct (existsb (String.eqb k) ks) eqn:E.
  - apply existsb_eqb_In in E. split; [now left |].
    intros [H | ->]; assumption.
  - rewrite in_app_iff. cbn. intuition.
Qed.

Lemma In_fold_addKey (ids : list string) :
  forall ks x, In x (fold_left addKey ids ks) <-> In x ks \/ In x ids.
Proof.
  induction ids as [| k ids IH]; intros ks x; cbn; [intuition |].
  rewrite IH, In_addKey. intuition.
Qed.

(** X19.  For every transcript, repeated ids included: the ids of the
    accumulated tools are the ids of the tool-start records in the order
    of their first occurrence (each id once, and the list itself when no
    id comes twice), and likewise for the agents.  The result holds the
    end of that list: the ids dropped all come before the ones kept, and
    there are as many of them as there are ids beyond 20, or 10 for the
    agents.  So a tool that is started again keeps the place of its
    first start, and is dropped with the old ones.  The result lists at
    most 20 tools and at most 10 agents, and no id twice. *)
Theorem ids_are_first_occurrences
        (Date_parse : string -> Date) (clock : nat -> Z)
        (JSON_parse : string -> option TranscriptLine)
        (transcriptPath : string) (file : option (list string)) :
  let r := parseTranscript Date_parse clock JSON_parse transcriptPath file in
  ((length (tools r) <= 20)%nat /\ (length (agents r) <= 10)%nat)
  /\ (NoDup (map id (tools r)) /\ NoDup (map agent_id (agents r)))
  /\ (forall ids,
         NoDup (firstOccurrences ids)
         /\ (forall x, In x (firstOccurrences ids) <-> In x ids)
         /\ (NoDup ids -> firstOccurrences ids = ids))
  /\ (forall lines,
         file = Some lines ->
         transcriptPath <> EmptyString ->
         let toolIds :=
           firstOccurrences (startsOf isToolStart JSON_parse lines) in
         let agentIds :=
           firstOccurrences (startsOf isAgentStart JSON_parse lines) in
         (map id (tools r) = sliceLast 20 toolIds
          /\ map agent_id (agents r) = sliceLast 10 agentIds)
         /\ (exists older,
                toolIds = (older ++ map id (tools r))%list
                /\ length older = (length toolIds - 20)%nat)
         /\ (exists older,
                agentIds = (older ++ map agent_id (agents r))%list
                /\ length older = (length agentIds - 10)%nat)).
Proof.
  intros r.
  assert (Hall : forall lines,
             map id (mapValues
                       (toolMap (accumulate Date_parse clock JSON_parse lines)))
             = firstOccurrences (startsOf isToolStart JSON_parse lines)
             /\ map agent_id
                    (mapValues
                       (agentMap (accumulate Date_parse clock JSON_parse
                                             lines)))
                = firstOccurrences (startsOf isAgentStart JSON_parse lines)).
  { intros lines.
    destruct (all_keyed Date_parse clock JSON_parse lines) as (Ht & Hg).
    rewrite (keyed_values _ _ Ht), (keyed_values _ _ Hg).
    unfold accumulate, firstOccurrences. split.
    - apply (keys_lines_general toolMap isToolStart
                                (fun a a' H _ => H) toolKeys_block).
    - apply (keys_lines_general agentMap isAgentStart
                                (fun a a' _ H => H) agentKeys_block). }
  assert (Hr : r = finish emptyAcc
               \/ exists lines,
                  file = Some lines
                  /\ r = finish (accumulate Date_parse clock JSON_parse lines)).
  { subst r. unfold parseTranscript. destruct file as [lines |]; [| now left].
    destruct (truthyStr transcriptPath); [right; now exists lines | now left]. }
  split.
  { destruct Hr as [-> | (lines & _ & ->)];
      split; apply sliceLast_length_le. }
  split.
  { destruct Hr as [-> | (lines & _ & ->)]; [split; constructor |].
    destruct (Hall lines) as (Ht & Hg).
    cbn [tools agents finish]. rewrite !sliceLast_map, Ht, Hg.
    split; apply NoDup_skipn, fold_addKey_NoDup; constructor. }
  split.
  { intros ids. unfold firstOccurrences. split; [| split].
    - apply fold_addKey_NoDup. constructor.
    - intros x. rewrite In_fold_addKey. cbn. intuition.
    - intros Hnd. now apply (fold_addKey_fresh ids []). }
  intros lines Hfile Hpath toolIds agentIds.
  assert (Hrun : r = finish (accumulate Date_parse clock JSON_parse lines)).
  { subst r. unfold parseTranscript. rewrite Hfile.
    destruct transcriptPath; [congruence | reflexivity]. }
  destruct (Hall lines) as (Ht & Hg). fold toolIds in Ht. fold agentIds in Hg.
  rewrite Hrun. cbn [tools agents finish].
  rewrite !sliceLast_map, Ht, Hg.
  split; [now split |]. split; apply sliceLast_is_the_end.
Qed.

(** Tools 1 to 22 are started, then tool 3 again, an agent, tool 23 and
    tool 22 again, and then agents 1 to 11, the first for the second
    time. *)
Definition repeatedStarts : list string :=
  (genLines "tool-" 1 22 ++ ["tool-3"; "task-1"; "tool-23"; "tool-22"]
     ++ genLines "task-" 1 11)%list.

Lemma ids_are_first_occurrences_witness :
  let r := parseTranscript toyDate toyClock genParse "/t.jsonl"
                           (Some repeatedStarts) in
  (map id (tools r)
   = sliceLast 20 (firstOccurrences
                     (startsOf isToolStart genParse repeatedStarts))
   /\ map agent_id (agents r)
      = sliceLast 10 (firstOccurrences
                        (startsOf isAgentStart genParse repeatedStarts)))
  /\ (exists older,
         firstOccurrences (startsOf isToolStart genParse repeatedStarts)
         = (older
              ++ ["tool-4"; "tool-5"; "tool-6"; "tool-7"; "tool-8"; "tool-9";
                  "tool-10"; "tool-11"; "tool-12"; "tool-13"; "tool-14";
                  "tool-15"; "tool-16"; "tool-17"; "tool-18"; "tool-19";
                  "tool-20"; "tool-21"; "tool-22"; "tool-23"])%list
         /\ length older = 3%nat)
  /\ (exists older,
         firstOccurrences (startsOf isAgentStart genParse repeatedStarts)
         = (older
              ++ ["task-2"; "task-3"; "task-4"; "task-5"; "task-6";
                  "task-7"; "task-8"; "task-9"; "task-10"; "task-11"])%list
         /\ length older = 1%nat).
Proof.
  apply (ids_are_first_occurrences toyDate toyClock genParse "/t.jsonl"
                                   (Some repeatedStarts)).
  - reflexivity.
  - discriminate.
Defined.

Example restarted_tool_is_dropped_with_the_old_ones :
  let r := parseTranscript toyDate toyClock genParse "/t.jsonl"
                           (Some repeatedStarts) in
  length (startsOf isToolStart genParse repeatedStarts) = 25%nat
  /\ firstn 3 (firstOccurrences
                 (startsOf isToolStart genParse repeatedStarts))
     = ["tool-1"; "tool-2"; "tool-3"]
  /\ existsb (String.eqb "tool-3") (map id (tools r)) = false
  /\ hd_error (map id (tools r)) = Some "tool-4"
  /\ last (map id (tools r)) EmptyString = "tool-23"
  /\ last (startsOf isToolStart genParse repeatedStarts) EmptyString
     = "tool-22".
Proof. repeat split. Qed.

(** Tool [a] is started twice. *)
Definition repeatedStart : list string := ["use-1"; "bash"; "use-1"].

Example repeated_start_keeps_first_place :
  map id (tools (parseTranscript toyDate toyClock toyParse "/t.jsonl"
                                 (Some repeatedStart)))
  = ["a"; "b"].
Proof. reflexivity. Qed.

(** ** The text [extractUserText] hands on *)

(** Every white-space character of [s] is a plain space that stands
    between two characters that are not white space; [prev] tells that
    [s] starts the text or follows a white-space character. *)
Fixpoint spacedFrom (prev : bool) (s : string) : bool :=
  match s with
  | EmptyString => true
  | String c r =>
      if isSpace c
      then Ascii.eqb c " " && negb prev
           && negb (String.eqb r EmptyString) && spacedFrom true r
      else spacedFrom false r
  end.

Definition wellSpaced (s : string) : bool := spacedFrom true s.

(** Every white-space character is a plain space, and no two are in a
    row. *)
Fixpoint collapsedFrom (prev : bool) (s : string) : bool :=
  match s with
  | EmptyString => true
  | String c r =>
      if isSpace c then Ascii.eqb c " " && negb prev && collapsedFrom true r
      else collapsedFrom false r
  end.

(** The white space at the end taken off. *)
Fixpoint trimEnd (s : string) : string :=
  match s with
  | EmptyString => EmptyString
  | String c r =>
      match trimEnd r with
      | EmptyString => if isSpace c then EmptyString else String c EmptyString
      | r' => String c r'
      end
  end.

Lemma collapseSpaces_collapsed s :
  forall p, collapsedFrom p (collapseSpaces p s) = true.
Proof.
  induction s as [| c r IH]; intros p; cbn; [reflexivity |].
  destruct (isSpace c) eqn:E.
  - destruct p; [apply IH |]. cbn. apply IH.
  - cbn. rewrite E. apply IH.
Qed.

Lemma trimStart_collapsed s :
  forall p, collapsedFrom p s = true -> collapsedFrom true (trimStart s) = true.
Proof.
  induction s as [| c r IH]; intros p H; cbn in *; [reflexivity |].
  destruct (isSpace c) eqn:E.
  - apply andb_prop in H. destruct H as (_ & H). now apply (IH true).
  - cbn. now rewrite E.
Qed.

Lemma trimEnd_spaced s :
  forall p, collapsedFrom p s = true -> spacedFrom p (trimEnd s) = true.
Proof.
  induction s as [| c r IH]; intros p H; cbn in *; [reflexivity |].
  destruct (isSpace c) eqn:E.
  - apply andb_prop in H. destruct H as (H1 & H).
    specialize (IH true H).
    destruct (trimEnd r) as [| c' r']; [reflexivity |].
    cbn [spacedFrom]. rewrite E, H1.
    cbn [spacedFrom] in IH. now rewrite IH.
  - specialize (IH false H).
    destruct (trimEnd r) as [| c' r']; cbn [spacedFrom]; now rewrite E.
Qed.

Lemma string_of_list_ascii_app l1 l2 :
  string_of_list_ascii (l1 ++ l2)
  = string_of_list_ascii l1 ++ string_of_list_ascii l2.
Proof. induction l1 as [| c l1 IH]; cbn; [reflexivity | now rewrite IH]. Qed.

Lemma list_ascii_of_string_app s1 s2 :
  list_ascii_of_string (s1 ++ s2)
  = (list_ascii_of_string s1 ++ list_ascii_of_string s2)%list.
Proof. induction s1 as [| c s1 IH]; cbn; [reflexivity | now rewrite IH]. Qed.

Lemma reverse_cons c r :
  reverse (String c r) = reverse r ++ String c EmptyString.
Proof. unfold reverse. cbn. now rewrite string_of_list_ascii_app. Qed.

Lemma reverse_snoc y c :
  reverse (y ++ String c EmptyString) = String c (reverse y).
Proof.
  unfold reverse. rewrite list_ascii_of_string_app. cbn.
  now rewrite rev_app_distr.
Qed.

Lemma trimStart_snoc x c :
  trimStart (x ++ String c EmptyString)
  = match trimStart x with
    | EmptyString => if isSpace c then EmptyString else String c EmptyString
    | y => y ++ String c EmptyString
    end.
Proof.
  induction x as [| d x IH]; cbn.
  - now destruct (isSpace c).
  - now destruct (isSpace d).
Qed.

Lemma trimEnd_is_trim_of_the_end s :
  reverse (trimStart (reverse s)) = trimEnd s.
Proof.
  induction s as [| c r IH]; [reflexivity |].
  rewrite reverse_cons, trimStart_snoc. cbn [trimEnd]. rewrite <- IH.
  destruct (trimStart (reverse r)) as [| d y].
  - now destruct (isSpace c).
  - rewrite reverse_snoc, reverse_cons.
    now destruct (reverse y).
Qed.

Lemma trim_both_ends s : trim s = trimEnd (trimStart s).
Proof. unfold trim. apply trimEnd_is_trim_of_the_end. Qed.

Lemma normalizeText_wellSpaced s : wellSpaced (normalizeText s) = true.
Proof.
  unfold wellSpaced, normalizeText. rewrite trim_both_ends.
  apply trimEnd_spaced, (trimStart_collapsed _ false),
    collapseSpaces_collapsed.
Qed.

Lemma spaced_parts p c r :
  spacedFrom p (String c r) = true ->
  (isSpace c = true
   /\ c = " "%char /\ p = false /\ r <> EmptyString /\ spacedFrom true r = true)
  \/ (isSpace c = false /\ spacedFrom false r = true).
Proof.
  cbn. destruct (isSpace c); [| now right].
  intros H. left.
  apply andb_prop in H. destruct H as (H & H4).
  apply andb_prop in H. destruct H as (H & H3).
  apply andb_prop in H. destruct H as (H1 & H2).
  apply Ascii.eqb_eq in H1. destruct p; [discriminate |].
  repeat split; auto. intros ->. discriminate.
Qed.

Lemma newline_is_no_plain_space c :
  (N_of_ascii c =? 10)%N = true -> isSpace c = true /\ c <> " "%char.
Proof.
  intros H. apply N.eqb_eq in H.
  assert (Hc : c = ascii_of_N 10)
    by (rewrite <- H; symmetry; apply ascii_N_embedding).
  subst c. split; [reflexivity | discriminate].
Qed.

Lemma spaced_replaceNewlines s :
  forall p, spacedFrom p s = true -> replaceNewlines s = s.
Proof.
  induction s as [| c r IH]; intros p H; cbn; [reflexivity |].
  destruct (N_of_ascii c =? 10)%N eqn:E.
  - apply newline_is_no_plain_space in E. destruct E as (E1 & E2).
    apply spaced_parts in H.
    destruct H as [(_ & Hc & _) | (Hc & _)]; congruence.
  - apply spaced_parts in H.
    destruct H as [(_ & _ & _ & _ & H) | (_ & H)];
      now rewrite (IH _ H).
Qed.

Lemma spaced_collapseSpaces s :
  forall p, spacedFrom p s = true -> collapseSpaces p s = s.
Proof.
  induction s as [| c r IH]; intros p H; cbn; [reflexivity |].
  apply spaced_parts in H.
  destruct H as [(E & -> & -> & _ & H) | (E & H)]; rewrite E.
  - now rewrite (IH _ H).
  - now rewrite (IH _ H).
Qed.

Lemma spaced_weaken s : spacedFrom true s = true -> spacedFrom false s = true.
Proof.
  destruct s as [| c r]; [reflexivity |]. intros H.
  apply spaced_parts in H.
  destruct H as [(_ & _ & H & _) | (E & H)]; [discriminate |].
  cbn. now rewrite E.
Qed.

Lemma spaced_trimStart s : spacedFrom true s = true -> trimStart s = s.
Proof.
  destruct s as [| c r]; [reflexivity |]. intros H.
  apply spaced_parts in H.
  destruct H as [(_ & _ & H & _) | (E & H)]; [discriminate |].
  cbn. now rewrite E.
Qed.

Lemma spaced_trimEnd s : forall p, spacedFrom p s = true -> trimEnd s = s.
Proof.
  induction s as [| c r IH]; intros p H; cbn; [reflexivity |].
  apply spaced_parts in H.
  destruct H as [(E & _ & _ & Hr & H) | (E & H)];
    rewrite (IH _ H), E; destruct r; congruence.
Qed.

Lemma wellSpaced_fixed s : wellSpaced s = true -> normalizeText s = s.
Proof.
  unfold wellSpaced, normalizeText. intros H.
  rewrite (spaced_replaceNewlines _ _ H),
    (spaced_collapseSpaces _ _ (spaced_weaken _ H)), trim_both_ends,
    (spaced_trimStart _ H).
  now apply (spaced_trimEnd _ true).
Qed.

(** No line break, no tab, nothing but plain spaces for white space. *)
Lemma wellSpaced_one_line s :
  wellSpaced s = true ->
  forall c, In c (list_ascii_of_string s) -> isSpace c = true -> c = " "%char.
Proof.
  unfold wellSpaced. intros H0 c' Hin0 Hc'.
  assert (Hgen : forall p, spacedFrom p s = true ->
                           In c' (list_ascii_of_string s) -> c' = " "%char);
    [| exact (Hgen true H0 Hin0)].
  clear H0 Hin0.
  induction s as [| c r IH]; intros p H Hin; [destruct Hin |].
  apply spaced_parts in H. destruct Hin as [<- | Hin].
  - destruct H as [(_ & H & _) | (E & _)]; congruence.
  - destruct H as [(_ & _ & _ & _ & H) | (_ & H)]; eapply IH; eauto.
Qed.

(** X20.  The text [extractUserText] makes of a string (ASCII): every
    white-space character in it is a plain space standing between two
    characters that are not white space, so there is no line break, no run
    of spaces, and no space at either end; a text already of that form
    comes back unchanged, and so does the result of a first pass. *)
Theorem normalizeText_is_a_normal_form (s : string) :
  wellSpaced (normalizeText s) = true
  /\ (forall c, In c (list_ascii_of_string (normalizeText s)) ->
                isSpace c = true -> c = " "%char)
  /\ (wellSpaced s = true -> normalizeText s = s)
  /\ normalizeText (normalizeText s) = normalizeText s.
Proof.
  split; [apply normalizeText_wellSpaced |]. split.
  - apply wellSpaced_one_line, normalizeText_wellSpaced.
  - split; [apply wellSpaced_fixed |].
    apply wellSpaced_fixed, normalizeText_wellSpaced.
Qed.

Lemma normalizeText_is_a_normal_form_witness :
  normalizeText "fix the bug" = "fix the bug".
Proof.
  apply (proj1 (proj2 (proj2 (normalizeText_is_a_normal_form "fix the bug")))).
  reflexivity.
Defined.

Example normalizeText_squeezes :
  normalizeText ("  fix" ++ String (ascii_of_N 10) (String (ascii_of_N 9)
                                                           "the   bug  "))
  = "fix the bug".
Proof. reflexivity. Qed.

(** ** The records a pass hands on *)

(** A tool record has an id and a name, the name of neither an agent
    start nor a todo list, and runs exactly as long as it has no end. *)
Definition wellFormedTool (t : ToolEntry) : Prop :=
  id t <> EmptyString
  /\ name t <> EmptyString
  /\ name t <> "Task"
  /\ name t <> "TodoWrite"
  /\ (status t = running <-> endTime t = None).

Definition wellFormedAgent (g : AgentEntry) : Prop :=
  agent_id g <> EmptyString
  /\ (agent_status g = agent_running <-> agent_endTime g = None).

Lemma truthyNStr_orDefault (x : nullable string) :
  truthyNStr x = true -> orDefault x EmptyString <> EmptyString.
Proof. destruct x as [| |[| c r]]; cbn; congruence. Qed.

Lemma newTool_wellFormed ts b :
  isToolStart b = true -> wellFormedTool (newTool ts b).
Proof.
  unfold isToolStart, isStart. intros H.
  apply andb_prop in H. destruct H as (H & Htodo).
  apply andb_prop in H. destruct H as (H & Htask).
  apply andb_prop in H. destruct H as (H & Hname).
  apply andb_prop in H. destruct H as (_ & Hid).
  unfold wellFormedTool, newTool, startId, startName in *. cbn.
  repeat split; auto using truthyNStr_orDefault.
  - intros E. rewrite E in Htask. discriminate.
  - intros E. rewrite E in Htodo. discriminate.
Qed.

Lemma finishTool_wellFormed e ts t :
  wellFormedTool t -> wellFormedTool (finishTool e ts t).
Proof.
  intros (H1 & H2 & H3 & H4 & _). unfold wellFormedTool. cbn.
  repeat split; auto; destruct e; discriminate.
Qed.

Lemma newAgent_wellFormed ts b :
  isAgentStart b = true -> wellFormedAgent (newAgent ts b).
Proof.
  unfold isAgentStart, isStart. intros H.
  apply andb_prop in H. destruct H as (H & _).
  apply andb_prop in H. destruct H as (H & _).
  apply andb_prop in H. destruct H as (_ & Hid).
  unfold wellFormedAgent, newAgent, startId. cbn.
  repeat split; auto using truthyNStr_orDefault.
Qed.

Lemma finishAgent_wellFormed ts g :
  wellFormedAgent g -> wellFormedAgent (finishAgent ts g).
Proof.
  intros (H1 & _). unfold wellFormedAgent. cbn.
  repeat split; auto; discriminate.
Qed.

Lemma Forall_sliceLast {A} (P : A -> Prop) n (l : list A) :
  Forall P l -> Forall P (sliceLast n l).
Proof.
  unfold sliceLast. intros H.
  rewrite <- (firstn_skipn (length l - n) l) in H.
  now apply Forall_app in H.
Qed.

Lemma Forall_mapValues {V} (P : V -> Prop) (m : omap V) :
  Forall (fun kv => P (snd kv)) m -> Forall P (mapValues m).
Proof. unfold mapValues. intros H. now apply Forall_map. Qed.

(** [parseTranscript] ends in [finish], whatever it was given. *)
Lemma parseTranscript_finishes Date_parse clock JSON_parse transcriptPath file :
  parseTranscript Date_parse clock JSON_parse transcriptPath file
  = finish emptyAcc
  \/ exists lines,
      file = Some lines
      /\ parseTranscript Date_parse clock JSON_parse transcriptPath file
         = finish (accumulate Date_parse clock JSON_parse lines).
Proof.
  unfold parseTranscript. destruct file as [lines |]; [| now left].
  destruct (truthyStr transcriptPath); [right; now exists lines | now left].
Qed.

Lemma parseTranscript_reads Date_parse clock JSON_parse transcriptPath lines :
  transcriptPath <> EmptyString ->
  parseTranscript Date_parse clock JSON_parse transcriptPath (Some lines)
  = finish (accumulate Date_parse clock JSON_parse lines).
Proof. unfold parseTranscript. destruct transcriptPath; [congruence | easy]. Qed.

(** X21.  Every tool record [parseTranscript] returns has an id and a
    name that are not empty, is named neither [Task] nor [TodoWrite], and
    has status [running] exactly when it has no end time; every agent
    record has a non-empty id and is [running] exactly when it has no end
    time. *)
Theorem returned_records_are_well_formed
        (Date_parse : string -> Date) (clock : nat -> Z)
        (JSON_parse : string -> option TranscriptLine)
        (transcriptPath : string) (file : option (list string)) :
  let r := parseTranscript Date_parse clock JSON_parse transcriptPath file in
  Forall wellFormedTool (tools r) /\ Forall wellFormedAgent (agents r).
Proof.
  intros r. subst r.
  destruct (parseTranscript_finishes Date_parse clock JSON_parse
                                     transcriptPath file)
    as [-> | (lines & _ & ->)]; [split; constructor |].
  destruct (holds_accumulate (fun kv => wellFormedTool (snd kv))
                             (fun kv => wellFormedAgent (snd kv))
                             (fun ts b => newTool_wellFormed ts b)
                             (fun k v e ts => finishTool_wellFormed e ts v)
                             (fun ts b => newAgent_wellFormed ts b)
                             (fun k v ts => finishAgent_wellFormed ts v)
                             Date_parse clock JSON_parse lines)
    as (Ht & Hg).
  split; apply Forall_sliceLast, Forall_mapValues; assumption.
Qed.

(** ** A start that comes again *)

Lemma mapGet_mapSet {V} k (v : V) m : mapGet k (mapSet k v m) = Some v.
Proof.
  induction m as [| [k' v'] m IH]; cbn.
  - now rewrite String.eqb_refl.
  - destruct (String.eqb k k') eqn:E; cbn; rewrite E; [reflexivity | exact IH].
Qed.

Lemma mapGet_mapSet_other {V} k k' (v : V) m :
  k' <> k -> mapGet k' (mapSet k v m) = mapGet k' m.
Proof.
  intros Hne. induction m as [| [k0 v0] m IH]; cbn.
  - destruct (String.eqb_spec k' k); congruence.
  - destruct (String.eqb_spec k k0) as [<- | Hk]; cbn.
    + destruct (String.eqb_spec k' k); congruence.
    + now rewrite IH.
Qed.

Lemma processToolResult_on_start ts b a :
  isStart b = true -> processToolResult ts b a = a.
Proof.
  unfold isStart, processToolResult. intros H.
  apply andb_prop in H. destruct H as (H & _).
  apply andb_prop in H. destruct H as (H & _).
  apply String.eqb_eq in H.
  destruct (tool_use_id b); try reflexivity. now rewrite H.
Qed.

(** X22.  A tool start whose id the map already holds puts a fresh
    record in that place: running, started at the new instant, without
    end time, with the new name and target; the records under all other
    ids, the order of the ids and the agents stay as they were. *)
Theorem tool_start_replaces_the_record
        (ts : Date) (a : Acc) (b : ContentBlock) :
  isToolStart b = true ->
  let a' := processBlock ts a b in
  mapGet (startId b) (toolMap a') = Some (newTool ts b)
  /\ (forall k, k <> startId b -> mapGet k (toolMap a') = mapGet k (toolMap a))
  /\ (In (startId b) (mapKeys (toolMap a)) ->
      mapKeys (toolMap a') = mapKeys (toolMap a))
  /\ agentMap a' = agentMap a.
Proof.
  intros Hb a'. subst a'. unfold processBlock.
  assert (Hs : isStart b = true).
  { unfold isToolStart in Hb. apply andb_prop in Hb. destruct Hb as (Hb & _).
    apply andb_prop in Hb. now destruct Hb. }
  rewrite (processToolResult_on_start _ _ _ Hs), toolMap_processToolUse, Hb,
    agentMap_processToolUse.
  assert (Hg : isAgentStart b = false).
  { unfold isToolStart, isAgentStart in *. rewrite Hs in *. cbn in *.
    destruct (String.eqb (startName b) "Task"); [discriminate | easy]. }
  rewrite Hg. split; [apply mapGet_mapSet |]. split.
  - intros k Hk. now apply mapGet_mapSet_other.
  - split; [| reflexivity]. intros Hin. rewrite mapKeys_mapSet.
    unfold addKey. apply existsb_eqb_In in Hin. now rewrite Hin.
Qed.

Definition afterRead : Acc :=
  processBlock (DateOf 1000) emptyAcc (toolUse "a" "Read" Undefined).

Lemma tool_start_replaces_the_record_witness :
  mapGet "a" (toolMap (processBlock (DateOf 2000)
                                    (processBlock (DateOf 1500) afterRead
                                                  (toolResult "a" Undefined))
                                    (toolUse "a" "Grep" Undefined)))
  = Some (newTool (DateOf 2000) (toolUse "a" "Grep" Undefined)).
Proof.
  apply (proj1 (tool_start_replaces_the_record
                  (DateOf 2000)
                  (processBlock (DateOf 1500) afterRead
                                (toolResult "a" Undefined))
                  (toolUse "a" "Grep" Undefined) eq_refl)).
Defined.

(** ** The target of a shell command *)

(** X23.  For a [Bash] tool use with an input object the target is
    always a string of at most 33 characters: the command itself when it
    has up to 30 characters, its first 30 characters and three dots when
    it is longer, and the word [undefined] when the input carries no
    command.  Without an input object no tool has a target. *)
Theorem bash_target_is_short (input : ToolInput) :
  (exists s,
      extractTarget "Bash" (Val input) = Val s
      /\ (String.length s <= 33)%nat
      /\ (forall cmd,
             command input = Val cmd ->
             ((String.length cmd <= 30)%nat -> s = cmd)
             /\ ((30 < String.length cmd)%nat ->
                 s = String.substring 0 30 cmd ++ "..."
                 /\ String.length s = 33%nat))
      /\ (nullish (command input) = true -> s = "undefined"))
  /\ (forall toolName,
         extractTarget toolName Undefined = Undefined
         /\ extractTarget toolName Null = Undefined).
Proof.
  split; [| now split].
  cbn -[Nat.ltb String.substring String.length append].
  destruct (command input) as [| |cmd].
  - exists "undefined". repeat split; cbn; try lia; discriminate.
  - exists "undefined". repeat split; cbn; try lia; discriminate.
  - eexists. split; [reflexivity |].
    assert (Hsub : String.length (String.substring 0 30 cmd)
                   = Nat.min 30 (String.length cmd))
      by apply RenderFacts.length_substring_0.
    destruct (Nat.ltb_spec 30 (String.length cmd)) as [Hlong | Hshort].
    + assert (Hlen : String.length (String.substring 0 30 cmd ++ "...")
                     = 33%nat).
      { rewrite RenderFacts.length_append, Hsub.
        change (String.length "...") with 3%nat. lia. }
      split; [rewrite Hlen; lia |]. split; [| discriminate].
      intros cmd' E. injection E as <-. split; [lia |].
      intros _. split; [reflexivity | exact Hlen].
    + assert (Hwhole : String.substring 0 30 cmd ++ EmptyString = cmd).
      { clear Hsub. revert Hshort. generalize 30%nat as n. intros n.
        revert n. induction cmd as [| c r IH]; intros [| n] H; cbn in *;
          try reflexivity; try lia.
        f_equal. apply IH. lia. }
      rewrite Hwhole. split; [lia |]. split; [| discriminate].
      intros cmd' E. injection E as <-. split; [reflexivity | lia].
Qed.

Definition longCommand : ToolInput :=
  {| file_path := Undefined; path := Undefined; pattern := Undefined;
     command := Val "git log --oneline --graph --decorate --all";
     subagent_type := Undefined; model := Undefined;
     description := Undefined; todos := Undefined |}.

Lemma bash_target_is_short_witness :
  exists s,
    extractTarget "Bash" (Val longCommand) = Val s
    /\ (String.length s <= 33)%nat
    /\ (forall cmd,
           command longCommand = Val cmd ->
           ((String.length cmd <= 30)%nat -> s = cmd)
           /\ ((30 < String.length cmd)%nat ->
               s = String.substring 0 30 cmd ++ "..."
               /\ String.length s = 33%nat))
    /\ (nullish (command longCommand) = true -> s = "undefined").
Proof. exact (proj1 (bash_target_is_short longCommand)). Defined.

(** ** What the blocks leave alone *)

Ltac through_block :=
  unfold processBlock, processToolResult, processToolUse;
  repeat match goal with
         | |- context [match ?x with _ => _ end] => destruct x
         end;
  reflexivity.

Lemma sessionStart_block ts a b :
  acc_sessionStart (processBlock ts a b) = acc_sessionStart a.
Proof. through_block. Qed.

Lemma userMessages_block ts a b :
  userMessages (processBlock ts a b) = userMessages a.
Proof. through_block. Qed.

Lemma sessionStart_blocks ts bs :
  forall a, acc_sessionStart (fold_left (processBlock ts) bs a)
            = acc_sessionStart a.
Proof.
  induction bs as [| b bs IH]; intros a; [reflexivity |].
  cbn [fold_left]. now rewrite IH, sessionStart_block.
Qed.

Lemma userMessages_blocks ts bs :
  forall a, userMessages (fold_left (processBlock ts) bs a) = userMessages a.
Proof.
  induction bs as [| b bs IH]; intros a; [reflexivity |].
  cbn [fold_left]. now rewrite IH, userMessages_block.
Qed.

Lemma sessionStart_collectUserMessage e a :
  acc_sessionStart (collectUserMessage e a) = acc_sessionStart a.
Proof.
  unfold collectUserMessage.
  destruct (line_type e), (chain (message e) content); try reflexivity;
    destruct (_ && _); try reflexivity;
    destruct (_ && _); reflexivity.
Qed.

Lemma latestTodos_collectUserMessage e a :
  latestTodos (collectUserMessage e a) = latestTodos a.
Proof.
  unfold collectUserMessage.
  destruct (line_type e), (chain (message e) content); try reflexivity;
    destruct (_ && _); try reflexivity;
    destruct (_ && _); reflexivity.
Qed.

(** ** The start of the session *)

(** The entries that carry a time stamp. *)
Definition stamped (es : list TranscriptLine) : list TranscriptLine :=
  filter (fun e => truthyNStr (timestamp e)) es.

Definition stampText (e : TranscriptLine) : string :=
  orDefault (timestamp e) EmptyString.

Section SessionStart.
Variable Date_parse : string -> Date.
Variable clock : nat -> Z.
Variable JSON_parse : string -> option TranscriptLine.

Definition firstStamp (es : list TranscriptLine) : option Date :=
  match stamped es with
  | [] => None
  | e :: _ => Some (Date_parse (stampText e))
  end.

Lemma sessionStart_entry e a :
  acc_sessionStart (processEntry Date_parse clock e a)
  = match acc_sessionStart a with
    | Some s => Some s
    | None => firstStamp [e]
    end.
Proof.
  unfold processEntry, firstStamp, stamped, stampText. cbn [filter].
  destruct (chain (message e) content) as [| |[blocks | txt]];
    rewrite ?sessionStart_blocks; cbn;
    destruct (acc_sessionStart a), (truthyNStr (timestamp e)); reflexivity.
Qed.

Lemma firstStamp_cons e es :
  firstStamp (e :: es)
  = match firstStamp [e] with Some d => Some d | None => firstStamp es end.
Proof.
  unfold firstStamp, stamped. cbn [filter].
  now destruct (truthyNStr (timestamp e)).
Qed.

Lemma sessionStart_lines lines :
  forall a,
    acc_sessionStart
      (fold_left (processLine Date_parse clock JSON_parse) lines a)
    = match acc_sessionStart a with
      | Some s => Some s
      | None => firstStamp (entriesOf JSON_parse lines)
      end.
Proof.
  induction lines as [| line lines IH]; intros a.
  - cbn. now destruct (acc_sessionStart a).
  - cbn [fold_left]. rewrite IH. unfold entriesOf. cbn [flat_map].
    fold (entriesOf JSON_parse lines). unfold processLine.
    destruct (negb (truthyStr (trim line))); [reflexivity |].
    destruct (JSON_parse line) as [e |]; [| reflexivity].
    cbn [app]. rewrite sessionStart_collectUserMessage, sessionStart_entry,
      (firstStamp_cons e (entriesOf JSON_parse lines)).
    destruct (acc_sessionStart a); [reflexivity |].
    now destruct (firstStamp [e]).
Qed.
End SessionStart.

(** X24.  The session start [parseTranscript] reports is the date made of
    the time stamp of the first entry, among those it gets to process,
    that carries a non-empty time stamp, whether or not that date is a
    valid one and whatever the later entries carry; the wall clock plays
    no part in it.  Without such an entry, or without a file to read,
    there is no session start. *)
Theorem sessionStart_is_the_first_stamp
        (Date_parse : string -> Date) (clock : nat -> Z)
        (JSON_parse : string -> option TranscriptLine)
        (transcriptPath : string) :
  (forall lines,
      transcriptPath <> EmptyString ->
      sessionStart (parseTranscript Date_parse clock JSON_parse
                                    transcriptPath (Some lines))
      = match stamped (entriesOf JSON_parse lines) with
        | [] => None
        | e :: _ => Some (Date_parse (stampText e))
        end)
  /\ sessionStart (parseTranscript Date_parse clock JSON_parse
                                   transcriptPath None) = None
  /\ (forall file,
         sessionStart (parseTranscript Date_parse clock JSON_parse
                                       EmptyString file) = None).
Proof.
  split; [| split].
  - intros lines Hpath. rewrite parseTranscript_reads by exact Hpath.
    cbn [sessionStart finish]. unfold accumulate.
    now rewrite sessionStart_lines.
  - reflexivity.
  - now intros [lines |].
Qed.

(** A todo list, an entry without time stamp, one with a stamp that is
    no date, and messages of the user. *)
Definition todoInput (items : list TodoItem) : nullable ToolInput :=
  Val {| file_path := Undefined; path := Undefined; pattern := Undefined;
         command := Undefined; subagent_type := Undefined; model := Undefined;
         description := Undefined; todos := Val items |}.

Definition noTodos : nullable ToolInput :=
  Val {| file_path := Undefined; path := Undefined; pattern := Undefined;
         command := Undefined; subagent_type := Undefined; model := Undefined;
         description := Undefined; todos := Undefined |}.

Definition item (text state : string) : TodoItem :=
  {| todo_content := text; todo_status := state |}.

Definition says (ts : nullable string) (text : string) : TranscriptLine :=
  {| line_type := Val "user"; timestamp := ts;
     message := Val {| content := Val (Text text) |} |}.

Definition sessionLines : list (string * TranscriptLine) :=
  [ ("unstamped", entryOf "assistant" Undefined
                          [toolUse "a" "Read" Undefined]);
    ("badstamp", entryOf "assistant" (Val "yesterday")
                         [toolUse "b" "Read" Undefined]);
    ("plan", entryOf "assistant" (Val t1)
                     [toolUse "p" "TodoWrite"
                              (todoInput [item "write" "pending";
                                          item "test" "pending"])]);
    ("replan", entryOf "assistant" (Val t2)
                       [toolUse "q" "TodoWrite"
                                (todoInput [item "write" "completed"])]);
    ("no-plan", entryOf "assistant" (Val t3)
                        [toolUse "r" "TodoWrite" noTodos]);
    ("ask", says (Val t1) "fix the bug");
    ("stop", says (Val t2) "[Request interrupted by user]");
    ("blank", says (Val t3) "   ") ].

Definition sessionParse (line : string) : option TranscriptLine :=
  mapGet line sessionLines.

Lemma sessionStart_is_the_first_stamp_witness :
  sessionStart (parseTranscript toyDate toyClock sessionParse "/t.jsonl"
                                (Some ["unstamped"; "badstamp"; "plan"]))
  = match stamped (entriesOf sessionParse ["unstamped"; "badstamp"; "plan"])
    with
    | [] => None
    | e :: _ => Some (toyDate (stampText e))
    end.
Proof.
  apply (proj1 (sessionStart_is_the_first_stamp toyDate toyClock sessionParse
                                                "/t.jsonl")).
  discriminate.
Defined.

Example invalid_first_stamp_stays :
  sessionStart (parseTranscript toyDate toyClock sessionParse "/t.jsonl"
                                (Some ["unstamped"; "badstamp"; "plan"]))
  = Some InvalidDate.
Proof. reflexivity. Qed.

(** ** The todo list *)

(** The array a block replaces the todo list with, when it does. *)
Definition todoPayload (b : ContentBlock) : option (list TodoItem) :=
  if isStart b && String.eqb (startName b) "TodoWrite"
  then orNull (chain (block_input b) todos)
  else None.

Definition todoWrites (bs : list ContentBlock) : list (list TodoItem) :=
  flat_map (fun b => match todoPayload b with
                     | Some l => [l]
                     | None => []
                     end) bs.

Lemma last_cons_default {A} (x : A) l d : last (x :: l) d = last l x.
Proof.
  revert x d. induction l as [| y l IH]; intros x d; [reflexivity |].
  change (last (x :: y :: l) d) with (last (y :: l) d). now rewrite !IH.
Qed.

Lemma last_app_default {A} (xs ys : list A) d :
  last (xs ++ ys) d = last ys (last xs d).
Proof.
  revert d. induction xs as [| x xs IH]; intros d; [reflexivity |].
  now rewrite <- app_comm_cons, !last_cons_default, IH.
Qed.

Lemma latestTodos_block ts a b :
  latestTodos (processBlock ts a b) = last (todoWrites [b]) (latestTodos a).
Proof.
  unfold processBlock.
  assert (Hres : forall a0, latestTodos (processToolResult ts b a0)
                            = latestTodos a0).
  { intros a0. unfold processToolResult.
    destruct (tool_use_id b); try reflexivity. now destruct (_ && _). }
  rewrite Hres. unfold todoWrites, todoPayload, processToolUse, isStart,
    startName. cbn [flat_map].
  destruct (block_id b) as [| |bid], (block_name b) as [| |bname]; cbn;
    rewrite ?andb_false_r; try reflexivity.
  destruct (String.eqb (block_type b) "tool_use"); cbn; [| reflexivity].
  destruct (truthyStr bid); cbn; [| reflexivity].
  destruct (truthyStr bname); cbn; [| reflexivity].
  destruct (String.eqb_spec bname "TodoWrite") as [-> | Hne]; cbn.
  - now destruct (chain (block_input b) todos).
  - now destruct (String.eqb bname "Task").
Qed.

Lemma todoWrites_app bs bs' :
  todoWrites (bs ++ bs') = (todoWrites bs ++ todoWrites bs')%list.
Proof. unfold todoWrites. apply flat_map_app. Qed.

Lemma latestTodos_blocks ts bs :
  forall a, latestTodos (fold_left (processBlock ts) bs a)
            = last (todoWrites bs) (latestTodos a).
Proof.
  induction bs as [| b bs IH]; intros a; [reflexivity |].
  cbn [fold_left]. rewrite IH, latestTodos_block.
  change (b :: bs) with ([b] ++ bs)%list.
  now rewrite todoWrites_app, last_app_default.
Qed.

Lemma latestTodos_entry Date_parse clock e a :
  latestTodos (processEntry Date_parse clock e a)
  = last (todoWrites (blocksOf e)) (latestTodos a).
Proof.
  unfold processEntry, blocksOf.
  destruct (chain (message e) content) as [| |[blocks | txt]];
    try reflexivity.
  now rewrite latestTodos_blocks.
Qed.

Lemma latestTodos_lines Date_parse clock JSON_parse lines :
  forall a,
    latestTodos (fold_left (processLine Date_parse clock JSON_parse) lines a)
    = last (todoWrites (flat_map blocksOf (entriesOf JSON_parse lines)))
           (latestTodos a).
Proof.
  induction lines as [| line lines IH]; intros a; [reflexivity |].
  cbn [fold_left]. rewrite IH. unfold entriesOf. cbn [flat_map].
  fold (entriesOf JSON_parse lines). unfold processLine.
  destruct (negb (truthyStr (trim line))); [reflexivity |].
  destruct (JSON_parse line) as [e |]; [| reflexivity].
  cbn [app flat_map].
  rewrite todoWrites_app, last_app_default.
  now rewrite latestTodos_collectUserMessage, latestTodos_entry.
Qed.

(** X25.  The todo list [parseTranscript] returns is the array of the
    last [TodoWrite] tool use, among the entries it gets to process, whose
    input carries a [todos] array; a [TodoWrite] without one leaves the
    list as it was, and tool results, other tools and user messages never
    touch it.  With no such tool use, or no file to read, the list is
    empty. *)
Theorem todos_are_the_last_write
        (Date_parse : string -> Date) (clock : nat -> Z)
        (JSON_parse : string -> option TranscriptLine)
        (transcriptPath : string) :
  (forall lines,
      transcriptPath <> EmptyString ->
      result_todos (parseTranscript Date_parse clock JSON_parse
                                    transcriptPath (Some lines))
      = last (todoWrites (flat_map blocksOf (entriesOf JSON_parse lines))) [])
  /\ result_todos (parseTranscript Date_parse clock JSON_parse
                                   transcriptPath None) = []
  /\ (forall b, isStart b = false -> todoPayload b = None)
  /\ (forall b, startName b <> "TodoWrite" -> todoPayload b = None).
Proof.
  split; [| split; [reflexivity | split]].
  - intros lines Hpath. rewrite parseTranscript_reads by exact Hpath.
    cbn [result_todos finish]. unfold accumulate.
    now rewrite latestTodos_lines.
  - intros b Hb. unfold todoPayload. now rewrite Hb.
  - intros b Hb. unfold todoPayload.
    destruct (String.eqb_spec (startName b) "TodoWrite"); [congruence |].
    now rewrite andb_false_r.
Qed.

Lemma todos_are_the_last_write_witness :
  result_todos (parseTranscript toyDate toyClock sessionParse "/t.jsonl"
                                (Some ["plan"; "replan"; "no-plan"; "ask"]))
  = last (todoWrites
            (flat_map blocksOf
                      (entriesOf sessionParse
                                 ["plan"; "replan"; "no-plan"; "ask"]))) [].
Proof.
  apply (proj1 (todos_are_the_last_write toyDate toyClock sessionParse
                                         "/t.jsonl")).
  discriminate.
Defined.

Example replanned_todos :
  result_todos (parseTranscript toyDate toyClock sessionParse "/t.jsonl"
                                (Some ["plan"; "replan"; "no-plan"; "ask"]))
  = [item "write" "completed"].
Proof. reflexivity. Qed.

(** ** The last message of the user *)

(** What a message must be like to be kept. *)
Definition keepable (m : string) : Prop :=
  m <> EmptyString
  /\ String.prefix "[Request interrupted" m = false
  /\ String.prefix "[Request cancelled" m = false
  /\ wellSpaced m = true.

Lemma extractUserText_wellSpaced c : wellSpaced (extractUserText c) = true.
Proof. destruct c; apply normalizeText_wellSpaced. Qed.

Lemma keepable_collectUserMessage e a :
  Forall keepable (userMessages a) ->
  Forall keepable (userMessages (collectUserMessage e a)).
Proof.
  intros Ha. unfold collectUserMessage.
  destruct (line_type e) as [| |t], (chain (message e) content) as [| |c];
    try exact Ha.
  destruct (_ && _); [| exact Ha].
  destruct (truthyStr (extractUserText c)
            && negb (isUnhelpfulMessage (extractUserText c))) eqn:E;
    [| exact Ha].
  cbn. apply Forall_app. split; [exact Ha |]. repeat constructor.
  - intros E0. rewrite E0 in E. discriminate.
  - apply andb_prop in E. destruct E as (_ & E). unfold isUnhelpfulMessage in E.
    now destruct (String.prefix "[Request interrupted" (extractUserText c)).
  - apply andb_prop in E. destruct E as (_ & E). unfold isUnhelpfulMessage in E.
    destruct (String.prefix "[Request cancelled" (extractUserText c));
      [| reflexivity].
    now rewrite orb_true_r in E.
  - apply extractUserText_wellSpaced.
Qed.

Lemma keepable_lines Date_parse clock JSON_parse lines :
  forall a,
    Forall keepable (userMessages a) ->
    Forall keepable
           (userMessages
              (fold_left (processLine Date_parse clock JSON_parse) lines a)).
Proof.
  induction lines as [| line lines IH]; intros a Ha; [exact Ha |].
  cbn [fold_left]. apply IH. unfold processLine.
  destruct (negb (truthyStr (trim line))); [exact Ha |].
  destruct (JSON_parse line) as [e |]; [| exact Ha].
  apply keepable_collectUserMessage. unfold processEntry.
  destruct (chain (message e) content) as [| |[blocks | txt]];
    rewrite ?userMessages_blocks; exact Ha.
Qed.

Lemma last_Some_In {A} (l : list A) m :
  last (map Some l) None = Some m -> In m l.
Proof.
  induction l as [| x l IH]; [discriminate |].
  cbn [map]. rewrite last_cons_default.
  destruct l as [| y l]; cbn [map].
  - intros E. injection E as <-. now left.
  - intros E. right. apply IH. cbn [map].
    now rewrite last_cons_default in E |- *.
Qed.

(** X26.  A last user message [parseTranscript] reports is never empty,
    never starts with the marker of an interrupted or of a cancelled
    request, and is on one line with single spaces only (ASCII);
    [renderLastMessageLine] therefore gives no line exactly when there is
    no such message. *)
Theorem lastUserMessage_is_worth_showing
        (Date_parse : string -> Date) (clock : nat -> Z)
        (JSON_parse : string -> option TranscriptLine)
        (transcriptPath : string) (file : option (list string))
        (dim : string -> string) (balloon : string) :
  let r := parseTranscript Date_parse clock JSON_parse transcriptPath file in
  (forall m, lastUserMessage r = Some m -> keepable m)
  /\ (Render.renderLastMessageLine dim balloon r = None
      <-> lastUserMessage r = None).
Proof.
  intros r.
  assert (Hkeep : forall m, lastUserMessage r = Some m -> keepable m).
  { subst r.
    destruct (parseTranscript_finishes Date_parse clock JSON_parse
                                       transcriptPath file)
      as [-> | (lines & _ & ->)]; [discriminate |].
    intros m Hm. cbn [lastUserMessage finish] in Hm.
    apply last_Some_In in Hm.
    assert (Hall := keepable_lines Date_parse clock JSON_parse lines emptyAcc
                                   (Forall_nil _)).
    rewrite Forall_forall in Hall. now apply Hall. }
  split; [exact Hkeep |].
  unfold Render.renderLastMessageLine.
  destruct (lastUserMessage r) as [m |] eqn:E; [| easy].
  destruct (Hkeep m eq_refl) as (Hne & _).
  destruct m; [congruence |]. cbn. split; discriminate.
Qed.

Lemma lastUserMessage_is_worth_showing_witness :
  keepable "fix the bug".
Proof.
  apply (proj1 (lastUserMessage_is_worth_showing
                  toyDate toyClock sessionParse "/t.jsonl"
                  (Some ["ask"; "stop"; "blank"]) (fun s => s) "says:")).
  reflexivity.
Defined.

Example interruption_is_not_the_last_message :
  lastUserMessage (parseTranscript toyDate toyClock sessionParse "/t.jsonl"
                                   (Some ["ask"; "stop"; "blank"]))
  = Some "fix the bug".
Proof. reflexivity. Qed.

End TranscriptMoreFacts.

(* ===================================================================== *)
(** * Properties of the configuration *)
(* ===================================================================== *)

Module ConfigFacts.
Import Js Config.
Local Open Scope string_scope.

(** Every field that is checked holds one of its allowed values. *)
Definition valid (c : HudConfig) : Prop :=
  validateLayout (Some (JStr (layout c))) = true
  /\ validatePathLevels (Some (JNum (pathLevels c))) = true
  /\ validateColorTheme (Some (JStr (colorTheme c))) = true
  /\ (contextValue (display c) = "percent"
      \/ contextValue (display c) = "tokens")
  /\ validateAutocompactBuffer (Some (JStr (autocompactBuffer (display c))))
     = true.

(** A configuration handed back as a user configuration. *)
Definition asUserConfig (c : HudConfig) : Json :=
  let g := gitStatus c in
  let d := display c in
  JObj [ ("layout", JStr (layout c));
         ("pathLevels", JNum (pathLevels c));
         ("colorTheme", JStr (colorTheme c));
         ("gitStatus",
          JObj [ ("enabled", JBool (enabled g));
                 ("showDirty", JBool (showDirty g));
                 ("showAheadBehind", JBool (showAheadBehind g));
                 ("showFileStats", JBool (showFileStats g)) ]);
         ("display",
          JObj [ ("showModel", JBool (showModel d));
                 ("showContextBar", JBool (showContextBar d));
                 ("showConfigCounts", JBool (showConfigCounts d));
                 ("showDuration", JBool (showDuration d));
                 ("showTokenBreakdown", JBool (showTokenBreakdown d));
                 ("showUsage", JBool (showUsage d));
                 ("showTools", JBool (showTools d));
                 ("showAgents", JBool (showAgents d));
                 ("showTodos", JBool (showTodos d));
                 ("showLastMessage", JBool (showLastMessage d));
                 ("showSpeed", JBool (showSpeed d));
                 ("contextValue", JStr (contextValue d));
                 ("usageBarEnabled", JBool (usageBarEnabled d));
                 ("usageThreshold", JNum (usageThreshold d));
                 ("sevenDayThreshold", JNum (sevenDayThreshold d));
                 ("environmentThreshold", JNum (environmentThreshold d));
                 ("autocompactBuffer", JStr (autocompactBuffer d)) ]) ].

Lemma checked_string (check : option Json -> bool) (v : option Json) d :
  (forall w, check w = true -> exists s, w = Some (JStr s)) ->
  check (Some (JStr d)) = true ->
  check (Some (JStr (if check v then theString v d else d))) = true.
Proof.
  intros Hstr Hd. destruct (check v) eqn:E; [| exact Hd].
  destruct (Hstr v E) as (s & ->). exact E.
Qed.

Lemma validateLayout_string w :
  validateLayout w = true -> exists s, w = Some (JStr s).
Proof. destruct w as [[]|]; try discriminate. intros _. now eexists. Qed.

Lemma validateColorTheme_string w :
  validateColorTheme w = true -> exists s, w = Some (JStr s).
Proof. destruct w as [[]|]; try discriminate. intros _. now eexists. Qed.

Lemma validateAutocompactBuffer_string w :
  validateAutocompactBuffer w = true -> exists s, w = Some (JStr s).
Proof. destruct w as [[]|]; try discriminate. intros _. now eexists. Qed.

Lemma validatePathLevels_number w :
  validatePathLevels w = true -> exists n, w = Some (JNum n).
Proof. destruct w as [[]|]; try discriminate. intros _. now eexists. Qed.

Lemma mergeConfig_valid u c : mergeConfig u = Some c -> valid c.
Proof.
  intros H. unfold mergeConfig in H.
  destruct u; try discriminate; cbv zeta in H;
    apply (f_equal (fun o => match o with Some x => x | None => c end)) in H;
    cbv beta iota in H; subst c;
    unfold valid;
    cbn [layout pathLevels colorTheme display contextValue autocompactBuffer];
    (split; [apply (checked_string validateLayout);
             [apply validateLayout_string | reflexivity] |]);
    (split; [match goal with
             | |- context [theNumber ?v _] =>
                 generalize v; intros w;
                 destruct (validatePathLevels w) eqn:E; [| reflexivity];
                 destruct (validatePathLevels_number w E) as (lev & ->);
                 exact E
             end |]);
    (split; [apply (checked_string validateColorTheme);
             [apply validateColorTheme_string | reflexivity] |]);
    (split; [match goal with
             | |- context [isString ?v "tokens"] =>
                 destruct (isString v "tokens"); [now right | now left]
             end |]);
    (apply (checked_string validateAutocompactBuffer);
     [apply validateAutocompactBuffer_string | reflexivity]).
Qed.

(** X27.  [mergeConfig] throws on [null] and on nothing else.  Whatever
    else the user configuration is, the result is a full configuration in
    which the layout, the path levels (1, 2 or 3), the colour theme, the
    context value and the autocompact-buffer mode each hold one of their
    allowed values; a configuration that is no object (a number, a string,
    a boolean, an array) and the empty object give the defaults. *)
Theorem mergeConfig_gives_valid_config (userConfig : Json) :
  (mergeConfig userConfig = None <-> userConfig = JNull)
  /\ (forall c, mergeConfig userConfig = Some c -> valid c)
  /\ ((forall fields, userConfig <> JObj fields) ->
      userConfig <> JNull ->
      mergeConfig userConfig = Some DEFAULT_CONFIG)
  /\ mergeConfig (JObj []) = Some DEFAULT_CONFIG.
Proof.
  split; [| split; [| split]].
  - split; [destruct userConfig; try discriminate; reflexivity | now intros ->].
  - intros c. apply mergeConfig_valid.
  - intros Hobj Hnull. destruct userConfig; try reflexivity.
    + congruence.
    + now destruct (Hobj fields).
  - reflexivity.
Qed.

(** A layout that is none, and a theme that is one. *)
Definition halfGood : Json :=
  JObj [ ("layout", JStr "compact");
         ("pathLevels", JNum (ofZ 4));
         ("colorTheme", JStr "teal");
         ("display", JObj [ ("showSpeed", JBool true);
                            ("usageThreshold", JNum (ofZ (-5)));
                            ("contextValue", JStr "both") ]) ].

Lemma mergeConfig_gives_valid_config_witness :
  mergeConfig (JArr [JStr "layout"]) = Some DEFAULT_CONFIG
  /\ (exists c, mergeConfig halfGood = Some c /\ valid c).
Proof.
  split.
  - apply (proj1 (proj2 (proj2 (mergeConfig_gives_valid_config
                                  (JArr [JStr "layout"]))))); discriminate.
  - eexists. split; [reflexivity |].
    apply (proj1 (proj2 (mergeConfig_gives_valid_config halfGood))).
    reflexivity.
Defined.

Example bad_fields_fall_back_one_by_one :
  option_map (fun c => (layout c, pathLevels c, colorTheme c,
                        showSpeed (display c), usageThreshold (display c),
                        contextValue (display c)))
             (mergeConfig halfGood)
  = Some ("default", ofZ 1, "teal", true, ofZ (-5), "percent").
Proof. reflexivity. Qed.

Lemma isString_eq s t : isString (Some (JStr s)) t = true -> s = t.
Proof. cbn. apply String.eqb_eq. Qed.

(** X28.  A configuration whose checked fields hold allowed values comes
    back from [mergeConfig] as it is, thresholds of any size included; so
    merging the result of a merge changes nothing. *)
Theorem mergeConfig_keeps_valid_config (c : HudConfig) :
  (valid c -> mergeConfig (asUserConfig c) = Some c)
  /\ (forall u, mergeConfig u = Some c ->
                mergeConfig (asUserConfig c) = Some c).
Proof.
  assert (Hkeep : valid c -> mergeConfig (asUserConfig c) = Some c).
  { intros (Hlay & Hlev & Hcol & Hctx & Hbuf).
    destruct c as [lay lev col [] []]. cbn in *.
    rewrite Hlay, Hlev, Hcol, Hbuf. cbn.
    destruct Hctx as [-> | ->]; reflexivity. }
  split; [exact Hkeep |].
  intros u Hu. apply Hkeep. now apply (mergeConfig_valid u).
Qed.

Definition tunedConfig : HudConfig :=
  {| layout := "separators";
     pathLevels := ofZ 3;
     colorTheme := "rose";
     gitStatus :=
       {| enabled := false; showDirty := true; showAheadBehind := true;
          showFileStats := true |};
     display :=
       {| showModel := false; showContextBar := true;
          showConfigCounts := false; showDuration := true;
          showTokenBreakdown := false; showUsage := true; showTools := false;
          showAgents := true; showTodos := false; showLastMessage := true;
          showSpeed := true; contextValue := "tokens";
          usageBarEnabled := false; usageThreshold := ofZ 250;
          sevenDayThreshold := ofZ (-1); environmentThreshold := NaN;
          autocompactBuffer := "disabled" |} |}.

Lemma mergeConfig_keeps_valid_config_witness :
  mergeConfig (asUserConfig tunedConfig) = Some tunedConfig.
Proof.
  apply (proj1 (mergeConfig_keeps_valid_config tunedConfig)).
  unfold valid. cbn. repeat split. now right.
Defined.

(** X29.  [loadConfig] always returns a configuration, and always one
    whose checked fields hold allowed values: the defaults when the file
    is missing, cannot be read, is no JSON or holds [null], and otherwise
    what [mergeConfig] makes of the parsed text. *)
Theorem loadConfig_never_fails
        (JSON_parse : string -> option Json) (file : ConfigFile) :
  valid (loadConfig JSON_parse file)
  /\ (file = Missing \/ file = Unreadable
      \/ (exists text, file = Content text
                       /\ (JSON_parse text = None
                           \/ JSON_parse text = Some JNull)) ->
      loadConfig JSON_parse file = DEFAULT_CONFIG)
  /\ (forall text u,
         file = Content text -> JSON_parse text = Some u -> u <> JNull ->
         mergeConfig u = Some (loadConfig JSON_parse file)).
Proof.
  assert (Hd : valid DEFAULT_CONFIG).
  { unfold valid. cbn. repeat split. now left. }
  split; [| split].
  - destruct file as [| |text]; cbn; try exact Hd.
    destruct (JSON_parse text) as [u |]; [| exact Hd].
    destruct (mergeConfig u) as [c |] eqn:E; [| exact Hd].
    now apply (mergeConfig_valid u).
  - intros [-> | [-> | (text & -> & [E | E])]]; cbn; try reflexivity;
      now rewrite E.
  - intros text u -> E Hu. cbn. rewrite E.
    destruct u; try reflexivity. congruence.
Qed.

Definition oneParse (text : string) : option Json :=
  if String.eqb text "null" then Some JNull
  else if String.eqb text "{}" then Some (JObj [])
  else if String.eqb text "half" then Some halfGood
  else None.

Lemma loadConfig_never_fails_witness :
  loadConfig oneParse (Content "null") = DEFAULT_CONFIG
  /\ mergeConfig halfGood = Some (loadConfig oneParse (Content "half")).
Proof.
  split.
  - apply (proj1 (proj2 (loadConfig_never_fails oneParse (Content "null")))).
    right. right. exists "null". split; [reflexivity | now right].
  - apply (proj2 (proj2 (loadConfig_never_fails oneParse (Content "half")))
             "half" halfGood); [reflexivity | reflexivity | discriminate].
Defined.

End ConfigFacts.
